(* ===== verification/_CoqProject ===== *)
-Q . S2P
Prelude.v
ObjectId.v
Http.v
Store.v
Geocode.v
Places.v
Credentials.v
Users.v
Routes.v
App.v
Sessions.v
Responses.v
Abstract.v
Images.v
