(* ===== verification/Prelude.v ===== *)
(** * MernLearning-Backend: a verification development

    The repository is an express/Mongoose REST API for places and users
    (src/app.js, src/node-express-backend/...).  A place belongs to a user;
    each user document keeps the ordered list of its places' ids, and the
    two must agree (spec, section 3).  Creating and deleting a place
    change both documents inside one MongoDB transaction.  Users sign up
    with a bcrypt-hashed password and receive a one-hour JSON Web Token
    that the places router requires for every write.

    ** How the program is modelled

    - [Prelude] (this file): [JsM], the evaluation monad of the async
      handlers: a state monad in which a thrown exception keeps the
      effects made before it (JS does not roll back); [catch] and
      [attempt] model [try]/[catch] with early [return next(...)]; Hoare
      triples with an exceptional postcondition; [costs], how far a run
      lowers a measure of the state, with its rules and the [costs_run]
      tactic over the [costs] hint database; the [js] hint database;
      list helpers ([list_pull] is Mongoose's [pull]).
    - [ObjectId]: ids are 96-bit numbers, printed as 24 hex digits (the
      [.id] getter, [toString()]) and cast back from strings by Mongoose
      ([findById(req.params.pid)]); the round trip is proved.
    - [Http]: JSON bodies, the thrown values ([HttpError] of
      models/http-error.js, engine [TypeError]s, library rejections with
      their [code]), the request object ([req.params], [req.body],
      [req.file], [req.userData], [validationResult]) and the two ways a
      handler ends ([res.json] / [next(err)]).
    - [Store]: the schemas (models/ is not under src/; from the spec), the
      two collections as stdpp [gmap]s keyed by ObjectId, and the [World]
      a request runs on: committed collections, the id generator, a fault
      oracle, the open transaction's write log, files on disk, the clock.
      One definition per Mongoose call the controllers make
      ([Place.findById], [.populate('creator')], [Place.find], [User.findOne],
      [save], [remove], [startSession]/[startTransaction],
      [commitTransaction]) and [fs.unlink].  The invariant [world_wf]:
      every place is listed by its existing creator, every listed place
      exists with that creator, emails are unique, ids are below the
      generator, no transaction is open between requests.
    - [Geocode]: util/location.js's [getCoordsForAddress] over the
      [GeocodingApi] interface (what axios yields for an address).
    - [Places]: the five handlers of places-controller.js, call for call,
      with the create and delete transactions as [create_txn] and
      [delete_txn].
    - [Credentials]: the [CredentialService] interface (bcrypt and
      jsonwebtoken) with its laws (a password matches exactly its own
      hash; a token verifies to its payload before its expiry and not
      after; a token is non-empty and has no space, as base64url segments
      joined by dots) and an instance that satisfies them.
    - [Users]: the four handlers of users-controller.js over that
      interface.
    - [Routes]: the two route files: route tables, middleware order,
      express-validator chains ([EmailRules] stands for validator.js).
    - [App]: app.js's pipeline ([bodyParser.json], static files, routers,
      404 fallback, error handler) with the two middleware not under
      src/ (check-auth, file-upload) modelled from the spec; [serve] is one
      request, [step] the server's transitions (a request under any fault
      oracle, or the clock advancing) and [reachable] the worlds reached
      from an empty database.
    - [Sessions]: sequences of requests through [serve] (login then
      delete, signup then login, signup with a failing token) and the
      liveness of deletion.
    - [Responses]: the type of what the server sends ([response_ok]:
      the spec's two response shapes, express's 500 page, a file, or
      nothing), proved of every handler and of the whole pipeline.
    - [Images]: the image files of the places; [fresh_step] is [step]
      with multer's fresh upload names ([uuid()], file-upload.js).
    - [Abstract]: the spec's view of the write path (sections 3 and 4):
      [AbsState] holds the users without their derived place lists and
      the places; [abs_apply] performs one operation (create, edit,
      delete a place on behalf of a user id; sign up) with its guards;
      [abs_db] maps a database to that view.

    Every awaited library call consumes one bit of the fault oracle and
    rejects when it is set: a theorem quantified over all worlds covers
    every pattern of database, hashing and signing failures.  Commit is
    all-or-nothing (an "unknown commit result" is not modelled).  Requests
    are served one after another: the spec leaves concurrency to the
    database (section 5) and it is not modelled.

    ** What is proved

    - Invariants: [App.reachable_world_wf] (by induction on [reachable],
      from one preservation lemma per handler in [Places] and [Users]);
      [App.reachable_no_orphan_files]: every stored file is the image of
      a stored place or user ([Store.no_orphans]), because the error
      handler deletes the upload of a rejected request, deleting a place
      deletes its image, and no handler that receives an upload rejects
      with the file still unnamed (per-handler lemmas [*_no_orphans], the
      route facts of [Routes] that only signup and place creation take an
      upload); its converse for places,
      [Images.place_images_present]: with fresh upload names, the image
      of every stored place is on disk and belongs to no other place.
    - Refinement: [Abstract.serve_refines] (a request changes the
      abstract store by at most one guarded operation, performed by the
      user the auth gate accepted) and [Abstract.reachable_refines] (the
      abstract store of every reachable world is produced by a run of
      operations from the empty store); [Abstract.place_reads_abstract]
      (every [GET /api/places/...] answers from the abstract store, never
      from the users' lists of place ids).
    - Atomicity of the two-document writes under every failure pattern:
      [Places.createPlace_atomic], [Places.deletePlace_atomic].
    - Authorization and check order: [Places.deletePlace_absent_404]
      (existence before authorization), [Places.deletePlace_not_owner_401],
      [Places.updatePlace_not_owner_401], the token gate
      [App.places_mutations_require_token].
    - Functional behaviour of each handler on its main branches and error
      paths, passwords ([Users.users_responses_hide_password]) and tokens
      ([Users.loginUser_success]: the token verifies to the user for one
      hour), listing ([Places.getPlacesByUserId_lists_creator]: exactly
      the creator's places, each once), validation
      ([Routes.create_place_checks_spec]: what the chains accept, at the
      five-character boundary; [App.create_place_invalid_422]).
    - Termination: [App.serve_awaits_bounded]: every request settles
      after at most six calls to the database, bcrypt and jsonwebtoken
      that may fail ([Store.pending] counts the fault bits left, one per
      call; each call, handler and stage has its cost lemma).
    - Liveness: [Sessions.place_deletable]: in every consistent world,
      each stored place can be removed in one step (its creator's DELETE
      with a token issued to them), with its reference and its image.
    - Sessions of two requests through the whole pipeline:
      [Sessions.login_token_deletes_own_place] (the token a login returns
      passes the auth gate until it expires and lets the user delete
      their own place, both documents changing together) and
      [Sessions.signup_then_login_unknown] (an address that [normalizeEmail]
      changes beyond lower-casing signs up but can never log in), and
      [Sessions.signup_token_failure_dangling_image] (a failed [jwt.sign]
      after the user was saved answers 500 and deletes the image the
      stored user still names).
    - Divergences from the spec, proved as theorems about the code:
      [updatePlace] on a missing place and on invalid input, and
      [getUserById] on a missing user, reject with a TypeError so no
      response is sent ([Places.updatePlace_absent_throws],
      [Places.updatePlace_invalid_throws],
      [App.update_place_invalid_no_response],
      [Users.getUserById_absent_throws]); so does a place creation
      without an image ([App.create_place_without_image_no_response]);
      a missing owner is a 500 ([Places.createPlace_missing_user_500]).
    - The response contract: [Responses.response_type] (every response
      is a 200/201 object, a [{ message }] error with a status Node
      accepts, express's 500 page, a file or nothing).
    - ObjectIds: the round trip of the string form
      ([ObjectId.oid_of_to_string]).

    Each theorem with hypotheses has a witness ([..._witness], ending in
    [Defined]) that applies it to the demo database of [Store]
    ([demo_world]) or to the empty one with the demo instances of the
    interfaces ([Sessions.gmail_email_rules] strips a gmail [+tag] as
    validator.js does).  No fuel is needed: no handler loops and every
    definition is structural, so every handler and [serve] are total
    functions and the liveness theorem is about a
    request that returns.

    ** Not modelled

    Server start-up ([mongoose.connect], [app.listen]); response
    headers (the CORS middleware of app.js 19-24 only sets headers, and a
    response is modelled by its status and body; a HEAD response is the
    GET response without its body); the static file server's content
    (only its presence check); the other places express-validator's
    [check(f)] looks for a field (query, params, headers, cookies: the
    model reads [req.body] only); JSON values other than strings in a
    request body; numeric strings other than plain decimal digits as an
    [err.code] (Node's ToNumber also reads signs, exponents and hex); the
    cryptography behind the credential interface, validator.js's email
    rules, multer's file naming and mime filter, express's
    case-insensitive paths and OPTIONS handling (check-auth.js lets
    OPTIONS through), Mongoose's [__v] version
    key, and concurrency between requests.

    ** Plan for the next sittings

    - the serialization of ids in every response;
    - the reads of the users router, which show each user's list of
      place ids in its insertion order, an order the abstract store
      does not keep. *)

From stdpp Require Import base gmap strings list.
From Stdlib Require Import ZArith NArith String.

(** ** The evaluation monad of the handlers

    Every handler of the repository is an [async (req, res, next) => ...]
    function.  Awaited calls may reject, a rejection jumps to the nearest
    [catch], and state changes made before the rejection (database writes,
    files) are NOT rolled back.  [JsM S E A] is therefore a state monad in
    which the state survives an exception: a run returns the outcome
    ([Ok] value or [Throw] exception) together with the final state. *)

Inductive res (E A : Type) : Type :=
| Ok (a : A)
| Throw (e : E).
Arguments Ok {E A} a.
Arguments Throw {E A} e.

Definition JsM (S E A : Type) : Type := S -> res E A * S.

Section Monad.
Context {S E : Type}.

Definition js_ret {A} (a : A) : JsM S E A := fun s => (Ok a, s).

Definition js_bind {A B} (k : A -> JsM S E B) (m : JsM S E A) : JsM S E B :=
  fun s =>
    match m s with
    | (Ok a, s') => k a s'
    | (Throw e, s') => (Throw e, s')
    end.

Definition throw {A} (e : E) : JsM S E A := fun s => (Throw e, s).

(** [try { m } catch (e) { h(e) }] *)
Definition catch {A} (m : JsM S E A) (h : E -> JsM S E A) : JsM S E A :=
  fun s =>
    match m s with
    | (Throw e, s') => h e s'
    | r => r
    end.

Definition gets {A} (f : S -> A) : JsM S E A := fun s => (Ok (f s), s).

Definition modify (f : S -> S) : JsM S E unit := fun s => (Ok tt, f s).

(** [let x; try { x = await m } catch (err) { return next(...) }]: the
    outcome of [m] as a value, so the caller can return early. *)
Definition attempt {A} (m : JsM S E A) : JsM S E (E + A) :=
  fun s =>
    match m s with
    | (Ok a, s') => (Ok (inr a), s')
    | (Throw e, s') => (Ok (inl e), s')
    end.
End Monad.

#[export] Instance JsM_ret {S E} : MRet (JsM S E) := @js_ret S E.
#[export] Instance JsM_bind {S E} : MBind (JsM S E) := @js_bind S E.

Declare Scope js_scope.
Delimit Scope js_scope with js.
Notation "'try_' m 'catch_' e => h" := (catch m (fun e => h))
  (at level 10, m at level 100, e binder, h at level 200) : js_scope.

(** Final state and outcome of a run. *)
Definition outcome {S E A} (m : JsM S E A) (s : S) : res E A := fst (m s).
Definition final {S E A} (m : JsM S E A) (s : S) : S := snd (m s).

(** ** Monad laws and run equations *)

Section MonadLemmas.
Context {S E : Type}.

Lemma run_ret {A} (a : A) (s : S) : (mret a : JsM S E A) s = (Ok a, s).
Proof. reflexivity. Qed.

Lemma run_bind {A B} (m : JsM S E A) (k : A -> JsM S E B) s :
  (m ≫= k) s =
  match m s with (Ok a, s') => k a s' | (Throw e, s') => (Throw e, s') end.
Proof. reflexivity. Qed.

Lemma run_throw {A} (e : E) (s : S) : (throw e : JsM S E A) s = (Throw e, s).
Proof. reflexivity. Qed.

Lemma bind_ret_l {A B} (a : A) (k : A -> JsM S E B) : (mret a ≫= k) = k a.
Proof. reflexivity. Qed.

Lemma bind_ret_r {A} (m : JsM S E A) s : (m ≫= mret) s = m s.
Proof. rewrite run_bind. by destruct (m s) as [[] ?]. Qed.

Lemma bind_assoc {A B C} (m : JsM S E A) (k : A -> JsM S E B)
      (l : B -> JsM S E C) s :
  ((m ≫= k) ≫= l) s = (m ≫= (fun a => k a ≫= l)) s.
Proof. rewrite !run_bind. by destruct (m s) as [[] ?]. Qed.

(** A Hoare triple with an exceptional postcondition: from a state
    satisfying [P], a normal result satisfies [Q] and a thrown exception
    satisfies [QE].  The invariant proofs of the handlers are built from
    these rules. *)
Definition hoare {A} (P : S -> Prop) (m : JsM S E A)
           (Q : A -> S -> Prop) (QE : E -> S -> Prop) : Prop :=
  forall s, P s ->
    match m s with (Ok a, s') => Q a s' | (Throw e, s') => QE e s' end.

Lemma hoare_ret {A} (P : A -> S -> Prop) QE (a : A) :
  hoare (P a) (mret a) P QE.
Proof. intros s Hs. exact Hs. Qed.

Lemma hoare_throw {A} (P : S -> Prop) Q (QE : E -> S -> Prop) (e : E) :
  hoare P (throw e : JsM S E A) Q (fun e' s => e' = e /\ P s).
Proof. intros s Hs. simpl. auto. Qed.

Lemma hoare_bind {A B} P (m : JsM S E A) R (k : A -> JsM S E B) Q QE :
  hoare P m R QE -> (forall a, hoare (R a) (k a) Q QE) ->
  hoare P (m ≫= k) Q QE.
Proof.
  intros Hm Hk s Hs. rewrite run_bind. specialize (Hm s Hs).
  destruct (m s) as [[a|e] s']; [apply Hk|]; exact Hm.
Qed.

Lemma hoare_catch {A} P (m : JsM S E A) Q R (h : E -> JsM S E A) QE :
  hoare P m Q R -> (forall e, hoare (R e) (h e) Q QE) ->
  hoare P (catch m h) Q QE.
Proof.
  intros Hm Hh s Hs. unfold catch. specialize (Hm s Hs).
  destruct (m s) as [[a|e] s']; [exact Hm | apply Hh; exact Hm].
Qed.

Lemma hoare_conseq {A} P P' (m : JsM S E A) Q Q' QE QE' :
  hoare P' m Q' QE' ->
  (forall s, P s -> P' s) ->
  (forall a s, Q' a s -> Q a s) ->
  (forall e s, QE' e s -> QE e s) ->
  hoare P m Q QE.
Proof.
  intros Hm HP HQ HE s Hs. specialize (Hm s (HP s Hs)).
  destruct (m s) as [[a|e] s']; auto.
Qed.
End MonadLemmas.

(** ** How far a run goes

    [costs mu n m]: a run of [m] lowers the measure [mu] of the state by
    at most [n].  With [mu] the number of fault bits left, one per library
    call that may fail, it bounds the calls a handler makes before it
    settles.  The rules follow the shape of the program: a bind adds the
    costs of its two parts, a branch costs what its dearest arm costs. *)
Section Costs.
Context {S E : Type} (mu : S -> nat).

Definition costs {A} (n : nat) (m : JsM S E A) : Prop :=
  forall s, mu s <= mu (final m s) + n.

Lemma costs_ret {A} n (a : A) : costs n (mret a).
Proof. intros s. unfold final. simpl. lia. Qed.

Lemma costs_throw {A} n (e : E) : costs n (throw e : JsM S E A).
Proof. intros s. unfold final. simpl. lia. Qed.

Lemma costs_gets {A} n (f : S -> A) : costs n (gets f).
Proof. intros s. unfold final. simpl. lia. Qed.

Lemma costs_modify n (f : S -> S) : (forall s, mu s <= mu (f s)) -> costs n (modify f).
Proof. intros Hf s. unfold final. simpl. specialize (Hf s). lia. Qed.

Lemma costs_weaken {A} n K (m : JsM S E A) : costs n m -> n <= K -> costs K m.
Proof. intros Hm HK s. specialize (Hm s). lia. Qed.

(** A bind within a budget [K]: what [m] costs, then the rest of [K]. *)
Lemma costs_bind {A B} n K (m : JsM S E A) (k : A -> JsM S E B) :
  costs n m -> (forall a, costs (K - n) (k a)) -> n <= K -> costs K (m ≫= k).
Proof.
  intros Hm Hk HK s. specialize (Hm s). unfold final in *. rewrite run_bind.
  destruct (m s) as [[a|e] s']; simpl in *; [specialize (Hk a s'); unfold final in Hk|]; lia.
Qed.

Lemma costs_attempt {A} n (m : JsM S E A) : costs n m -> costs n (attempt m).
Proof. intros Hm s. specialize (Hm s). unfold final, attempt in *. by destruct (m s) as [[] ?]. Qed.

Lemma costs_catch {A} n K (m : JsM S E A) (h : E -> JsM S E A) :
  costs n m -> (forall e, costs (K - n) (h e)) -> n <= K -> costs K (catch m h).
Proof.
  intros Hm Hh HK s. specialize (Hm s). unfold final, catch in *.
  destruct (m s) as [[a|e] s']; simpl in *; [|specialize (Hh e s'); unfold final in Hh]; lia.
Qed.
End Costs.

Create HintDb costs discriminated.
#[export] Hint Resolve costs_attempt : costs.

(** Run [costs_run] on a goal [costs mu K m]: split the binds, take the
    cost of a call from the [costs] database, and case on the branches. *)
Ltac costs_run :=
  repeat match goal with
  | |- costs _ _ (_ ≫= _) =>
      first [ eapply costs_bind; [solve [eauto 10 with costs] | intros ? | cbn; lia]
            | case_match ]
  | |- costs _ _ (catch _ _) =>
      eapply costs_catch; [solve [eauto 10 with costs] | intros ? | cbn; lia]
  | |- costs _ _ (mret _) => apply costs_ret
  | |- costs _ _ (throw _) => apply costs_throw
  | |- costs _ _ (gets _) => apply costs_gets
  | |- costs _ _ _ => eapply costs_weaken; [solve [eauto 10 with costs] | cbn; lia]
  | |- costs _ _ _ => case_match
  end.

(** ** Shared lemmas on lists and maps *)

(** [Array.prototype.filter] with [!==], which is what Mongoose's
    [MongooseArray.pull] does on an array of ObjectIds. *)
Definition list_pull `{EqDecision A} (x : A) (l : list A) : list A :=
  filter (fun y => y <> x) l.

Lemma elem_of_list_pull `{EqDecision A} (x y : A) (l : list A) :
  y ∈ list_pull x l <-> y ∈ l /\ y <> x.
Proof. unfold list_pull. rewrite list_elem_of_filter. tauto. Qed.

Lemma list_pull_notin `{EqDecision A} (x : A) (l : list A) :
  x ∉ l -> list_pull x l = l.
Proof.
  unfold list_pull. induction l as [|y l IH]; intros Hx; [done|].
  rewrite filter_cons_True; [|set_solver]. rewrite IH; set_solver.
Qed.

(** stdpp makes [String.append] opaque to [simpl]; these are its two
    equations. *)
Lemma string_app_nil r : ("" ++ r)%string = r.
Proof. reflexivity. Qed.

Lemma string_app_cons a s r : (String a s ++ r)%string = String a (s ++ r)%string.
Proof. reflexivity. Qed.

Create HintDb js discriminated.
#[export] Hint Resolve elem_of_list_pull : js.
