(* ===== verification/ObjectId.v ===== *)
(** * ObjectId: document identities and their string form

    Mongoose documents carry a BSON ObjectId, a 12-byte (96-bit) value.
    The controllers compare ids in their string form
    ([place.creator.toString() !== req.userData.userId],
    [place.creator.id !== req.userData.userId]) and pass URL parameters,
    which are strings, to [findById], which casts them back to ObjectIds.
    This file models the 96-bit value as an [N] below [2^96], its
    [toHexString] (24 lower-case hex digits) and the cast of a string
    (exactly 24 hex digits of either case; anything else is a CastError,
    here [None]).  The BSON library is not under src/: these definitions
    are modelled from its documented behaviour.  The theorem: the cast of
    the string form gives the id back, which [findById(doc.id)] and the
    string comparisons of ids rely on. *)

From stdpp Require Import base strings list.
From Stdlib Require Import NArith Ascii String Lia.
From S2P Require Import Prelude.

Local Open Scope N_scope.

(** An ObjectId is a 96-bit unsigned value. *)
Definition oid_bound : N := 2 ^ 96.

Definition hex_digit (d : N) : ascii :=
  match d with
  | 0 => "0" | 1 => "1" | 2 => "2" | 3 => "3" | 4 => "4" | 5 => "5"
  | 6 => "6" | 7 => "7" | 8 => "8" | 9 => "9" | 10 => "a" | 11 => "b"
  | 12 => "c" | 13 => "d" | 14 => "e" | _ => "f"
  end%char.

(** The value of a hex digit, either case ([/^[0-9a-fA-F]$/]). *)
Definition hex_value (c : ascii) : option N :=
  let n := N.of_nat (nat_of_ascii c) in
  if (48 <=? n) && (n <=? 57) then Some (n - 48)
  else if (97 <=? n) && (n <=? 102) then Some (n - 87)
  else if (65 <=? n) && (n <=? 70) then Some (n - 55)
  else None.

(** [k] hex digits of [n], most significant first, prepended to [acc]. *)
Fixpoint hex_digits (k : nat) (n : N) (acc : string) : string :=
  match k with
  | O => acc
  | S k' => hex_digits k' (n / 16) (String (hex_digit (n mod 16)) acc)
  end.

(** [ObjectId.prototype.toHexString]: always 24 characters. *)
Definition oid_to_string (id : N) : string := hex_digits 24 id "".

Fixpoint parse_hex (s : string) (acc : N) : option N :=
  match s with
  | EmptyString => Some acc
  | String c s' =>
      match hex_value c with
      | Some d => parse_hex s' (acc * 16 + d)
      | None => None
      end
  end.

(** Mongoose's cast of a string to an ObjectId. *)
Definition oid_of_string (s : string) : option N :=
  if Nat.eqb (String.length s) 24 then parse_hex s 0 else None.

(** ** Lemmas *)

Lemma hex_value_digit d : d < 16 -> hex_value (hex_digit d) = Some d.
Proof.
  intros Hd.
  assert (d = 0 \/ d = 1 \/ d = 2 \/ d = 3 \/ d = 4 \/ d = 5 \/ d = 6 \/
          d = 7 \/ d = 8 \/ d = 9 \/ d = 10 \/ d = 11 \/ d = 12 \/ d = 13 \/
          d = 14 \/ d = 15) as Hcases by lia.
  repeat destruct Hcases as [->|Hcases]; [..|subst]; reflexivity.
Qed.

Lemma length_hex_digits k n acc :
  String.length (hex_digits k n acc) = (k + String.length acc)%nat.
Proof.
  revert n acc; induction k as [|k IH]; intros n acc; [done|].
  simpl. rewrite IH. simpl. lia.
Qed.

Lemma parse_hex_digits k n acc a :
  parse_hex (hex_digits k n acc) a =
  parse_hex acc (a * 16 ^ N.of_nat k + n mod 16 ^ N.of_nat k).
Proof.
  revert n acc a; induction k as [|k IH]; intros n acc a.
  - simpl. f_equal. rewrite N.mod_1_r. lia.
  - simpl hex_digits. rewrite IH. simpl parse_hex.
    rewrite hex_value_digit by (apply N.mod_lt; lia).
    f_equal. rewrite Nat2N.inj_succ, N.pow_succ_r'.
    pose proof (N.Div0.mod_mul_r n 16 (16 ^ N.of_nat k)) as Hm.
    rewrite Hm. lia.
Qed.

Lemma oid_to_string_length id : String.length (oid_to_string id) = 24%nat.
Proof. unfold oid_to_string. rewrite length_hex_digits. reflexivity. Qed.

(** Parsing the string form gives the id modulo [2^96]. *)
Lemma oid_parse_print id : oid_of_string (oid_to_string id) = Some (id mod oid_bound).
Proof.
  unfold oid_of_string. rewrite oid_to_string_length. simpl Nat.eqb.
  unfold oid_to_string. rewrite parse_hex_digits. simpl. f_equal.
Qed.

(** C35 (oid_of_to_string): casting the string form of an ObjectId back gives the same id:
    [findById(doc.id)] finds by exactly [doc._id]. *)
Theorem oid_of_to_string id :
  id < oid_bound -> oid_of_string (oid_to_string id) = Some id.
Proof. intros Hid. rewrite oid_parse_print. f_equal. by apply N.mod_small. Qed.

Lemma oid_of_to_string_witness :
  oid_of_string (oid_to_string 3054) = Some 3054.
Proof. apply oid_of_to_string. unfold oid_bound. lia. Defined.
