(* ===== verification/Http.v ===== *)
(** * Http: JSON bodies, exceptions and handler replies

    - [json]: the JSON values the handlers pass to [res.json].
    - [js_error]: what a handler can throw or pass to [next]: an
      [HttpError] (models/http-error.js, not under src/, modelled from the
      spec: a message and a numeric [code]), a [TypeError] raised by the
      engine (property access on [null]/[undefined], calling a class
      without [new]), and the rejection of a library call (Mongoose,
      bcrypt, jsonwebtoken, axios), which carries a message and possibly a
      [code] property.
    - [reply]: how an express handler ends: [res.status(s).json(b)] or
      [return next(err)]. *)

From stdpp Require Import base strings list.
From Stdlib Require Import ZArith String.
From S2P Require Import Prelude.

#[warnings="-register-all"]
Inductive json : Type :=
| JNull
| JBool (b : bool)
| JNum (z : Z)
| JStr (s : string)
| JArr (l : list json)
| JObj (fields : list (string * json)).

(** Does a key occur anywhere in a JSON value (at any depth)? *)
Fixpoint json_has_key (k : string) (j : json) : bool :=
  match j with
  | JArr l => existsb (json_has_key k) l
  | JObj fs =>
      existsb (fun kv => String.eqb (fst kv) k || json_has_key k (snd kv)) fs
  | _ => false
  end.

(** The [code] property of a thrown value, when it has one. *)
Inductive js_code : Type :=
| CodeNum (z : Z)
| CodeStr (s : string).

Inductive js_error : Type :=
| HttpErr (message : string) (code : Z)
| TypeErr (message : string)
| LibErr (message : string) (code : option js_code).

(** [err.code] *)
Definition err_code (e : js_error) : option js_code :=
  match e with
  | HttpErr _ c => Some (CodeNum c)
  | TypeErr _ => None
  | LibErr _ c => c
  end.

(** [err.message] *)
Definition err_message (e : js_error) : string :=
  match e with
  | HttpErr m _ | TypeErr m | LibErr m _ => m
  end.

(** How a handler finishes: a response, or [next(err)]. *)
Inductive reply : Type :=
| Reply (status : Z) (body : json)
| Next (err : js_error).

Lemma json_has_key_obj k fs :
  json_has_key k (JObj fs) = true <->
  exists k' v, (k', v) ∈ fs /\ (k' = k \/ json_has_key k v = true).
Proof.
  simpl. rewrite existsb_exists. split.
  - intros [[k' v] [Hin Hk]]. exists k', v. rewrite list_elem_of_In.
    split; [done|].
    apply orb_true_iff in Hk as [Hk|Hk]; [left; by apply String.eqb_eq|by right].
  - intros (k' & v & Hin & Hk). exists (k', v). rewrite <- list_elem_of_In.
    split; [done|]. apply orb_true_iff. simpl.
    destruct Hk as [->|Hk]; [left; apply String.eqb_refl|by right].
Qed.

(** ** The request object as the handlers see it *)

Record Request := mkRequest {
  req_params : list (string * string);   (* req.params *)
  req_body : list (string * string);     (* req.body, parsed by bodyParser.json *)
  req_file : option string;              (* req.file.path, set by fileUpload *)
  req_userId : option string;            (* req.userData.userId, set by check-auth *)
  req_errors : list string               (* validationResult(req): failed fields *)
}.

Definition lookup_field (k : string) (l : list (string * string)) : option string :=
  snd <$> find (fun kv => String.eqb (fst kv) k) l.

(** [req.params.k]: a matched route always binds its parameters. *)
Definition param (req : Request) (k : string) : string :=
  default "" (lookup_field k (req_params req)).

(** [req.body.k], [undefined] when absent. *)
Definition body_field (req : Request) (k : string) : option string :=
  lookup_field k (req_body req).

(** A body field used as a document field: an absent one is stored as the
    empty string, which Mongoose's [required] validator treats the same. *)
Definition body_str (req : Request) (k : string) : string :=
  default "" (body_field req k).
