(* ===== verification/Store.v ===== *)
(** * Store: the Mongoose collections, sessions and transactions

    The schemas ([models/place.js], [models/user.js]) are not under src/;
    [Place] and [User] follow the data model of the spec (§3).  The
    database [Db] holds the two collections as finite maps keyed by the
    ObjectId.  The state a request runs against is a [World]:
    - [w_db]: the committed documents;
    - [w_next]: the ObjectId generator (a counter: what matters of BSON's
      timestamp/random/counter scheme is that fresh ids are unique);
    - [w_faults]: the fault oracle: every awaited library call consumes
      one bit and rejects when it is [true] (network or server errors,
      hashing or signing failures); the empty list means no faults, so
      theorems quantified over all oracles cover every failure pattern;
    - [w_txn]: the writes made inside the session's open transaction,
      which reach [w_db] only at [commitTransaction];
    - [w_files]: the uploaded image files on disk;
    - [w_now]: the clock, in seconds, used by token expiry.

    Mongoose's [save] sends the changed paths ([$set], [$push],
    [$pullAll]); in this sequential model the document was read in the
    same request, so writing the whole document is the same update.  *)

From stdpp Require Import base gmap strings list.
From Stdlib Require Import ZArith NArith String.
From S2P Require Import Prelude ObjectId Http.

(** ** Documents *)

(** The coordinates returned by the geocoding service; the program does
    no arithmetic on them, so they are carried as opaque numbers. *)
Record Coords := mkCoords { lat : Z; lng : Z }.

Record Place := mkPlace {
  place_id : N;
  title : string;
  description : string;
  address : string;
  location : Coords;
  place_image : string;
  creator : N
}.

Record User := mkUser {
  user_id : N;
  name : string;
  email : string;
  user_image : string;
  password : string;
  places : list N
}.

Record Db := mkDb {
  db_users : gmap N User;
  db_places : gmap N Place
}.

(** A write inside a transaction, applied at commit. *)
Inductive write : Type :=
| WSavePlace (p : Place)
| WRemovePlace (id : N)
| WSaveUser (u : User).

Definition apply_write (d : Db) (wr : write) : Db :=
  match wr with
  | WSavePlace p => mkDb (db_users d) (<[place_id p := p]> (db_places d))
  | WRemovePlace id => mkDb (db_users d) (delete id (db_places d))
  | WSaveUser u => mkDb (<[user_id u := u]> (db_users d)) (db_places d)
  end.

Definition apply_writes (d : Db) (ws : list write) : Db := foldl apply_write d ws.
Arguments apply_writes : simpl never.

Record World := mkWorld {
  w_db : Db;
  w_next : N;
  w_faults : list bool;
  w_txn : option (list write);
  w_files : gset string;
  w_now : Z
}.

Abbreviation M := (JsM World js_error).

(** ** Updating one component of the world *)

Definition set_db (d : Db) (w : World) : World :=
  mkWorld d (w_next w) (w_faults w) (w_txn w) (w_files w) (w_now w).
Definition set_txn (t : option (list write)) (w : World) : World :=
  mkWorld (w_db w) (w_next w) (w_faults w) t (w_files w) (w_now w).
Definition set_files (f : gset string) (w : World) : World :=
  mkWorld (w_db w) (w_next w) (w_faults w) (w_txn w) f (w_now w).

(** Consume one bit of the fault oracle. *)
Definition head_fault (w : World) : bool := hd false (w_faults w).
Definition drop_fault (w : World) : World :=
  mkWorld (w_db w) (w_next w) (tail (w_faults w)) (w_txn w) (w_files w) (w_now w).

(** ** Primitives *)

(** An awaited library call: rejects with a library error when the oracle
    says so, and otherwise proceeds. *)
Definition io (msg : string) : M unit := fun w =>
  if head_fault w then (Throw (LibErr msg None), drop_fault w)
  else (Ok tt, drop_fault w).

(** [new Model({...})] draws a fresh [_id]. *)
Definition new_oid : M N := fun w =>
  (Ok (w_next w),
   mkWorld (w_db w) (N.succ (w_next w)) (w_faults w) (w_txn w) (w_files w) (w_now w)).

(** Mongoose's cast of a string id, a CastError when it is not one. *)
Definition cast_oid (s : string) : M N :=
  match oid_of_string s with
  | Some k => mret k
  | None => throw (LibErr "CastError" None)
  end.

(** [Place.findById(id)] *)
Definition Place_findById (id : string) : M (option Place) :=
  io "Place.findById";;
  k ← cast_oid id;
  gets (fun w => db_places (w_db w) !! k).

(** [Place.findById(id).populate('creator')]: a second query resolves the
    creator when a place was found; a dangling creator populates to [null]. *)
Definition Place_findById_populate (id : string) : M (option (Place * option User)) :=
  op ← Place_findById id;
  match op with
  | None => mret None
  | Some p =>
      io "populate";;
      ou ← gets (fun w => db_users (w_db w) !! creator p);
      mret (Some (p, ou))
  end.

(** [Place.find({ creator: userId })], in the collection's natural order. *)
Definition Place_find_creator (uid : string) : M (list Place) :=
  io "Place.find";;
  k ← cast_oid uid;
  gets (fun w => filter (fun p => creator p = k) (map_to_list (db_places (w_db w))).*2).

(** [User.findById(id)] *)
Definition User_findById (id : string) : M (option User) :=
  io "User.findById";;
  k ← cast_oid id;
  gets (fun w => db_users (w_db w) !! k).

(** [User.find({})] *)
Definition User_find_all : M (list User) :=
  io "User.find";;
  gets (fun w => (map_to_list (db_users (w_db w))).*2).

(** [User.findOne({ email: e })]: the first document with that email. *)
Definition find_email (e : string) (d : Db) : option User :=
  head (filter (fun u => email u = e) (map_to_list (db_users d)).*2).

Definition User_findOne_email (e : string) : M (option User) :=
  io "User.findOne";;
  gets (fun w => find_email e (w_db w)).

(** A write: inside the open transaction when [sess] is passed and one is
    open, straight to the collection otherwise. *)
Definition do_write (sess : bool) (wr : write) : M unit :=
  modify (fun w =>
    match sess, w_txn w with
    | true, Some ws => set_txn (Some (ws ++ [wr])) w
    | _, _ => set_db (apply_write (w_db w) wr) w
    end).

(** [doc.save({ session })] / [doc.save()] / [doc.remove({ session })] *)
Definition save_place (sess : bool) (p : Place) : M unit :=
  io "Place.save";; do_write sess (WSavePlace p).
Definition remove_place (sess : bool) (p : Place) : M unit :=
  io "Place.remove";; do_write sess (WRemovePlace (place_id p)).
Definition save_user (sess : bool) (u : User) : M unit :=
  io "User.save";; do_write sess (WSaveUser u).

(** [await mongoose.startSession(); sess.startTransaction()] *)
Definition start_transaction : M unit :=
  io "startSession";; modify (set_txn (Some [])).

(** [await sess.commitTransaction()]: all the transaction's writes reach
    the collections together, or none does. *)
Definition commit_transaction : M unit :=
  io "commitTransaction";;
  modify (fun w =>
    match w_txn w with
    | Some ws => set_txn None (set_db (apply_writes (w_db w) ws) w)
    | None => w
    end).

(** The end of a request: a transaction left open (its request threw
    before [commitTransaction]) is never committed; the server aborts it. *)
Definition end_request (w : World) : World := set_txn None w.

(** [fs.unlink(path, cb)]: removes the file; a missing file is an error
    the callback only logs. *)
Definition fs_unlink (path : string) : M unit :=
  modify (fun w => set_files (w_files w ∖ {[path]}) w).

Definition set_places (u : User) (l : list N) : User :=
  mkUser (user_id u) (name u) (email u) (user_image u) (password u) l.

(** ** Serialization: [doc.toObject({ getters: true })] and [toJSON()]

    With [getters: true] the virtual [id] (the string form of [_id]) is
    added; without it (what [res.json] does with a bare document) it is
    not.  A query with the projection ['-password'] leaves the password
    out.  (Mongoose's version key [__v] is not modelled.) *)

Definition oid_json (k : N) : json := JStr (oid_to_string k).

Definition coords_json (c : Coords) : json :=
  JObj [("lat", JNum (lat c)); ("lng", JNum (lng c))].

Definition place_json (getters : bool) (p : Place) : json :=
  JObj ([("location", coords_json (location p));
         ("_id", oid_json (place_id p));
         ("title", JStr (title p));
         ("description", JStr (description p));
         ("address", JStr (address p));
         ("image", JStr (place_image p));
         ("creator", oid_json (creator p))]
        ++ (if getters then [("id", oid_json (place_id p))] else [])).

Definition user_json (with_password : bool) (u : User) : json :=
  JObj ([("_id", oid_json (user_id u));
         ("name", JStr (name u));
         ("email", JStr (email u));
         ("image", JStr (user_image u))]
        ++ (if with_password then [("password", JStr (password u))] else [])
        ++ [("places", JArr (map oid_json (places u)));
            ("id", oid_json (user_id u))]).

(** ** The consistency invariant of the two collections (spec §3)

    Every place is stored under its own id, its creator exists and lists
    it; every user is stored under its own id and every place it lists
    exists and has it as creator; no two users share an email. *)

Definition place_ok (d : Db) (k : N) (p : Place) : Prop :=
  place_id p = k /\
  match db_users d !! creator p with
  | Some u => k ∈ places u
  | None => False
  end.

(** Every id of [l] is a place of [ps] created by [k]. *)
Definition refs_ok (ps : gmap N Place) (k : N) (l : list N) : Prop :=
  Forall (fun pid => match ps !! pid with
                     | Some p => creator p = k
                     | None => False
                     end) l.

Definition user_ok (d : Db) (k : N) (u : User) : Prop :=
  user_id u = k /\ refs_ok (db_places d) k (places u).

Definition emails_unique (d : Db) : Prop :=
  map_Forall (fun k1 u1 =>
    map_Forall (fun k2 u2 => email u1 = email u2 -> k1 = k2) (db_users d))
    (db_users d).

Definition db_wf (d : Db) : Prop :=
  map_Forall (place_ok d) (db_places d) /\
  map_Forall (user_ok d) (db_users d) /\
  emails_unique d.

(** Every id in use was drawn from the generator before [n]. *)
Definition ids_below (n : N) (d : Db) : Prop :=
  map_Forall (fun k _ => (k < n)%N) (db_users d) /\
  map_Forall (fun k _ => (k < n)%N) (db_places d).

(** Between requests: the collections are consistent, the generator is
    fresh, and no transaction is open. *)
Definition world_wf (w : World) : Prop :=
  db_wf (w_db w) /\ ids_below (w_next w) (w_db w) /\ w_txn w = None.

#[export] Instance place_ok_dec d k p : Decision (place_ok d k p).
Proof. unfold place_ok. destruct (db_users d !! creator p); apply _. Defined.

#[export] Instance refs_ok_dec ps k l : Decision (refs_ok ps k l).
Proof.
  unfold refs_ok. apply Forall_dec.
  intros pid. destruct (ps !! pid); apply _.
Defined.

#[export] Instance user_ok_dec d k u : Decision (user_ok d k u).
Proof. unfold user_ok. apply _. Defined.

#[export] Instance db_wf_dec d : Decision (db_wf d).
Proof. unfold db_wf, emails_unique. apply _. Defined.

#[export] Instance world_wf_dec w : Decision (world_wf w).
Proof. unfold world_wf, ids_below. apply _. Defined.

(** ** Symbolic execution

    [js_red] runs the monad and the primitives on a symbolic world; what
    remains are the tests the code makes (oracle bits, casts, lookups,
    comparisons), which [js_cases] splits. *)

Ltac js_red :=
  cbv beta iota zeta delta [mbind mret JsM_bind JsM_ret js_bind js_ret attempt
    catch throw gets modify io do_write set_txn set_db set_files drop_fault
    head_fault new_oid cast_oid final outcome end_request] in *;
  cbn [w_db w_next w_faults w_txn w_files w_now fst snd hd tail] in *.

Ltac js_cases := repeat (case_match; js_red; simplify_eq/=; try done).

(** Run with the hypotheses that fix the tests of the code. *)
Ltac js_rewrite :=
  js_red; repeat (match goal with H : _ = _ |- _ => progress rewrite H end; js_red).

(** ** Library calls

    [pending w] is the number of fault bits left: every library call that
    may fail ([io]) consumes one.  The lemmas give each call of the store
    its cost in such calls, for [costs_run]. *)

Definition pending (w : World) : nat := List.length (w_faults w).

Lemma io_costs msg : costs pending 1 (io msg).
Proof.
  intros w. unfold final, io, pending, head_fault.
  destruct (hd false (w_faults w)); simpl; destruct (w_faults w); simpl; lia.
Qed.

Lemma new_oid_costs : costs pending 0 new_oid.
Proof. intros w. unfold final, pending. simpl. lia. Qed.

(** A [modify] that keeps the oracle costs nothing. *)
Lemma modify_costs (f : World -> World) :
  (forall w, w_faults (f w) = w_faults w) -> costs pending 0 (modify f : M unit).
Proof. intros Hf. apply costs_modify. intros w. unfold pending. by rewrite Hf. Qed.

Lemma do_write_costs sess wr : costs pending 0 (do_write sess wr).
Proof. apply modify_costs. intros w. by destruct sess, (w_txn w). Qed.

Lemma fs_unlink_costs path : costs pending 0 (fs_unlink path).
Proof. by apply modify_costs. Qed.

#[export] Hint Resolve io_costs new_oid_costs do_write_costs fs_unlink_costs : costs.

Lemma cast_oid_costs s : costs pending 0 (cast_oid s).
Proof. unfold cast_oid. costs_run. Qed.
#[export] Hint Resolve cast_oid_costs : costs.

Lemma Place_findById_costs id : costs pending 1 (Place_findById id).
Proof. unfold Place_findById. costs_run. Qed.
#[export] Hint Resolve Place_findById_costs : costs.

Lemma Place_findById_populate_costs id : costs pending 2 (Place_findById_populate id).
Proof. unfold Place_findById_populate. costs_run. Qed.

Lemma Place_find_creator_costs uid : costs pending 1 (Place_find_creator uid).
Proof. unfold Place_find_creator. costs_run. Qed.

Lemma User_findById_costs id : costs pending 1 (User_findById id).
Proof. unfold User_findById. costs_run. Qed.

Lemma User_find_all_costs : costs pending 1 User_find_all.
Proof. unfold User_find_all. costs_run. Qed.

Lemma User_findOne_email_costs e : costs pending 1 (User_findOne_email e).
Proof. unfold User_findOne_email. costs_run. Qed.

Lemma save_place_costs sess p : costs pending 1 (save_place sess p).
Proof. unfold save_place. costs_run. Qed.

Lemma remove_place_costs sess p : costs pending 1 (remove_place sess p).
Proof. unfold remove_place. costs_run. Qed.

Lemma save_user_costs sess u : costs pending 1 (save_user sess u).
Proof. unfold save_user. costs_run. Qed.

Lemma start_transaction_costs : costs pending 1 start_transaction.
Proof.
  eapply costs_bind; [apply io_costs| |done]. intros _. by apply modify_costs.
Qed.

Lemma commit_transaction_costs : costs pending 1 commit_transaction.
Proof.
  eapply costs_bind; [apply io_costs| |done]. intros _.
  apply modify_costs. intros w. by destruct (w_txn w).
Qed.

#[export] Hint Resolve Place_findById_populate_costs Place_find_creator_costs
  User_findById_costs User_find_all_costs User_findOne_email_costs save_place_costs
  remove_place_costs save_user_costs start_transaction_costs commit_transaction_costs : costs.

(** ** Lemmas on the generator bound *)

Lemma ids_below_mono n n' d : (n <= n')%N -> ids_below n d -> ids_below n' d.
Proof.
  intros Hn [Hu Hp]. split; eapply map_Forall_impl; eauto; simpl; lia.
Qed.

(** ** Lemmas on the consistency invariant *)

Lemma refs_ok_lookup ps k l pid :
  refs_ok ps k l -> pid ∈ l -> exists p, ps !! pid = Some p /\ creator p = k.
Proof.
  unfold refs_ok. rewrite Forall_forall. intros Hl Hin.
  specialize (Hl pid Hin). destruct (ps !! pid) as [p|]; [eauto|done].
Qed.

(** A reference list stays valid in a new collection that still holds
    every place it refers to. *)
Lemma refs_ok_impl ps ps' k l l' :
  refs_ok ps k l ->
  (forall pid, pid ∈ l' -> pid ∈ l) ->
  (forall pid p, pid ∈ l' -> ps !! pid = Some p -> creator p = k ->
     exists p', ps' !! pid = Some p' /\ creator p' = k) ->
  refs_ok ps' k l'.
Proof.
  intros Hl Hsub Hps. unfold refs_ok. apply Forall_forall. intros pid Hin.
  destruct (refs_ok_lookup _ _ _ _ Hl (Hsub _ Hin)) as (p & Hp & Hc).
  destruct (Hps pid p Hin Hp Hc) as (p' & -> & Hc'). exact Hc'.
Qed.

(** Overwriting a user with a document of the same email keeps emails
    unique. *)
Lemma emails_unique_overwrite d ps k u u' :
  db_users d !! k = Some u -> email u' = email u -> emails_unique d ->
  emails_unique (mkDb (<[k := u']> (db_users d)) ps).
Proof.
  intros Hk He Hd k1 u1 H1 k2 u2 H2 He12. simpl in *.
  apply lookup_insert_Some in H1, H2.
  destruct H1 as [[<- <-]|[Hne1 H1]], H2 as [[<- <-]|[Hne2 H2]]; [done|..].
  - apply (Hd k u Hk k2 u2 H2). congruence.
  - apply (Hd k1 u1 H1 k u Hk). congruence.
  - exact (Hd k1 u1 H1 k2 u2 H2 He12).
Qed.

Lemma ids_below_insert_place n d p :
  ids_below n d -> (place_id p < n)%N ->
  ids_below n (mkDb (db_users d) (<[place_id p := p]> (db_places d))).
Proof.
  intros [Hu Hp] Hlt. split; [done|]. by apply map_Forall_insert_2.
Qed.

Lemma ids_below_fresh_place n d : ids_below n d -> db_places d !! n = None.
Proof.
  intros [_ Hbp]. destruct (db_places d !! n) as [p|] eqn:Hn; [|done].
  pose proof (Hbp _ _ Hn) as Hlt. simpl in Hlt. lia.
Qed.

(** ** A small database used by the examples *)

Definition demo_user : User :=
  mkUser 0 "Ann" "ann@example.com" "uploads/images/ann.png" "$2a$secret1" [1%N].
Definition demo_place : Place :=
  mkPlace 1 "Tower" "A tall tower" "1 Main St" (mkCoords 40 (-74))
          "uploads/images/tower.png" 0.
Definition demo_world : World :=
  mkWorld (mkDb {[0%N := demo_user]} {[1%N := demo_place]}) 2 [] None
          {["uploads/images/tower.png"]} 0.

(** ** [findOne] by email *)

Lemma find_email_Some e d u :
  find_email e d = Some u -> exists k, db_users d !! k = Some u /\ email u = e.
Proof.
  unfold find_email. intros Hh.
  assert (u ∈ filter (fun u => email u = e) (map_to_list (db_users d)).*2) as Hin.
  { destruct (filter _ _) as [|x l]; simplify_eq/=. set_solver. }
  apply list_elem_of_filter in Hin as [He Hin].
  apply list_elem_of_fmap in Hin as ([k u'] & -> & Hin).
  apply elem_of_map_to_list in Hin. eauto.
Qed.

Lemma find_email_None e d :
  find_email e d = None -> forall k u, db_users d !! k = Some u -> email u <> e.
Proof.
  unfold find_email. intros Hh k u Hk He.
  destruct (filter _ _) as [|x l] eqn:Hf; [|done].
  eapply (filter_nil_not_elem_of _ _ u Hf He).
  apply list_elem_of_fmap. exists (k, u). split; [done|].
  by apply elem_of_map_to_list.
Qed.

(** Adding a fresh user with no places and an unused email keeps the
    collections consistent. *)
Lemma db_wf_new_user d u :
  db_wf d -> db_users d !! user_id u = None -> places u = [] ->
  (forall k u', db_users d !! k = Some u' -> email u' <> email u) ->
  db_wf (apply_write d (WSaveUser u)).
Proof.
  intros (Hp & Hu & He) Hfresh Hpl Hem. simpl. split; [|split].
  - intros k p Hk. destruct (Hp k p Hk) as [Hid Hown]. split; [done|]. simpl.
    destruct (decide (creator p = user_id u)) as [Heq|Hne].
    + rewrite Heq, Hfresh in Hown. done.
    + by rewrite lookup_insert_ne.
  - intros k u2 Hk; simpl in Hk. apply lookup_insert_Some in Hk as [[<- <-]|[Hne Hk]].
    + split; [done|]. rewrite Hpl. constructor.
    + exact (Hu k u2 Hk).
  - intros k1 u1 H1 k2 u2 H2 He12; simpl in H1, H2.
    apply lookup_insert_Some in H1 as [[<- <-]|[Hne1 H1]];
      apply lookup_insert_Some in H2 as [[<- <-]|[Hne2 H2]]; [done|..].
    + by destruct (Hem _ _ H2).
    + by destruct (Hem _ _ H1).
    + exact (He k1 u1 H1 k2 u2 H2 He12).
Qed.

Lemma ids_below_new_user n d u :
  ids_below n d -> user_id u = n ->
  ids_below (N.succ n) (apply_write d (WSaveUser u)).
Proof.
  intros [Hbu Hbp] Hid. split; simpl.
  - apply map_Forall_insert_2; [simpl; lia|].
    eapply map_Forall_impl; [exact Hbu|]. simpl. lia.
  - eapply map_Forall_impl; [exact Hbp|]. simpl. lia.
Qed.

Lemma ids_below_fresh_user n d : ids_below n d -> db_users d !! n = None.
Proof.
  intros [Hbu _]. destruct (db_users d !! n) as [u|] eqn:Hn; [|done].
  pose proof (Hbu _ _ Hn) as Hlt. simpl in Hlt. lia.
Qed.

(** A query [Model.find(filter)] on a collection stored under the
    documents' own ids returns each matching document once. *)
Lemma find_places_spec (P : Place -> Prop) `{!forall p, Decision (P p)} (ps : gmap N Place) :
  map_Forall (fun k p => place_id p = k) ps ->
  NoDup (place_id <$> filter P (map_to_list ps).*2) /\
  (forall p, p ∈ filter P (map_to_list ps).*2 <-> P p /\ ps !! place_id p = Some p).
Proof.
  intros Hm. split.
  - eapply sublist_NoDup; [|apply fmap_sublist, sublist_filter].
    rewrite <-list_fmap_compose.
    erewrite list_fmap_ext; [apply NoDup_fst_map_to_list|].
    intros i [k p] Hi%list_elem_of_lookup_2. apply elem_of_map_to_list, Hm in Hi. done.
  - intros p. rewrite list_elem_of_filter, list_elem_of_fmap. split.
    + intros [HP [[k q] [-> Hkq%elem_of_map_to_list]]]. simpl. rewrite (Hm _ _ Hkq). done.
    + intros [HP Hp]. split; [done|]. exists (place_id p, p). split; [done|].
      by apply elem_of_map_to_list.
Qed.

Lemma find_email_None_intro e d :
  (forall k u, db_users d !! k = Some u -> email u <> e) -> find_email e d = None.
Proof.
  unfold find_email. intros Hn. destruct (filter _ _) as [|x l] eqn:Hf; [done|].
  assert (x ∈ filter (fun u => email u = e) (map_to_list (db_users d)).*2) as Hin
    by (rewrite Hf; set_solver).
  apply list_elem_of_filter in Hin as [He Hin].
  apply list_elem_of_fmap in Hin as ([k u] & -> & Hin%elem_of_map_to_list).
  by destruct (Hn k u Hin).
Qed.

(** Saving a user under another email does not make an email findable. *)
Lemma find_email_save_other e d u :
  find_email e d = None -> email u <> e -> find_email e (apply_write d (WSaveUser u)) = None.
Proof.
  intros Hn Hu. apply find_email_None_intro. simpl. intros k u' Hk.
  apply lookup_insert_Some in Hk as [[_ <-]|[_ Hk]]; [done|].
  by eapply find_email_None.
Qed.

(** ** Stored files and the documents that name them *)

(** [f] is the [image] of a stored place or user. *)
Definition image_of (d : Db) (f : string) : Prop :=
  (exists k p, db_places d !! k = Some p /\ place_image p = f) \/
  (exists k u, db_users d !! k = Some u /\ user_image u = f).

(** Every file on disk, except possibly the upload [file] of the request
    under way, is the image of a stored document. *)
Definition no_orphans (file : option string) (w : World) : Prop :=
  forall f, f ∈ w_files w -> file = Some f \/ image_of (w_db w) f.

Lemma image_of_save_user d u f :
  (forall u0, db_users d !! user_id u = Some u0 -> user_image u0 = user_image u) ->
  image_of d f \/ f = user_image u -> image_of (apply_write d (WSaveUser u)) f.
Proof.
  unfold image_of. intros Hsame [[(k & p & Hp & Hf)|(k & u' & Hu & Hf)] | ->]; simpl.
  - left. eauto.
  - right. destruct (decide (k = user_id u)) as [->|Hne].
    + exists (user_id u), u. rewrite (Hsame _ Hu) in Hf. by simplify_map_eq.
    + exists k, u'. by simplify_map_eq.
  - right. exists (user_id u), u. by simplify_map_eq.
Qed.

Lemma image_of_save_place d p f :
  (forall p0, db_places d !! place_id p = Some p0 -> place_image p0 = place_image p) ->
  image_of d f \/ f = place_image p -> image_of (apply_write d (WSavePlace p)) f.
Proof.
  unfold image_of. intros Hsame [[(k & p' & Hp & Hf)|(k & u & Hu & Hf)] | ->]; simpl.
  - left. destruct (decide (k = place_id p)) as [->|Hne].
    + exists (place_id p), p. rewrite (Hsame _ Hp) in Hf. by simplify_map_eq.
    + exists k, p'. by simplify_map_eq.
  - right. eauto.
  - left. exists (place_id p), p. by simplify_map_eq.
Qed.

Lemma image_of_remove_place d k f :
  (forall p0, db_places d !! k = Some p0 -> place_image p0 <> f) ->
  image_of d f -> image_of (apply_write d (WRemovePlace k)) f.
Proof.
  unfold image_of. intros Hne [(j & p & Hp & Hf)|(j & u & Hu & Hf)]; simpl.
  - left. exists j, p. rewrite lookup_delete_ne; [done|]. intros ->. by apply (Hne p).
  - right. eauto.
Qed.
