(* ===== verification/Geocode.v ===== *)
(** * Geocode: the geocoding lookup adapter (src/node-express-backend/util/location.js)

    The Google geocoding endpoint is an external service: the typeclass
    [GeocodingApi] gives, for an address, what [axios.get] yields for the
    request URL: a rejection (transport failure or non-2xx status, with
    the error's [message] and [code]) or a response whose [data] is
    either falsy or a parsed body with a [status] and a [results] array.
    ([encodeURIComponent] is injective, so the service is indexed by the
    address itself.)  [getCoordsForAddress] is the adapter of the code. *)

From stdpp Require Import base strings list.
From Stdlib Require Import ZArith String.
From S2P Require Import Prelude ObjectId Http Store.

Record geo_data := mkGeoData {
  geo_status : string;
  geo_results : list Coords    (* results[i].geometry.location *)
}.

Inductive geo_response : Type :=
| GeoReject (message : string) (code : option js_code)
| GeoOk (data : option geo_data).

Class GeocodingApi := { geocode_request : string -> geo_response }.

Section Adapter.
Context `{GeocodingApi}.

(** [exports.getCoordsForAddress] *)
Definition getCoordsForAddress (address : string) : M Coords :=
  match geocode_request address with
  | GeoReject m c => throw (LibErr m c)
  | GeoOk None =>
      throw (HttpErr "Could not find location for the address given" 404)
  | GeoOk (Some data) =>
      if String.eqb (geo_status data) "ZERO_RESULTS" then
        throw (HttpErr "Could not find location for the address given" 404)
      else
        match geo_results data with
        | [] => throw (TypeErr "Cannot read properties of undefined (reading 'geometry')")
        | c :: _ => mret c
        end
  end.
End Adapter.

(** A service answering one known address, used by the examples. *)
Definition demo_geocoder : GeocodingApi :=
  {| geocode_request a :=
       if String.eqb a "1 Main St"
       then GeoOk (Some (mkGeoData "OK" [mkCoords 40 (-74)]))
       else GeoOk (Some (mkGeoData "ZERO_RESULTS" [])) |}.

(** The geocoding request is not a call of the store: it costs no fault
    bit. *)
Lemma getCoordsForAddress_costs `{GeocodingApi} a : costs pending 0 (getCoordsForAddress a).
Proof. unfold getCoordsForAddress. costs_run. Qed.
#[export] Hint Resolve getCoordsForAddress_costs : costs.
