(* ===== verification/Places.v ===== *)
(** * Places: the place handlers (src/node-express-backend/controllers/places-controller.js)

    One definition per exported handler, with the same sequence of awaited
    calls, the same [try]/[catch] blocks (as [attempt]), the same early
    returns ([mret (Next ...)]) and the same responses.  A [throw] that no
    [catch] of the handler intercepts is an exception escaping the async
    handler (a rejected promise that express 4 does not forward).  The
    create and delete handlers run their two writes in a transaction; the
    theorems of this file show that the two collections change together
    or not at all, that the consistency invariant [world_wf] is preserved,
    and the order of the existence and authorization checks. *)

From stdpp Require Import base gmap strings list.
From Stdlib Require Import ZArith NArith String.
From S2P Require Import Prelude ObjectId Http Store Geocode.

(** [req.userData.userId]: a TypeError when check-auth did not run. *)
Definition userData_userId (req : Request) : M string :=
  match req_userId req with
  | Some u => mret u
  | None => throw (TypeErr "Cannot read properties of undefined (reading 'userId')")
  end.

(** [new Place({...})] draws the [_id]; the creator given as a string is
    cast to an ObjectId, and a failed cast is reported by [save] as a
    validation error ([inl]). *)
Definition new_place (t d a : string) (loc : Coords) (img uid : string)
  : M (string + Place) :=
  k ← new_oid;
  mret (match oid_of_string uid with
        | Some c => inr (mkPlace k t d a loc img c)
        | None => inl "ValidationError: creator: Cast to ObjectId failed"
        end).

(** [createdPlace.save({ session: sess })] *)
Definition save_new_place (sess : bool) (doc : string + Place) : M Place :=
  match doc with
  | inl msg => throw (LibErr msg None)
  | inr p => save_place sess p;; mret p
  end.

(** [user.places.push(createdPlace)] *)
Definition push_place (u : User) (p : Place) : User :=
  set_places u (places u ++ [place_id p]).

(** [place.creator.places.pull(place)] *)
Definition pull_place (u : User) (p : Place) : User :=
  set_places u (list_pull (place_id p) (places u)).

(** [place.title = title; place.description = description] *)
Definition set_title_description (p : Place) (t d : string) : Place :=
  mkPlace (place_id p) t d (address p) (location p) (place_image p) (creator p).

Section Handlers.
Context `{GeocodingApi}.

(** [exports.getPlaceById] *)
Definition getPlaceById (req : Request) : M reply :=
  let placeId := param req "pid" in
  r ← attempt (Place_findById placeId);
  match r with
  | inl _ => mret (Next (HttpErr "Something went wrong finding place." 500))
  | inr None => mret (Next (HttpErr "Could not find a place with the given id" 404))
  | inr (Some place) => mret (Reply 200 (JObj [("place", place_json true place)]))
  end.

(** [exports.getPlacesByUserId] *)
Definition getPlacesByUserId (req : Request) : M reply :=
  let userId := param req "uid" in
  r ← attempt (Place_find_creator userId);
  match r with
  | inl _ => mret (Next (HttpErr "Problem finding the users places." 500))
  | inr userPlaceList =>
      mret (Reply 200 (JObj [("userPlaceList",
                              JArr (map (place_json true) userPlaceList))]))
  end.

(** The transaction of [createPlace]. *)
Definition create_txn (created : string + Place) (user : User) : M Place :=
  start_transaction;;
  p ← save_new_place true created;
  save_user true (push_place user p);;
  commit_transaction;;
  mret p.

(** [exports.createPlace] *)
Definition createPlace (req : Request) : M reply :=
  if bool_decide (req_errors req <> []) then
    mret (Next (HttpErr "Invalid inputs, please check your data" 422))
  else
    let t := body_str req "title" in
    let d := body_str req "description" in
    let a := body_str req "address" in
    r ← attempt (getCoordsForAddress a);
    match r with
    | inl error => mret (Next error)
    | inr location =>
        match req_file req with
        | None => throw (TypeErr "Cannot read properties of undefined (reading 'path')")
        | Some path =>
            uid ← userData_userId req;
            createdPlace ← new_place t d a location path uid;
            ru ← attempt (User_findById uid);
            match ru with
            | inl _ => mret (Next (HttpErr "Creating place failed, user id not found" 500))
            | inr None => mret (Next (HttpErr "Creating place failed, user not found" 500))
            | inr (Some user) =>
                rt ← attempt (create_txn createdPlace user);
                match rt with
                | inl _ => mret (Next (HttpErr "Creating place failed, please try again." 500))
                | inr p => mret (Reply 201 (JObj [("place", place_json false p)]))
                end
            end
        end
    end.

(** [exports.updatePlace].  The validation branch calls [HttpError]
    without [new], which throws a TypeError; a missing place is
    dereferenced ([place.creator]) without a null check. *)
Definition updatePlace (req : Request) : M reply :=
  if bool_decide (req_errors req <> []) then
    throw (TypeErr "Class constructor HttpError cannot be invoked without 'new'")
  else
    let t := body_str req "title" in
    let d := body_str req "description" in
    let placeId := param req "pid" in
    r ← attempt (Place_findById placeId);
    match r with
    | inl _ => mret (Next (HttpErr "Something went wrong finding place to update." 500))
    | inr None => throw (TypeErr "Cannot read properties of null (reading 'creator')")
    | inr (Some place) =>
        uid ← userData_userId req;
        if bool_decide (oid_to_string (creator place) <> uid) then
          mret (Next (HttpErr "You are not authorized to edit this place" 401))
        else
          let place' := set_title_description place t d in
          rs ← attempt (save_place false place');
          match rs with
          | inl _ => mret (Next (HttpErr "Something went wrong updating the place." 500))
          | inr _ => mret (Reply 200 (JObj [("place", place_json true place')]))
          end
    end.

(** The transaction of [deletePlace]. *)
Definition delete_txn (place : Place) (owner : User) : M unit :=
  start_transaction;;
  remove_place true place;;
  save_user true (pull_place owner place);;
  commit_transaction.

(** [exports.deletePlace] *)
Definition deletePlace (req : Request) : M reply :=
  let placeId := param req "pid" in
  r ← attempt (Place_findById_populate placeId);
  match r with
  | inl _ => mret (Next (HttpErr "Something went wrong finding place to delete." 500))
  | inr None => mret (Next (HttpErr "Could not find place for this id." 404))
  | inr (Some (place, None)) =>
      throw (TypeErr "Cannot read properties of null (reading 'id')")
  | inr (Some (place, Some owner)) =>
      uid ← userData_userId req;
      if bool_decide (oid_to_string (user_id owner) <> uid) then
        mret (Next (HttpErr "You are not authorized to delete this place" 401))
      else
        let imagePath := place_image place in
        rt ← attempt (delete_txn place owner);
        match rt with
        | inl _ => mret (Next (HttpErr "Something went wrong deleting the place." 500))
        | inr _ =>
            fs_unlink imagePath;;
            mret (Reply 200 (JObj [("message", JStr "Deleted!")]))
        end
  end.
End Handlers.

(** ** The two transactions *)

Section Transactions.
Context `{GeocodingApi}.

(** The create transaction commits both writes or none. *)
Lemma create_txn_run c u w :
  w_txn w = None ->
  match create_txn c u w with
  | (Ok p, w') => c = inr p /\ w_txn w' = None /\ w_next w' = w_next w /\
      w_files w' = w_files w /\
      w_db w' = apply_writes (w_db w) [WSavePlace p; WSaveUser (push_place u p)]
  | (Throw _, w') => w_db w' = w_db w /\ w_next w' = w_next w /\ w_files w' = w_files w
  end.
Proof.
  intros Ht. unfold create_txn, start_transaction, save_new_place, save_place,
    save_user, commit_transaction. js_red. js_cases.
Qed.

(** The delete transaction commits both writes or none. *)
Lemma delete_txn_run p u w :
  w_txn w = None ->
  match delete_txn p u w with
  | (Ok _, w') => w_txn w' = None /\ w_next w' = w_next w /\ w_files w' = w_files w /\
      w_db w' = apply_writes (w_db w) [WRemovePlace (place_id p); WSaveUser (pull_place u p)]
  | (Throw _, w') => w_db w' = w_db w /\ w_next w' = w_next w /\ w_files w' = w_files w
  end.
Proof.
  intros Ht. unfold delete_txn, start_transaction, remove_place, save_user,
    commit_transaction. js_red. js_cases.
Qed.
End Transactions.

(** ** The writes keep the collections consistent *)

Lemma db_wf_delete d k p u :
  db_wf d -> db_places d !! k = Some p -> db_users d !! creator p = Some u ->
  db_wf (apply_writes d [WRemovePlace (place_id p); WSaveUser (pull_place u p)]).
Proof.
  intros (Hp & Hu & He) Hk Hc.
  destruct (Hp k p Hk) as [Hpid _]. destruct (Hu _ u Hc) as [Huid Hrefs].
  unfold apply_writes. simpl. rewrite Huid, Hpid. split; [|split].
  - intros k2 p2 H2; simpl in H2. apply lookup_delete_Some in H2 as [Hne H2].
    destruct (Hp k2 p2 H2) as [Hid2 Hown]. split; [done|]. simpl.
    destruct (decide (creator p2 = creator p)) as [Heq|Hne'].
    + rewrite Heq, lookup_insert_eq. rewrite Heq, Hc in Hown.
      apply elem_of_list_pull. split; congruence.
    + by rewrite lookup_insert_ne.
  - intros k2 u2 H2; simpl in H2. apply lookup_insert_Some in H2 as [[<- <-]|[Hne H2]].
    + split; [done|]. simpl. eapply refs_ok_impl; [exact Hrefs| |].
      * intros pid Hin. by apply elem_of_list_pull in Hin as [? _].
      * intros pid p0 Hin Hp0 Hc0. apply elem_of_list_pull in Hin as [_ Hne].
        exists p0. split; [|done]. rewrite lookup_delete_ne; [done|congruence].
    + destruct (Hu k2 u2 H2) as [Hid2 Hr2]. split; [done|].
      eapply refs_ok_impl; [exact Hr2|done|].
      intros pid p0 Hin Hp0 Hc0. exists p0. split; [|done].
      simpl. rewrite lookup_delete_ne; [done|]. intros ->. congruence.
  - eapply emails_unique_overwrite; [exact Hc|done|exact He].
Qed.

Lemma db_wf_create d p u :
  db_wf d -> db_users d !! creator p = Some u -> db_places d !! place_id p = None ->
  db_wf (apply_writes d [WSavePlace p; WSaveUser (push_place u p)]).
Proof.
  intros (Hp & Hu & He) Hc Hfresh.
  destruct (Hu _ u Hc) as [Huid Hrefs].
  unfold apply_writes. simpl. rewrite Huid. split; [|split].
  - intros k2 p2 H2; simpl in H2. simpl.
    apply lookup_insert_Some in H2 as [[<- <-]|[Hne H2]].
    + split; [done|]. simpl. rewrite lookup_insert_eq. simpl. set_solver.
    + destruct (Hp k2 p2 H2) as [Hid2 Hown]. split; [done|].
      destruct (decide (creator p2 = creator p)) as [Heq|Hne'].
      * simpl. rewrite Heq, lookup_insert_eq. rewrite Heq, Hc in Hown. simpl. set_solver.
      * simpl. by rewrite lookup_insert_ne.
  - intros k2 u2 H2; simpl in H2. apply lookup_insert_Some in H2 as [[<- <-]|[Hne H2]].
    + split; [done|]. simpl. unfold refs_ok. apply Forall_app. split.
      * eapply refs_ok_impl; [exact Hrefs|done|].
        intros pid p0 Hin Hp0 Hc0. exists p0. split; [|done].
        rewrite lookup_insert_ne; [done|congruence].
      * apply Forall_singleton. by rewrite lookup_insert_eq.
    + destruct (Hu k2 u2 H2) as [Hid2 Hr2]. split; [done|].
      eapply refs_ok_impl; [exact Hr2|done|].
      intros pid p0 Hin Hp0 Hc0. exists p0. split; [|done].
      simpl. rewrite lookup_insert_ne; [done|congruence].
  - eapply emails_unique_overwrite; [exact Hc|done|exact He].
Qed.

Lemma db_wf_update d k p t ds :
  db_wf d -> db_places d !! k = Some p ->
  db_wf (apply_write d (WSavePlace (set_title_description p t ds))).
Proof.
  intros (Hp & Hu & He) Hk. destruct (Hp k p Hk) as [Hpid Hown].
  simpl. split; [|split]; [| |exact He].
  - intros k2 p2 H2; simpl in H2. apply lookup_insert_Some in H2 as [[<- <-]|[Hne H2]].
    + split; [done|]. simpl. by rewrite Hpid.
    + by apply Hp.
  - intros k2 u2 H2; simpl in H2. destruct (Hu k2 u2 H2) as [Hid2 Hr2]. split; [done|].
    eapply refs_ok_impl; [exact Hr2|done|]. intros pid p0 Hin Hp0 Hc0. simpl.
    destruct (decide (pid = k)) as [->|Hne].
    + eexists. rewrite Hpid, lookup_insert_eq. split; [done|]. simpl. congruence.
    + exists p0. rewrite lookup_insert_ne; [done|congruence].
Qed.

(** ** The writes keep every id below the generator *)

Lemma ids_below_create n d p u :
  db_wf d -> ids_below n d -> db_users d !! creator p = Some u -> place_id p = n ->
  ids_below (N.succ n) (apply_writes d [WSavePlace p; WSaveUser (push_place u p)]).
Proof.
  intros (_ & Hu & _) [Hbu Hbp] Hc Hid. unfold apply_writes. simpl.
  destruct (Hu _ _ Hc) as [Huid _]. pose proof (Hbu _ _ Hc) as Hlt. simpl in Hlt.
  split.
  - apply map_Forall_insert_2; [simpl; lia|].
    eapply map_Forall_impl; [exact Hbu|]. simpl. lia.
  - apply map_Forall_insert_2; [simpl; lia|].
    eapply map_Forall_impl; [exact Hbp|]. simpl. lia.
Qed.

Lemma ids_below_delete n d p u :
  db_wf d -> ids_below n d -> db_users d !! creator p = Some u ->
  ids_below n (apply_writes d [WRemovePlace (place_id p); WSaveUser (pull_place u p)]).
Proof.
  intros (_ & Hu & _) [Hbu Hbp] Hc. destruct (Hu _ _ Hc) as [Huid _].
  unfold apply_writes. simpl. split.
  - apply map_Forall_insert_2; [simpl; rewrite Huid; exact (Hbu _ _ Hc)|done].
  - by apply map_Forall_delete.
Qed.

Lemma ids_below_update n d k p t ds :
  db_wf d -> ids_below n d -> db_places d !! k = Some p ->
  ids_below n (apply_write d (WSavePlace (set_title_description p t ds))).
Proof.
  intros (Hp & _ & _) [Hbu Hbp] Hk. destruct (Hp _ _ Hk) as [Hid _].
  split; [done|]. simpl.
  apply map_Forall_insert_2; [simpl; rewrite Hid; exact (Hbp _ _ Hk)|done].
Qed.

(** ** The writes keep every stored image named *)

Lemma image_of_create d p u f :
  db_wf d -> db_users d !! creator p = Some u -> db_places d !! place_id p = None ->
  image_of d f \/ f = place_image p ->
  image_of (apply_writes d [WSavePlace p; WSaveUser (push_place u p)]) f.
Proof.
  intros (_ & Hu & _) Hc Hfresh Hf. destruct (Hu _ _ Hc) as [Huid _].
  unfold apply_writes. cbn [foldl]. apply image_of_save_user.
  - simpl. rewrite Huid, Hc. by intros ? [= <-].
  - left. apply image_of_save_place; [by rewrite Hfresh|done].
Qed.

Lemma image_of_delete d k p u f :
  db_wf d -> db_places d !! k = Some p -> db_users d !! creator p = Some u ->
  image_of d f -> f <> place_image p ->
  image_of (apply_writes d [WRemovePlace (place_id p); WSaveUser (pull_place u p)]) f.
Proof.
  intros (Hp & Hu & _) Hk Hc Hf Hne. destruct (Hp _ _ Hk) as [Hpid _].
  destruct (Hu _ _ Hc) as [Huid _].
  unfold apply_writes. cbn [foldl]. apply image_of_save_user.
  - simpl. rewrite Huid, Hc. by intros ? [= <-].
  - left. apply image_of_remove_place; [|done]. rewrite Hpid, Hk. by intros ? [= <-].
Qed.

Lemma image_of_update d k p t ds f :
  db_wf d -> db_places d !! k = Some p -> image_of d f ->
  image_of (apply_write d (WSavePlace (set_title_description p t ds))) f.
Proof.
  intros (Hp & _ & _) Hk Hf. destruct (Hp _ _ Hk) as [Hpid _].
  apply image_of_save_place; [|by left]. simpl. rewrite Hpid, Hk. by intros ? [= <-].
Qed.

(** ** Proof automation for the handlers *)

(** Replace a run of a transaction by what [create_txn_run] /
    [delete_txn_run] say of it. *)
Ltac use_txn_runs :=
  repeat match goal with
  | H : create_txn ?c ?u ?w = _ |- _ =>
      let R := fresh "R" in
      pose proof (create_txn_run c u w) as R; rewrite H in R; try clear H;
      specialize (R ltac:(js_red; done))
  | H : delete_txn ?p ?u ?w = _ |- _ =>
      let R := fresh "R" in
      pose proof (delete_txn_run p u w) as R; rewrite H in R; try clear H;
      specialize (R ltac:(js_red; done))
  end.

(** Close a goal [world_wf w'] once the final collections are known. *)
Ltac wf_close :=
  repeat match goal with
  | H : w_db _ = _ |- _ => rewrite H; clear H
  | H : w_next _ = _ |- _ => rewrite H; clear H
  end;
  split_and!; try done;
  first
  [ eapply ids_below_mono; [|eassumption]; lia
  | eapply db_wf_create; [eassumption|eassumption|apply ids_below_fresh_place; eassumption]
  | eapply ids_below_create; [eassumption|eassumption|eassumption|reflexivity]
  | eapply db_wf_delete; eassumption
  | eapply ids_below_delete; eassumption
  | eapply db_wf_update; eassumption
  | eapply ids_below_update; eassumption ].

(** Unfold the read queries a handler may make. *)
Ltac unfold_reads :=
  unfold Place_findById, Place_find_creator, User_findById, User_find_all, User_findOne_email.

(** Run a handler symbolically on a world satisfying [world_wf]. *)
Ltac run_handler :=
  js_red; js_cases; use_txn_runs; js_red; js_cases; destruct_and?; simplify_eq/=.

(** Close a goal [no_orphans e w'] from [Hno : no_orphans e w]. *)
Ltac orphans_close :=
  let f := fresh "f" in let Hf := fresh "Hf" in
  unfold no_orphans; intros f Hf; cbn [w_files w_db] in Hf |- *;
  repeat match goal with H : w_files _ = _ |- _ => rewrite H in Hf end;
  repeat match goal with H : w_db _ = _ |- _ => rewrite H end;
  rewrite ?elem_of_difference, ?elem_of_singleton in Hf;
  match goal with
  | Hno : no_orphans _ _, Hf : _ ∈ _ /\ _ |- _ =>
      destruct Hf as [Hf ?]; destruct (Hno _ Hf) as [?|?]; [first [by left|right]|right]
  | Hno : no_orphans _ _, Hf : _ ∈ _ |- _ =>
      destruct (Hno _ Hf) as [?|?]; [first [by left|right]|right]
  end;
  first
  [ assumption
  | eapply image_of_delete; eassumption
  | eapply image_of_update; eassumption
  | eapply image_of_create;
      [eassumption|eassumption|by apply ids_below_fresh_place|
       first [by left|right; by simplify_eq/=]] ].

Section Properties.
Context `{GeocodingApi}.

(** ** Error paths and the order of the checks *)

(** C8 (deletePlace_absent_404): when the lookup succeeds and no place has
    the id, [deletePlace] answers 404 and changes nothing, whoever the
    requester is: existence is checked before authorization. *)
Theorem deletePlace_absent_404 req w k :
  head_fault w = false ->
  oid_of_string (param req "pid") = Some k ->
  db_places (w_db w) !! k = None ->
  deletePlace req w =
  (Ok (Next (HttpErr "Could not find place for this id." 404)), drop_fault w).
Proof.
  intros Hf Hk Hp. unfold deletePlace, Place_findById_populate, Place_findById.
  js_red. rewrite Hf, Hk. js_red. rewrite Hp. reflexivity.
Qed.

(** C9 (deletePlace_not_owner_401): when the place and its creator are found
    and the authenticated user is not the creator, [deletePlace]
    answers 401 and writes nothing. *)
Theorem deletePlace_not_owner_401 req w k p u uid :
  head_fault w = false -> head_fault (drop_fault w) = false ->
  oid_of_string (param req "pid") = Some k ->
  db_places (w_db w) !! k = Some p ->
  db_users (w_db w) !! creator p = Some u ->
  req_userId req = Some uid ->
  oid_to_string (user_id u) <> uid ->
  deletePlace req w =
  (Ok (Next (HttpErr "You are not authorized to delete this place" 401)),
   drop_fault (drop_fault w)).
Proof.
  intros Hf1 Hf2 Hk Hp Hu Huid Hne.
  unfold deletePlace, Place_findById_populate, Place_findById, userData_userId.
  js_red. rewrite Hf1, Hk. js_red. rewrite Hp. js_red. rewrite Hf2. js_red.
  rewrite Hu, Huid. js_red. rewrite bool_decide_true by done. reflexivity.
Qed.

(** ** Atomicity of the two-document writes *)

(** C10 (deletePlace_atomic): whatever fails, [deletePlace] leaves the
    collections as they were, or removes a place and the reference to it
    from its creator's list, both together. *)
Theorem deletePlace_atomic req w :
  w_txn w = None ->
  let w' := final (deletePlace req) w in
  w_db w' = w_db w \/
  exists k p u,
    w_db w' = apply_writes (w_db w) [WRemovePlace (place_id p); WSaveUser (pull_place u p)] /\
    db_places (w_db w) !! k = Some p /\ db_users (w_db w) !! creator p = Some u.
Proof.
  intros Ht. unfold deletePlace, Place_findById_populate, Place_findById, userData_userId.
  run_handler; naive_solver.
Qed.

(** C11 (createPlace_atomic): whatever fails, [createPlace] leaves the
    collections as they were, or adds a place with a fresh id and
    appends it to its creator's list, both together. *)
Theorem createPlace_atomic req w :
  w_txn w = None ->
  let w' := final (createPlace req) w in
  w_db w' = w_db w \/
  exists p u,
    w_db w' = apply_writes (w_db w) [WSavePlace p; WSaveUser (push_place u p)] /\
    place_id p = w_next w /\ db_users (w_db w) !! creator p = Some u.
Proof.
  intros Ht. unfold createPlace, getCoordsForAddress, new_place, User_findById, userData_userId.
  run_handler; naive_solver.
Qed.

(** ** The consistency invariant *)

Lemma createPlace_preserves_wf req w :
  world_wf w -> world_wf (end_request (final (createPlace req) w)).
Proof.
  intros Hwf. pose proof Hwf as (Hdb & Hids & Ht).
  unfold createPlace, getCoordsForAddress, new_place, User_findById, userData_userId, world_wf.
  run_handler; wf_close.
Qed.

Lemma deletePlace_preserves_wf req w :
  world_wf w -> world_wf (end_request (final (deletePlace req) w)).
Proof.
  intros Hwf. pose proof Hwf as (Hdb & Hids & Ht).
  unfold deletePlace, Place_findById_populate, Place_findById, userData_userId, world_wf.
  run_handler; wf_close.
Qed.

Lemma updatePlace_preserves_wf req w :
  world_wf w -> world_wf (end_request (final (updatePlace req) w)).
Proof.
  intros Hwf. pose proof Hwf as (Hdb & Hids & Ht).
  unfold updatePlace, Place_findById, userData_userId, save_place, world_wf.
  run_handler; wf_close.
Qed.

Lemma getPlaceById_preserves_wf req w :
  world_wf w -> world_wf (end_request (final (getPlaceById req) w)).
Proof.
  intros Hwf. pose proof Hwf as (Hdb & Hids & Ht).
  unfold getPlaceById, Place_findById, world_wf. run_handler.
Qed.

Lemma getPlacesByUserId_preserves_wf req w :
  world_wf w -> world_wf (end_request (final (getPlacesByUserId req) w)).
Proof.
  intros Hwf. pose proof Hwf as (Hdb & Hids & Ht).
  unfold getPlacesByUserId, world_wf. unfold_reads. run_handler.
Qed.

(** ** No orphan files *)

Lemma createPlace_no_orphans req w :
  world_wf w -> no_orphans (req_file req) w -> req_userId req <> None ->
  match createPlace req w with
  | (Ok (Next _), w') => no_orphans (req_file req) w'
  | (_, w') => no_orphans None w'
  end.
Proof.
  intros Hwf Hno Hu. pose proof Hwf as (Hdb & Hids & Ht).
  unfold createPlace, getCoordsForAddress, new_place, User_findById, userData_userId.
  run_handler; orphans_close.
Qed.

Lemma deletePlace_no_orphans req w e :
  world_wf w -> no_orphans e w -> no_orphans e (final (deletePlace req) w).
Proof.
  intros Hwf Hno. pose proof Hwf as (Hdb & Hids & Ht).
  unfold deletePlace, Place_findById_populate, Place_findById, userData_userId, fs_unlink.
  run_handler; orphans_close.
Qed.

Lemma updatePlace_no_orphans req w e :
  world_wf w -> no_orphans e w -> no_orphans e (final (updatePlace req) w).
Proof.
  intros Hwf Hno. pose proof Hwf as (Hdb & Hids & Ht).
  unfold updatePlace, Place_findById, userData_userId, save_place.
  run_handler; orphans_close.
Qed.

Lemma getPlaceById_no_orphans req w e :
  no_orphans e w -> no_orphans e (final (getPlaceById req) w).
Proof. intros Hno. unfold getPlaceById, Place_findById. run_handler; orphans_close. Qed.

Lemma getPlacesByUserId_no_orphans req w e :
  no_orphans e w -> no_orphans e (final (getPlacesByUserId req) w).
Proof.
  intros Hno. unfold getPlacesByUserId. unfold_reads. run_handler; orphans_close.
Qed.

(** ** Update *)

(** C15 (updatePlace_not_owner_401): when the place is found and the
    authenticated user is not its creator, [updatePlace] answers 401
    and writes nothing. *)
Theorem updatePlace_not_owner_401 req w k p uid :
  req_errors req = [] -> head_fault w = false ->
  oid_of_string (param req "pid") = Some k ->
  db_places (w_db w) !! k = Some p ->
  req_userId req = Some uid ->
  oid_to_string (creator p) <> uid ->
  updatePlace req w =
  (Ok (Next (HttpErr "You are not authorized to edit this place" 401)), drop_fault w).
Proof.
  intros He Hf Hk Hp Huid Hne. unfold updatePlace, Place_findById, userData_userId.
  rewrite bool_decide_false by tauto. js_red. rewrite Hf, Hk. js_red. rewrite Hp, Huid.
  rewrite bool_decide_true by done. reflexivity.
Qed.

(** C25 (updatePlace_owner): the creator's update replaces the title and the
    description of that place and nothing else, and answers 200 with the
    updated place. *)
Theorem updatePlace_owner req w k p :
  req_errors req = [] -> head_fault w = false ->
  head_fault (drop_fault w) = false ->
  oid_of_string (param req "pid") = Some k ->
  db_places (w_db w) !! k = Some p ->
  req_userId req = Some (oid_to_string (creator p)) ->
  let p' := set_title_description p (body_str req "title") (body_str req "description") in
  updatePlace req w =
  (Ok (Reply 200 (JObj [("place", place_json true p')])),
   set_db (mkDb (db_users (w_db w)) (<[place_id p := p']> (db_places (w_db w))))
          (drop_fault (drop_fault w))).
Proof.
  intros He Hf1 Hf2 Hk Hp Huid. unfold updatePlace, Place_findById, userData_userId,
    save_place.
  rewrite bool_decide_false by tauto. js_red. rewrite Hf1, Hk. js_red. rewrite Hp, Huid.
  rewrite bool_decide_false by tauto. js_red. rewrite Hf2. reflexivity.
Qed.

(** C31 (updatePlace_absent_throws): unlike [deletePlace], [updatePlace] does
    not check that the place exists: for an unknown id it dereferences
    [null] and the handler's promise rejects with a TypeError, so no
    404 is sent. *)
Theorem updatePlace_absent_throws req w k :
  req_errors req = [] -> head_fault w = false ->
  oid_of_string (param req "pid") = Some k ->
  db_places (w_db w) !! k = None ->
  outcome (updatePlace req) w =
  Throw (TypeErr "Cannot read properties of null (reading 'creator')").
Proof.
  intros He Hf Hk Hp. unfold updatePlace, Place_findById.
  rewrite bool_decide_false by tauto. js_red. rewrite Hf, Hk. js_red. rewrite Hp. reflexivity.
Qed.

(** On invalid input [updatePlace] calls the
    [HttpError] class without [new], which throws a TypeError before any
    422 reply is built; nothing is read or written. *)
Theorem updatePlace_invalid_throws req w :
  req_errors req <> [] ->
  updatePlace req w =
  (Throw (TypeErr "Class constructor HttpError cannot be invoked without 'new'"), w).
Proof.
  intros He. unfold updatePlace. rewrite bool_decide_true by done. reflexivity.
Qed.

(** ** Create *)

(** C27 (createPlace_unresolvable_404): when the geocoding service reports no
    result for the address, [createPlace] forwards the adapter's 404 and
    touches nothing (no id drawn, no read, no write). *)
Theorem createPlace_unresolvable_404 req w data :
  req_errors req = [] ->
  geocode_request (body_str req "address") = GeoOk (Some data) ->
  geo_status data = "ZERO_RESULTS" ->
  createPlace req w =
  (Ok (Next (HttpErr "Could not find location for the address given" 404)), w).
Proof.
  intros He Hg Hs. unfold createPlace, getCoordsForAddress.
  rewrite bool_decide_false by tauto. js_red. rewrite Hg, Hs. reflexivity.
Qed.

(** C33 (createPlace_missing_user_500): when the authenticated user id does not
    name a user, [createPlace] answers 500 (not the spec's NotFound), and
    writes nothing. *)
Theorem createPlace_missing_user_500 req w c path uid k :
  req_errors req = [] ->
  getCoordsForAddress (body_str req "address") w = (Ok c, w) ->
  req_file req = Some path -> req_userId req = Some uid ->
  oid_of_string uid = Some k -> head_fault w = false ->
  db_users (w_db w) !! k = None ->
  outcome (createPlace req) w =
  Ok (Next (HttpErr "Creating place failed, user not found" 500)) /\
  w_db (final (createPlace req) w) = w_db w.
Proof.
  intros He Hg Hf Hu Hk Hfl Hn. unfold createPlace, new_place, User_findById,
    userData_userId.
  rewrite bool_decide_false by tauto. js_rewrite. done.
Qed.

(** C28 (createPlace_success): with no fault, a resolvable address, an upload
    and an existing user, [createPlace] answers 201 with the new place,
    serialized without the [id] getter, and commits the place and the
    reference together. *)
Theorem createPlace_success req w c path uid k u :
  req_errors req = [] ->
  getCoordsForAddress (body_str req "address") w = (Ok c, w) ->
  req_file req = Some path -> req_userId req = Some uid ->
  oid_of_string uid = Some k -> db_users (w_db w) !! k = Some u ->
  w_faults w = [] -> w_txn w = None ->
  let p := mkPlace (w_next w) (body_str req "title") (body_str req "description")
                   (body_str req "address") c path k in
  outcome (createPlace req) w = Ok (Reply 201 (JObj [("place", place_json false p)])) /\
  w_db (final (createPlace req) w) =
    apply_writes (w_db w) [WSavePlace p; WSaveUser (push_place u p)].
Proof.
  intros He Hg Hf Hu Hk Hl Hfl Ht. unfold createPlace, new_place, User_findById,
    userData_userId, create_txn, start_transaction, save_new_place, save_place,
    save_user, commit_transaction.
  rewrite bool_decide_false by tauto. js_rewrite. done.
Qed.
(** ** Listing *)

(** C26 (getPlacesByUserId_lists_creator): on a consistent database, when the
    query succeeds, [getPlacesByUserId] answers 200 with exactly the places
    whose creator is the given user, each once, under the key
    ["userPlaceList"]. *)
Theorem getPlacesByUserId_lists_creator req w k :
  db_wf (w_db w) -> head_fault w = false ->
  oid_of_string (param req "uid") = Some k ->
  exists l,
    outcome (getPlacesByUserId req) w =
      Ok (Reply 200 (JObj [("userPlaceList", JArr (map (place_json true) l))])) /\
    NoDup (place_id <$> l) /\
    (forall p, p ∈ l <-> creator p = k /\ db_places (w_db w) !! place_id p = Some p).
Proof.
  intros [Hp _] Hf Hk. unfold outcome, getPlacesByUserId, Place_find_creator.
  js_red. rewrite Hf, Hk. js_red. eexists. split; [reflexivity|].
  apply find_places_spec. eapply map_Forall_impl; [exact Hp|]. by intros ? ? [].
Qed.

End Properties.


(** ** Witnesses on the demo database *)

Section Witnesses.
#[local] Existing Instance demo_geocoder.

Definition req_pid (pid : N) (uid : string) (body : list (string * string))
  (errors : list string) : Request :=
  mkRequest [("pid", oid_to_string pid)] body None (Some uid) errors.

Lemma deletePlace_absent_404_witness :
  deletePlace (req_pid 7 "someone" [] []) demo_world =
  (Ok (Next (HttpErr "Could not find place for this id." 404)), drop_fault demo_world).
Proof. apply (deletePlace_absent_404 _ _ 7); reflexivity. Defined.

Lemma deletePlace_not_owner_401_witness :
  deletePlace (req_pid 1 (oid_to_string 9) [] []) demo_world =
  (Ok (Next (HttpErr "You are not authorized to delete this place" 401)),
   drop_fault (drop_fault demo_world)).
Proof.
  apply (deletePlace_not_owner_401 _ _ 1 demo_place demo_user (oid_to_string 9));
    try reflexivity. vm_compute. discriminate.
Defined.

Lemma deletePlace_atomic_witness :
  let w' := final (deletePlace (req_pid 1 (oid_to_string 0) [] [])) demo_world in
  w_db w' = w_db demo_world \/
  exists k p u,
    w_db w' = apply_writes (w_db demo_world)
                [WRemovePlace (place_id p); WSaveUser (pull_place u p)] /\
    db_places (w_db demo_world) !! k = Some p /\
    db_users (w_db demo_world) !! creator p = Some u.
Proof. apply deletePlace_atomic. reflexivity. Defined.

Definition create_body : list (string * string) :=
  [("title", "Park"); ("description", "A green park"); ("address", "1 Main St")].

Definition req_create (uid : string) : Request :=
  mkRequest [] create_body (Some "uploads/images/park.png") (Some uid) [].

Lemma createPlace_atomic_witness :
  let w' := final (createPlace (req_create (oid_to_string 0))) demo_world in
  w_db w' = w_db demo_world \/
  exists p u,
    w_db w' = apply_writes (w_db demo_world) [WSavePlace p; WSaveUser (push_place u p)] /\
    place_id p = w_next demo_world /\ db_users (w_db demo_world) !! creator p = Some u.
Proof. apply createPlace_atomic. reflexivity. Defined.

Lemma updatePlace_not_owner_401_witness :
  updatePlace (req_pid 1 (oid_to_string 9) [("title", "T"); ("description", "12345")] [])
              demo_world =
  (Ok (Next (HttpErr "You are not authorized to edit this place" 401)),
   drop_fault demo_world).
Proof.
  apply (updatePlace_not_owner_401 _ _ 1 demo_place (oid_to_string 9));
    try reflexivity. vm_compute. discriminate.
Defined.

Lemma updatePlace_owner_witness :
  let req := req_pid 1 (oid_to_string 0) [("title", "T"); ("description", "12345")] [] in
  let p' := set_title_description demo_place "T" "12345" in
  updatePlace req demo_world =
  (Ok (Reply 200 (JObj [("place", place_json true p')])),
   set_db (mkDb (db_users (w_db demo_world))
                (<[place_id demo_place := p']> (db_places (w_db demo_world))))
          (drop_fault (drop_fault demo_world))).
Proof.
  intros req p'. apply (updatePlace_owner req demo_world 1 demo_place); reflexivity.
Defined.

Lemma updatePlace_absent_throws_witness :
  outcome (updatePlace (req_pid 7 (oid_to_string 0) [] [])) demo_world =
  Throw (TypeErr "Cannot read properties of null (reading 'creator')").
Proof. apply (updatePlace_absent_throws _ _ 7); reflexivity. Defined.

Lemma updatePlace_invalid_throws_witness :
  updatePlace (req_pid 1 (oid_to_string 0) [] ["title"]) demo_world =
  (Throw (TypeErr "Class constructor HttpError cannot be invoked without 'new'"),
   demo_world).
Proof. apply updatePlace_invalid_throws. discriminate. Defined.

Lemma createPlace_unresolvable_404_witness :
  let req := mkRequest [] [("title", "X"); ("description", "12345"); ("address", "Nowhere")]
                       (Some "uploads/images/x.png") (Some (oid_to_string 0)) [] in
  createPlace req demo_world =
  (Ok (Next (HttpErr "Could not find location for the address given" 404)), demo_world).
Proof. apply (createPlace_unresolvable_404 _ _ (mkGeoData "ZERO_RESULTS" [])); reflexivity. Defined.

Lemma createPlace_missing_user_500_witness :
  let req := req_create (oid_to_string 5) in
  outcome (createPlace req) demo_world =
  Ok (Next (HttpErr "Creating place failed, user not found" 500)) /\
  w_db (final (createPlace req) demo_world) = w_db demo_world.
Proof.
  apply (createPlace_missing_user_500 _ _ (mkCoords 40 (-74))
           "uploads/images/park.png" (oid_to_string 5) 5); reflexivity.
Defined.

Lemma createPlace_success_witness :
  let req := req_create (oid_to_string 0) in
  let p := mkPlace 2 "Park" "A green park" "1 Main St" (mkCoords 40 (-74))
                   "uploads/images/park.png" 0 in
  outcome (createPlace req) demo_world = Ok (Reply 201 (JObj [("place", place_json false p)])) /\
  w_db (final (createPlace req) demo_world) =
    apply_writes (w_db demo_world) [WSavePlace p; WSaveUser (push_place demo_user p)].
Proof.
  intros req p.
  apply (createPlace_success req demo_world (mkCoords 40 (-74)) "uploads/images/park.png"
           (oid_to_string 0) 0 demo_user); reflexivity.
Defined.
Definition req_uid : Request := mkRequest [("uid", oid_to_string 0)] [] None None [].

Lemma getPlacesByUserId_lists_creator_witness :
  exists l,
    outcome (getPlacesByUserId req_uid) demo_world =
      Ok (Reply 200 (JObj [("userPlaceList", JArr (map (place_json true) l))])) /\
    NoDup (place_id <$> l) /\
    (forall p, p ∈ l <-> creator p = 0%N /\ db_places (w_db demo_world) !! place_id p = Some p).
Proof.
  apply (getPlacesByUserId_lists_creator req_uid demo_world 0%N);
    [apply (bool_decide_unpack _); vm_compute; reflexivity | reflexivity | reflexivity].
Defined.

End Witnesses.

(** ** Library calls of the handlers *)

Lemma userData_userId_costs req : costs pending 0 (userData_userId req).
Proof. unfold userData_userId. costs_run. Qed.

Lemma new_place_costs t d a loc img uid : costs pending 0 (new_place t d a loc img uid).
Proof. unfold new_place. costs_run. Qed.

Lemma save_new_place_costs sess doc : costs pending 1 (save_new_place sess doc).
Proof. unfold save_new_place. costs_run. Qed.

#[export] Hint Resolve userData_userId_costs new_place_costs save_new_place_costs : costs.

Lemma create_txn_costs c u : costs pending 4 (create_txn c u).
Proof. unfold create_txn. costs_run. Qed.

Lemma delete_txn_costs p u : costs pending 4 (delete_txn p u).
Proof. unfold delete_txn. costs_run. Qed.

#[export] Hint Resolve create_txn_costs delete_txn_costs : costs.

Lemma getPlaceById_costs req : costs pending 1 (getPlaceById req).
Proof. unfold getPlaceById. costs_run. Qed.

Lemma getPlacesByUserId_costs req : costs pending 1 (getPlacesByUserId req).
Proof. unfold getPlacesByUserId. costs_run. Qed.

Lemma createPlace_costs `{GeocodingApi} req : costs pending 5 (createPlace req).
Proof. unfold createPlace. costs_run. Qed.

Lemma updatePlace_costs req : costs pending 2 (updatePlace req).
Proof. unfold updatePlace. costs_run. Qed.

Lemma deletePlace_costs req : costs pending 6 (deletePlace req).
Proof. unfold deletePlace. costs_run. Qed.

#[export] Hint Resolve getPlaceById_costs getPlacesByUserId_costs createPlace_costs
  updatePlace_costs deletePlace_costs : costs.
