(* ===== verification/Credentials.v ===== *)
(** * Credentials: the password-hashing and token-signing service

    users-controller.js calls [bcrypt.hash(password, 12)],
    [bcrypt.compare(password, hash)] and
    [jwt.sign({ userId, email }, process.env.PRIVATE_TOKEN_KEY, { expiresIn: '1h' })];
    the check-auth middleware (not under src/) verifies the token.  These
    libraries are the spec's Credential Service (§4.2); the typeclass
    [CredentialService] states what the handlers rely on:
    - a password matches exactly the hash made from it;
    - a signed token verifies, before its expiry, to the payload it was
      signed with, and does not verify from its expiry on.
    The secret key is part of the instance.  (bcrypt draws a random salt;
    the model's hash is a function of the password, which the handlers
    cannot observe.)  [demo_credentials] is an instance, so the laws are
    satisfiable and the examples compute. *)

From stdpp Require Import base strings list.
From Stdlib Require Import ZArith NArith String Ascii.
From S2P Require Import Prelude ObjectId.

(** The claims of a token: [{ userId, email }] and the [exp] that
    [expiresIn] adds, in seconds. *)
Record TokenPayload := mkPayload {
  tk_userId : string;
  tk_email : string;
  tk_exp : Z
}.

(** Whether a string contains a space. *)
Fixpoint has_space (s : string) : bool :=
  match s with
  | EmptyString => false
  | String c s' => Ascii.eqb c " " || has_space s'
  end.

Class CredentialService := {
  bcrypt_hash : string -> Z -> string;
  bcrypt_compare : string -> string -> bool;
  jwt_sign : TokenPayload -> string;
  jwt_verify : Z -> string -> option TokenPayload;
  bcrypt_compare_hash : forall p q rounds,
    bcrypt_compare p (bcrypt_hash q rounds) = true <-> p = q;
  jwt_verify_sign : forall now pl,
    jwt_verify now (jwt_sign pl) = if Z.ltb now (tk_exp pl) then Some pl else None;
  (** A token is three base64url segments joined by dots. *)
  jwt_sign_shape : forall pl, jwt_sign pl <> EmptyString /\ has_space (jwt_sign pl) = false
}.

(** [{ expiresIn: '1h' }] *)
Definition token_lifetime : Z := 3600.

(** ** An instance *)

(** A prefix-free encoding of strings: every character as two hex
    digits, then the terminator ["."]. *)
Definition enc_char (c : ascii) : string :=
  String (hex_digit (N_of_ascii c / 16)) (String (hex_digit (N_of_ascii c mod 16)) EmptyString).

Fixpoint enc_str (s : string) : string :=
  match s with
  | EmptyString => "."
  | String c s' => enc_char c ++ enc_str s'
  end.

Fixpoint dec_str (s : string) : option (string * string) :=
  match s with
  | String a rest =>
      if Ascii.eqb a "." then Some (EmptyString, rest)
      else match rest with
           | String b rest' =>
               match hex_value a, hex_value b, dec_str rest' with
               | Some x, Some y, Some (t, r) => Some (String (ascii_of_N (x * 16 + y)) t, r)
               | _, _, _ => None
               end
           | EmptyString => None
           end
  | EmptyString => None
  end.

Fixpoint enc_pos (p : positive) : string :=
  match p with
  | xI p' => String "1" (enc_pos p')
  | xO p' => String "0" (enc_pos p')
  | xH => "h"
  end.

Fixpoint dec_pos (s : string) : option positive :=
  match s with
  | String c s' =>
      if Ascii.eqb c "1" then xI <$> dec_pos s'
      else if Ascii.eqb c "0" then xO <$> dec_pos s'
      else if Ascii.eqb c "h" then (if String.eqb s' "" then Some xH else None)
      else None
  | EmptyString => None
  end.

Definition enc_Z (z : Z) : string :=
  match z with
  | Z0 => "z"
  | Zpos p => String "p" (enc_pos p)
  | Zneg p => String "n" (enc_pos p)
  end.

Definition dec_Z (s : string) : option Z :=
  match s with
  | String c s' =>
      if String.eqb s "z" then Some Z0
      else if Ascii.eqb c "p" then Zpos <$> dec_pos s'
      else if Ascii.eqb c "n" then Zneg <$> dec_pos s'
      else None
  | EmptyString => None
  end.

Lemma hex_digit_not_dot d : (d < 16)%N -> Ascii.eqb (hex_digit d) "." = false.
Proof.
  intros Hd. apply Ascii.eqb_neq. intros Heq.
  pose proof (hex_value_digit d Hd) as Hv. rewrite Heq in Hv. discriminate.
Qed.

Lemma hex_digit_not_space d : (d < 16)%N -> Ascii.eqb (hex_digit d) " " = false.
Proof.
  intros Hd. apply Ascii.eqb_neq. intros Heq.
  pose proof (hex_value_digit d Hd) as Hv. rewrite Heq in Hv. discriminate.
Qed.

Lemma N_of_ascii_lt c : (N_of_ascii c < 256)%N.
Proof. destruct c as [[] [] [] [] [] [] [] []]; vm_compute; reflexivity. Qed.

Lemma hex_pair_bounds c : (N_of_ascii c / 16 < 16 /\ N_of_ascii c mod 16 < 16)%N.
Proof.
  pose proof (N_of_ascii_lt c). split.
  - apply N.Div0.div_lt_upper_bound. lia.
  - apply N.mod_lt. lia.
Qed.

Lemma dec_enc_str s r : dec_str (enc_str s ++ r) = Some (s, r).
Proof.
  induction s as [|c s IH]; [reflexivity|].
  destruct (hex_pair_bounds c) as [Hq Hm]. simpl. unfold enc_char.
  rewrite !string_app_cons, string_app_nil. simpl.
  rewrite hex_digit_not_dot, !hex_value_digit, IH by done.
  f_equal. f_equal. f_equal.
  rewrite N.mul_comm, <-N.Div0.div_mod. apply ascii_N_embedding.
Qed.

Lemma has_space_app s t : has_space (s ++ t) = has_space s || has_space t.
Proof. induction s as [|c s IH]; [done|]. rewrite string_app_cons. simpl. rewrite IH. apply orb_assoc. Qed.

Lemma enc_str_no_space s : has_space (enc_str s) = false.
Proof.
  induction s as [|c s IH]; [done|]. destruct (hex_pair_bounds c).
  cbn [enc_str]. rewrite has_space_app, IH. unfold enc_char. simpl.
  rewrite !hex_digit_not_space by done. reflexivity.
Qed.

Lemma enc_pos_no_space p : has_space (enc_pos p) = false.
Proof. by induction p. Qed.

Lemma enc_Z_no_space z : has_space (enc_Z z) = false.
Proof. destruct z; simpl; rewrite ?enc_pos_no_space; done. Qed.

Lemma dec_enc_pos p : dec_pos (enc_pos p) = Some p.
Proof. induction p as [p IH|p IH|]; simpl; rewrite ?IH; reflexivity. Qed.

Lemma dec_enc_Z z : dec_Z (enc_Z z) = Some z.
Proof.
  destruct z as [|p|p]; [reflexivity|..]; simpl; rewrite dec_enc_pos;
    destruct (enc_pos p); reflexivity.
Qed.

Definition demo_sign (pl : TokenPayload) : string :=
  enc_str (tk_userId pl) ++ enc_str (tk_email pl) ++ enc_Z (tk_exp pl).

Definition demo_verify (now : Z) (t : string) : option TokenPayload :=
  match dec_str t with
  | Some (u, r) =>
      match dec_str r with
      | Some (e, r') =>
          match dec_Z r' with
          | Some exp => if Z.ltb now exp then Some (mkPayload u e exp) else None
          | None => None
          end
      | None => None
      end
  | None => None
  end.

Definition demo_hash (p : string) (rounds : Z) : string := "$2a$" ++ p.

Definition demo_compare (p h : string) : bool := String.eqb h ("$2a$" ++ p).

Lemma demo_compare_hash p q rounds :
  demo_compare p (demo_hash q rounds) = true <-> p = q.
Proof.
  unfold demo_compare, demo_hash. rewrite String.eqb_eq. simpl.
  split; [intros H; by simplify_eq|intros ->; reflexivity].
Qed.

Lemma demo_verify_sign now pl :
  demo_verify now (demo_sign pl) = if Z.ltb now (tk_exp pl) then Some pl else None.
Proof.
  unfold demo_verify, demo_sign. rewrite dec_enc_str, dec_enc_str.
  replace (dec_Z (enc_Z (tk_exp pl))) with (Some (tk_exp pl)) by (symmetry; apply dec_enc_Z).
  destruct pl; reflexivity.
Qed.

Lemma demo_sign_shape pl : demo_sign pl <> EmptyString /\ has_space (demo_sign pl) = false.
Proof.
  unfold demo_sign. split.
  - destruct (tk_userId pl); simpl; [discriminate|]. unfold enc_char. discriminate.
  - by rewrite !has_space_app, !enc_str_no_space, enc_Z_no_space.
Qed.

Definition demo_credentials : CredentialService :=
  {| bcrypt_hash := demo_hash;
     bcrypt_compare := demo_compare;
     jwt_sign := demo_sign;
     jwt_verify := demo_verify;
     bcrypt_compare_hash := demo_compare_hash;
     jwt_verify_sign := demo_verify_sign;
     jwt_sign_shape := demo_sign_shape |}.
