(* ===== verification/Users.v ===== *)
(** * Users: the user handlers (src/node-express-backend/controllers/users-controller.js)

    [getUsers], [getUserById], [signupUser] and [loginUser], written call
    for call like [Places].  The credential service is the
    [CredentialService] interface of [Credentials]: the theorems about
    passwords and tokens use only its laws.  [bcrypt.hash],
    [bcrypt.compare] and [jwt.sign] may fail, so each consumes a bit of
    the fault oracle ([io]).  The token's [exp] is the world's clock plus
    [token_lifetime] ([expiresIn: '1h']). *)

From stdpp Require Import base gmap strings list.
From Stdlib Require Import ZArith NArith String Ascii.
From S2P Require Import Prelude ObjectId Http Store Credentials.

(** [String.prototype.toLowerCase] on ASCII letters. *)
Definition ascii_lower (c : ascii) : ascii :=
  let n := nat_of_ascii c in
  if (65 <=? n)%nat && (n <=? 90)%nat then ascii_of_nat (n + 32) else c.

Fixpoint to_lower (s : string) : string :=
  match s with
  | EmptyString => EmptyString
  | String c s' => String (ascii_lower c) (to_lower s')
  end.

(** [user.toObject({ getters: true })] of a document read with the
    projection ['-password']. *)
Definition user_public_json (u : User) : json := user_json false u.
Arguments user_public_json : simpl never.

(** The body of a successful signup or login. *)
Definition auth_json (uid em token img : string) : json :=
  JObj [("userId", JStr uid); ("email", JStr em); ("token", JStr token); ("image", JStr img)].

Section Handlers.
Context `{CredentialService}.

(** [await bcrypt.hash(password, 12)] *)
Definition hash_password (password : string) : M string :=
  io "bcrypt.hash";; mret (bcrypt_hash password 12).

(** [await bcrypt.compare(password, hash)]: an absent password is an
    "Illegal arguments" rejection. *)
Definition compare_password (password : option string) (hash : string) : M bool :=
  io "bcrypt.compare";;
  match password with
  | Some p => mret (bcrypt_compare p hash)
  | None => throw (LibErr "Illegal arguments: undefined, string" None)
  end.

(** [jwt.sign({ userId, email }, key, { expiresIn: '1h' })] *)
Definition sign_token (userId em : string) : M string :=
  io "jwt.sign";;
  now ← gets w_now;
  mret (jwt_sign (mkPayload userId em (now + token_lifetime))).

(** [exports.getUsers] *)
Definition getUsers (req : Request) : M reply :=
  r ← attempt User_find_all;
  match r with
  | inl _ => mret (Next (HttpErr "Error finding users, please try again" 500))
  | inr users => mret (Reply 200 (JObj [("users", JArr (map user_public_json users))]))
  end.

(** [exports.getUserById]: no null check before [user.toObject]. *)
Definition getUserById (req : Request) : M reply :=
  let userId := param req "uid" in
  r ← attempt (User_findById userId);
  match r with
  | inl _ => mret (Next (HttpErr "Error finding user, please try again" 500))
  | inr None => throw (TypeErr "Cannot read properties of null (reading 'toObject')")
  | inr (Some user) => mret (Reply 200 (JObj [("user", user_public_json user)]))
  end.

(** [exports.signupUser] *)
Definition signupUser (req : Request) : M reply :=
  if bool_decide (req_errors req <> []) then
    mret (Next (HttpErr "Invalid inputs, please check your data" 422))
  else
    let nm := body_str req "name" in
    let em := body_str req "email" in
    let pw := body_str req "password" in
    r ← attempt (User_findOne_email em);
    match r with
    | inl _ => mret (Next (HttpErr "Could not sign up user. Try again" 500))
    | inr (Some _) => mret (Next (HttpErr "User already exists, please sign in" 422))
    | inr None =>
        rh ← attempt (hash_password pw);
        match rh with
        | inl _ => mret (Next (HttpErr "Could not create user, please try again" 500))
        | inr hashedPassword =>
            match req_file req with
            | None => throw (TypeErr "Cannot read properties of undefined (reading 'path')")
            | Some path =>
                k ← new_oid;
                let createdUser := mkUser k nm em path hashedPassword [] in
                rs ← attempt (save_user false createdUser);
                match rs with
                | inl _ => mret (Next (HttpErr "Something went wrong signing up user" 500))
                | inr _ =>
                    rt ← attempt (sign_token (oid_to_string k) em);
                    match rt with
                    | inl _ => mret (Next (HttpErr "Something went wrong signing up user" 500))
                    | inr token =>
                        mret (Reply 201 (auth_json (oid_to_string k) em token path))
                    end
                end
            end
        end
    end.

(** [exports.loginUser]: no validation; [email.toLowerCase()] on an
    absent email throws. *)
Definition loginUser (req : Request) : M reply :=
  match body_field req "email" with
  | None => throw (TypeErr "Cannot read properties of undefined (reading 'toLowerCase')")
  | Some em =>
      r ← attempt (User_findOne_email (to_lower em));
      match r with
      | inl _ => mret (Next (HttpErr "Could not log in, please try again" 500))
      | inr None => mret (Next (HttpErr "Could not identify user" 403))
      | inr (Some identifiedUser) =>
          rc ← attempt (compare_password (body_field req "password") (password identifiedUser));
          match rc with
          | inl _ => mret (Next (HttpErr "Could not log you in, please check credentials" 500))
          | inr false => mret (Next (HttpErr "Invalid credentials, please try again" 403))
          | inr true =>
              rt ← attempt (sign_token (oid_to_string (user_id identifiedUser))
                                       (email identifiedUser));
              match rt with
              | inl _ => mret (Next (HttpErr "Something went wrong logging in" 500))
              | inr token =>
                  mret (Reply 200 (auth_json (oid_to_string (user_id identifiedUser))
                                             (email identifiedUser) token
                                             (user_image identifiedUser)))
              end
          end
      end
  end.
End Handlers.

(** ** Secrets never leave in a response *)

Lemma json_has_key_ids k l : existsb (json_has_key k) (map oid_json l) = false.
Proof. induction l; done. Qed.

Lemma user_public_json_no_password u :
  json_has_key "password" (user_public_json u) = false.
Proof. unfold user_public_json. simpl. by rewrite json_has_key_ids. Qed.

Lemma users_json_no_password us :
  existsb (json_has_key "password") (map user_public_json us) = false.
Proof.
  induction us as [|u us IH]; [done|].
  cbn [map existsb]. by rewrite user_public_json_no_password, IH.
Qed.

Section Properties.
Context `{CredentialService}.

(** A reply of a user handler never carries a ["password"] key. *)
Definition hides_password (h : Request -> M reply) : Prop :=
  forall req w s b, outcome (h req) w = Ok (Reply s b) -> json_has_key "password" b = false.

(** C16 (users_responses_hide_password): no response of [getUsers],
    [getUserById], [signupUser] or [loginUser] contains a ["password"]
    key, at any depth, whatever the request, the data and the faults. *)
Theorem users_responses_hide_password :
  Forall hides_password [getUsers; getUserById; signupUser; loginUser].
Proof.
  repeat constructor; intros req w s b Hr; unfold outcome in Hr.
  - unfold getUsers, User_find_all in Hr. js_red. js_cases.
    simpl. by rewrite ?users_json_no_password, ?json_has_key_ids.
  - unfold getUserById, User_findById in Hr. js_red. js_cases.
    simpl. by rewrite ?user_public_json_no_password, ?json_has_key_ids.
  - unfold signupUser, User_findOne_email, hash_password, sign_token in Hr.
    js_red. js_cases.
  - unfold loginUser, User_findOne_email, compare_password, sign_token in Hr.
    js_red. js_cases.
Qed.

(** C18 (signupUser_duplicate_422): when a user with the submitted email
    exists, signup answers 422 and writes nothing. *)
Theorem signupUser_duplicate_422 req w u :
  req_errors req = [] -> head_fault w = false ->
  find_email (body_str req "email") (w_db w) = Some u ->
  signupUser req w =
  (Ok (Next (HttpErr "User already exists, please sign in" 422)), drop_fault w).
Proof.
  intros He Hf Hu. unfold signupUser, User_findOne_email.
  rewrite bool_decide_false by tauto. js_rewrite. reflexivity.
Qed.

(** C19 (loginUser_success): with no fault, logging in with the password the
    account was created with answers 200 with the user's id, email and
    image and a token that verifies to that id and email until one hour
    after the login, and not from then on. *)
Theorem loginUser_success req w em pw u rounds :
  body_field req "email" = Some em -> body_field req "password" = Some pw ->
  find_email (to_lower em) (w_db w) = Some u ->
  password u = bcrypt_hash pw rounds -> w_faults w = [] ->
  exists token,
    outcome (loginUser req) w =
      Ok (Reply 200 (auth_json (oid_to_string (user_id u)) (email u) token (user_image u))) /\
    (forall t : Z, (t < w_now w + token_lifetime)%Z ->
       jwt_verify t token =
       Some (mkPayload (oid_to_string (user_id u)) (email u) (w_now w + token_lifetime))) /\
    (forall t : Z, (w_now w + token_lifetime <= t)%Z -> jwt_verify t token = None).
Proof.
  intros Hem Hpw Hu Hh Hf. unfold outcome, loginUser, User_findOne_email,
    compare_password, sign_token.
  rewrite Hem. js_rewrite.
  assert (bcrypt_compare pw (bcrypt_hash pw rounds) = true) as -> by
    (by apply bcrypt_compare_hash).
  eexists. split; [reflexivity|]. split; intros t Ht; rewrite jwt_verify_sign; simpl.
  - by rewrite (proj2 (Z.ltb_lt _ _) Ht).
  - by rewrite (proj2 (Z.ltb_ge _ _) Ht).
Qed.


(** C29 (signupUser_success): with no fault, a valid signup for an unused
    email creates a user with a fresh id, no places and the bcrypt hash
    of the password (never the password itself), and answers 201 with a
    token that verifies to the new id and email. *)
Theorem signupUser_success req w path :
  req_errors req = [] -> w_faults w = [] -> req_file req = Some path ->
  find_email (body_str req "email") (w_db w) = None ->
  let u := mkUser (w_next w) (body_str req "name") (body_str req "email") path
                  (bcrypt_hash (body_str req "password") 12) [] in
  exists token,
    signupUser req w =
      (Ok (Reply 201 (auth_json (oid_to_string (w_next w)) (body_str req "email") token path)),
       set_db (apply_write (w_db w) (WSaveUser u))
         (mkWorld (w_db w) (N.succ (w_next w)) [] (w_txn w) (w_files w) (w_now w))) /\
    jwt_verify (w_now w) token =
      Some (mkPayload (oid_to_string (w_next w)) (body_str req "email")
                      (w_now w + token_lifetime)).
Proof.
  intros He Hf Hp Hn u. unfold signupUser, User_findOne_email, hash_password,
    save_user, sign_token.
  rewrite bool_decide_false by tauto. js_rewrite.
  eexists. split; [reflexivity|]. rewrite jwt_verify_sign.
  rewrite (proj2 (Z.ltb_lt _ _)); [done|]. simpl. unfold token_lifetime. lia.
Qed.

(** C34 (getUserById_absent_throws): [getUserById] does not check that a user
    was found: for an unknown id the handler rejects with a TypeError and
    no 404 is sent. *)
Theorem getUserById_absent_throws req w k :
  head_fault w = false -> oid_of_string (param req "uid") = Some k ->
  db_users (w_db w) !! k = None ->
  outcome (getUserById req) w =
  Throw (TypeErr "Cannot read properties of null (reading 'toObject')").
Proof.
  intros Hf Hk Hu. unfold outcome, getUserById, User_findById. js_rewrite. reflexivity.
Qed.

(** ** The consistency invariant *)

Lemma signupUser_preserves_wf req w :
  world_wf w -> world_wf (end_request (final (signupUser req) w)).
Proof.
  intros Hwf. pose proof Hwf as (Hdb & Hids & Ht).
  unfold signupUser, User_findOne_email, hash_password, save_user, sign_token, world_wf.
  js_red. js_cases; split_and!; try done; try (eapply ids_below_mono; [|eassumption]; lia).
  all: first
    [ apply db_wf_new_user; [done|simpl; by apply ids_below_fresh_user|done|];
      intros k u' Hk; by eapply find_email_None
    | by apply ids_below_new_user ].
Qed.

Lemma getUsers_preserves_wf req w :
  world_wf w -> world_wf (end_request (final (getUsers req) w)).
Proof.
  intros (Hdb & Hids & Ht). unfold getUsers, User_find_all, world_wf. js_red. js_cases.
Qed.

Lemma getUserById_preserves_wf req w :
  world_wf w -> world_wf (end_request (final (getUserById req) w)).
Proof.
  intros (Hdb & Hids & Ht). unfold getUserById, User_findById, world_wf. js_red. js_cases.
Qed.

Lemma loginUser_preserves_wf req w :
  world_wf w -> world_wf (end_request (final (loginUser req) w)).
Proof.
  intros (Hdb & Hids & Ht). unfold loginUser, User_findOne_email, compare_password,
    sign_token, world_wf. js_red. js_cases.
Qed.

(** ** No orphan files *)

Lemma signupUser_no_orphans req w :
  world_wf w -> no_orphans (req_file req) w ->
  match signupUser req w with
  | (Ok (Next _), w') => no_orphans (req_file req) w'
  | (_, w') => no_orphans None w'
  end.
Proof.
  intros Hwf Hno. pose proof Hwf as (Hdb & Hids & Ht).
  unfold signupUser, User_findOne_email, hash_password, save_user, sign_token.
  js_red. js_cases; intros f Hf; destruct (Hno f Hf) as [He|Hi];
    first [by left | right]; try done;
    (apply image_of_save_user; [simpl; by rewrite ids_below_fresh_user|
                                 first [by left|right; by simplify_eq/=]]).
Qed.

Lemma getUsers_no_orphans req w e :
  no_orphans e w -> no_orphans e (final (getUsers req) w).
Proof. intros Hno. unfold getUsers, User_find_all. js_red. js_cases. Qed.
Lemma getUserById_no_orphans req w e :
  no_orphans e w -> no_orphans e (final (getUserById req) w).
Proof. intros Hno. unfold getUserById, User_findById. js_red. js_cases. Qed.
Lemma loginUser_no_orphans req w e :
  no_orphans e w -> no_orphans e (final (loginUser req) w).
Proof.
  intros Hno. unfold loginUser, User_findOne_email, compare_password, sign_token.
  js_red. js_cases.
Qed.
End Properties.

(** ** Witnesses on the demo database *)

Section Witnesses.
#[local] Existing Instance demo_credentials.

Definition req_body (body : list (string * string)) (file : option string) : Request :=
  mkRequest [] body file None [].

Lemma signupUser_duplicate_422_witness :
  signupUser (req_body [("name", "Bob"); ("email", "ann@example.com"); ("password", "123456")]
                       (Some "uploads/images/bob.png")) demo_world =
  (Ok (Next (HttpErr "User already exists, please sign in" 422)), drop_fault demo_world).
Proof.
  apply (signupUser_duplicate_422 _ demo_world demo_user); reflexivity.
Defined.

Lemma loginUser_success_witness :
  let req := req_body [("email", "Ann@Example.com"); ("password", "secret1")] None in
  exists token,
    outcome (loginUser req) demo_world =
      Ok (Reply 200 (auth_json (oid_to_string 0) "ann@example.com" token
                               "uploads/images/ann.png")) /\
    (forall t : Z, (t < 0 + token_lifetime)%Z ->
       jwt_verify t token =
       Some (mkPayload (oid_to_string 0) "ann@example.com" (0 + token_lifetime))) /\
    (forall t : Z, (0 + token_lifetime <= t)%Z -> jwt_verify t token = None).
Proof.
  intros req.
  apply (loginUser_success req demo_world "Ann@Example.com" "secret1" demo_user 12);
    reflexivity.
Defined.


Lemma signupUser_success_witness :
  let req := req_body [("name", "Bob"); ("email", "bob@example.com"); ("password", "123456")]
                      (Some "uploads/images/bob.png") in
  let u := mkUser 2 "Bob" "bob@example.com" "uploads/images/bob.png"
                  (bcrypt_hash "123456" 12) [] in
  exists token,
    signupUser req demo_world =
      (Ok (Reply 201 (auth_json (oid_to_string 2) "bob@example.com" token
                                "uploads/images/bob.png")),
       set_db (apply_write (w_db demo_world) (WSaveUser u))
         (mkWorld (w_db demo_world) 3 [] None (w_files demo_world) 0)) /\
    jwt_verify 0 token =
      Some (mkPayload (oid_to_string 2) "bob@example.com" (0 + token_lifetime)).
Proof.
  intros req u. apply (signupUser_success req demo_world "uploads/images/bob.png");
    reflexivity.
Defined.

Lemma getUserById_absent_throws_witness :
  outcome (getUserById (mkRequest [("uid", oid_to_string 4)] [] None None [])) demo_world =
  Throw (TypeErr "Cannot read properties of null (reading 'toObject')").
Proof. apply (getUserById_absent_throws _ demo_world 4); reflexivity. Defined.
End Witnesses.

(** ** Library calls of the handlers *)

Lemma hash_password_costs `{CredentialService} pw : costs pending 1 (hash_password pw).
Proof. unfold hash_password. costs_run. Qed.

Lemma compare_password_costs `{CredentialService} pw h : costs pending 1 (compare_password pw h).
Proof. unfold compare_password. costs_run. Qed.

Lemma sign_token_costs `{CredentialService} uid em : costs pending 1 (sign_token uid em).
Proof. unfold sign_token. costs_run. Qed.

#[export] Hint Resolve hash_password_costs compare_password_costs sign_token_costs : costs.

Lemma getUsers_costs req : costs pending 1 (getUsers req).
Proof. unfold getUsers. costs_run. Qed.

Lemma getUserById_costs req : costs pending 1 (getUserById req).
Proof. unfold getUserById. costs_run. Qed.

Lemma signupUser_costs `{CredentialService} req : costs pending 4 (signupUser req).
Proof. unfold signupUser. costs_run. Qed.

Lemma loginUser_costs `{CredentialService} req : costs pending 3 (loginUser req).
Proof. unfold loginUser. costs_run. Qed.

#[export] Hint Resolve getUsers_costs getUserById_costs signupUser_costs loginUser_costs : costs.
