(* ===== verification/Routes.v ===== *)
(** * Routes: the route tables and their input checks
    (src/node-express-backend/routes/places-routes.js, users-routes.js)

    A route is selected by method and path (the path below the router's
    mount point, as a list of segments).  Each route lists its middleware
    in order: the upload of the image ([fileUpload.single('image')],
    middleware/file-upload.js, not under src/), the express-validator
    chains, and the handler.  The places router runs the authentication
    middleware ([router.use(auth)], middleware/check-auth.js, not under
    src/) after its two GET routes, for every request that reaches it.

    The checks are those of the route files: [not().isEmpty()] fails on an
    absent or empty field, [isLength({ min: n })] on a shorter one;
    [isEmail] and [normalizeEmail] are validator.js functions, given by
    the [EmailRules] interface.  A chain reports the field when it fails;
    [validationResult(req)] is the list of failed fields.  [check(f)]
    also finds a field in the query, the params, the headers and the
    cookies; the model reads [req.body] only, where the claims put it. *)

From stdpp Require Import base strings list.
From Stdlib Require Import ZArith String.
From S2P Require Import Prelude Http.

Class EmailRules := {
  is_email : string -> bool;
  normalize_email : string -> string
}.

(** ** The checks *)

(** [check(f).not().isEmpty()]: express-validator reads an absent field
    as [''].  *)
Definition not_empty (v : option string) : bool :=
  negb (String.eqb (default "" v) "").

(** [check(f).isLength({ min: n })] *)
Definition min_length (n : nat) (v : option string) : bool :=
  Nat.leb n (String.length (default "" v)).

Definition check_field (f : string) (test : option string -> bool)
  (body : list (string * string)) : list string :=
  if test (lookup_field f body) then [] else [f].

(** places-routes.js, POST / *)
Definition create_place_checks (body : list (string * string)) : list string :=
  check_field "title" not_empty body ++
  check_field "description" (min_length 5) body ++
  check_field "address" not_empty body.

(** places-routes.js, PATCH /:pid *)
Definition update_place_checks (body : list (string * string)) : list string :=
  check_field "title" not_empty body ++
  check_field "description" (min_length 5) body.

(** Replace the value of a field ([normalizeEmail] sanitizes the body in
    place). *)
Definition set_field (f v : string) (body : list (string * string)) : list (string * string) :=
  map (fun kv => if String.eqb (fst kv) f then (f, v) else kv) body.

Section Signup.
Context `{EmailRules}.

(** users-routes.js, POST /signup: the three chains, and the body as the
    sanitizer leaves it. *)
Definition signup_checks (body : list (string * string)) : list string :=
  check_field "name" not_empty body ++
  check_field "email" (fun v => is_email (default "" v)) body ++
  check_field "password" (min_length 6) body.

Definition signup_sanitize (body : list (string * string)) : list (string * string) :=
  match lookup_field "email" body with
  | Some e => set_field "email" (normalize_email e) body
  | None => body
  end.
End Signup.

(** ** The route tables *)

(** [HEAD] is routed as [GET]: express 4's [Route] answers a HEAD request
    with the route's GET handler when it has no HEAD handler, and sends
    the status and headers without the body. *)
Inductive method : Type := GET | HEAD | POST | PATCH | DELETE | OTHER_METHOD.

#[export] Instance method_eq_dec : EqDecision method.
Proof. solve_decision. Defined.

(** The handlers a request can reach. *)
Inductive endpoint : Type :=
| EGetPlace | EPlacesByUser | ECreatePlace | EUpdatePlace | EDeletePlace
| EGetUsers | EGetUser | ESignup | ELogin.

(** A matched route: its endpoint, its path parameters, whether it takes
    an upload, and its validation chains (the failed fields, and the body
    as the sanitizers leave it). *)
Record route := mkRoute {
  rt_endpoint : endpoint;
  rt_params : list (string * string);
  rt_upload : bool;
  rt_validate : list (string * string) -> list string * list (string * string)
}.

Definition no_checks (body : list (string * string)) : list string * list (string * string) :=
  ([], body).

Definition checks_only (c : list (string * string) -> list string)
  (body : list (string * string)) : list string * list (string * string) :=
  (c body, body).

(** places-routes.js, the two routes before [router.use(auth)]. *)
Definition places_public_route (m : method) (path : list string) : option route :=
  match m, path with
  | (GET | HEAD), [pid] => Some (mkRoute EGetPlace [("pid", pid)] false no_checks)
  | (GET | HEAD), ["user"; uid] => Some (mkRoute EPlacesByUser [("uid", uid)] false no_checks)
  | _, _ => None
  end.

(** places-routes.js, the routes after [router.use(auth)]. *)
Definition places_auth_route (m : method) (path : list string) : option route :=
  match m, path with
  | POST, [] => Some (mkRoute ECreatePlace [] true (checks_only create_place_checks))
  | PATCH, [pid] =>
      Some (mkRoute EUpdatePlace [("pid", pid)] false (checks_only update_place_checks))
  | DELETE, [pid] => Some (mkRoute EDeletePlace [("pid", pid)] false no_checks)
  | _, _ => None
  end.

(** users-routes.js *)
Definition users_route `{EmailRules} (m : method) (path : list string) : option route :=
  match m, path with
  | (GET | HEAD), [] => Some (mkRoute EGetUsers [] false no_checks)
  | (GET | HEAD), [uid] => Some (mkRoute EGetUser [("uid", uid)] false no_checks)
  | POST, ["signup"] =>
      Some (mkRoute ESignup [] true (fun body => (signup_checks body, signup_sanitize body)))
  | POST, ["login"] => Some (mkRoute ELogin [] false no_checks)
  | _, _ => None
  end.

(** ** Which routes take an upload *)

Lemma places_public_route_no_upload m path rt :
  places_public_route m path = Some rt ->
  rt_upload rt = false /\ rt_endpoint rt <> ECreatePlace.
Proof. unfold places_public_route. intros Hr. repeat case_match; by simplify_eq. Qed.

(** A GET before the gate reaches one of the two read handlers. *)
Lemma places_public_route_get rest rt :
  places_public_route GET rest = Some rt ->
  rt_upload rt = false /\ (rt_endpoint rt = EGetPlace \/ rt_endpoint rt = EPlacesByUser).
Proof. intros Hr. unfold places_public_route in Hr. repeat case_match; simplify_eq/=; auto. Qed.

(** No route behind the gate answers GET. *)
Lemma places_auth_route_get rest : places_auth_route GET rest = None.
Proof. by destruct rest as [|? [|? ?]]. Qed.

Lemma places_auth_route_upload m path rt :
  places_auth_route m path = Some rt -> rt_upload rt = true -> rt_endpoint rt = ECreatePlace.
Proof. unfold places_auth_route. intros Hr. repeat case_match; by simplify_eq. Qed.

Lemma users_route_upload `{EmailRules} m path rt :
  users_route m path = Some rt ->
  (rt_upload rt = true -> rt_endpoint rt = ESignup) /\ rt_endpoint rt <> ECreatePlace.
Proof. unfold users_route. intros Hr. repeat case_match; by simplify_eq. Qed.


(** ** What the checks accept *)

Lemma check_field_nil f test body :
  check_field f test body = [] <-> test (lookup_field f body) = true.
Proof. unfold check_field. by destruct (test _). Qed.

Lemma not_empty_spec v : not_empty v = true <-> exists s, v = Some s /\ s <> "".
Proof.
  unfold not_empty. destruct v as [s|]; simpl; [|naive_solver].
  rewrite negb_true_iff, String.eqb_neq. naive_solver.
Qed.

(** C23 (create_place_checks_spec): the chains of [POST /api/places]
    accept a body exactly when its title is present and not empty, its
    description has at least five characters (an absent one counts as
    empty), and its address is present and not empty; a four-character
    description is refused, a five-character one is not. *)
Theorem create_place_checks_spec body :
  create_place_checks body = [] <->
  (exists t, lookup_field "title" body = Some t /\ t <> "") /\
  (5 <= String.length (default "" (lookup_field "description" body)))%nat /\
  (exists a, lookup_field "address" body = Some a /\ a <> "").
Proof.
  unfold create_place_checks, min_length.
  rewrite !app_nil, !check_field_nil, !not_empty_spec, Nat.leb_le. done.
Qed.
