(* ===== verification/App.v ===== *)
(** * App: the request pipeline (src/app.js) and the server as a state machine

    app.js installs, in order: [bodyParser.json()], the static files under
    [/uploads/images], the CORS headers, the users router under
    [/api/users], the places router under [/api/places], a fallback that
    throws the 404 [HttpError], and the error handler, which deletes the
    uploaded file of a failed request and answers
    [res.status(err.code || 500).json({ message })].

    [app] runs one request through this pipeline on the world, with the
    two middleware the routes use and that are not under src/, modelled
    from the spec: the upload ([fileUpload.single('image')] stores the
    file and sets [req.file]) and the authentication gate (a bearer token
    that verifies at the current time sets [req.userData.userId];
    anything else is the 403 [HttpError] ["Authentication failed!"]).
    An exception escaping an async handler is not forwarded by express 4:
    no response is sent ([NoResponse]).  Responses are modelled by their
    status and body: the CORS headers, which change neither nor the
    state, are not modelled.

    A HEAD request is routed as a GET, by express.static and by the
    routers' [router.get] routes.  The error handler's status is
    [err.code || 500] as Node's [writeHead] reads it: wrapped to 32 bits,
    a numeric string read as a number, and anything outside 100-999
    refused, which express answers with its own 500.

    [serve] is one whole request; [step] adds the passage of time and
    lets the environment choose the fault oracle of each request;
    [reachable] worlds are those reached from an empty database.  Each
    stage has its cost in fallible library calls, and a request makes at most six.
    The invariants of reachable worlds (consistency, no orphan files) are
    proved here from the handlers' lemmas; Sessions.v runs sequences of
    requests through the whole pipeline. *)

From stdpp Require Import base gmap strings list.
From Stdlib Require Import ZArith NArith String Ascii.
From S2P Require Import Prelude ObjectId Http Store Geocode Places Credentials Users Routes.

Local Open Scope Z_scope.

(** An HTTP request as it reaches express. *)
Record HttpRequest := mkHttpRequest {
  hr_method : method;
  hr_path : list string;                         (* URL path segments *)
  hr_authorization : option string;              (* Authorization header *)
  hr_body : option (list (string * string));     (* None: malformed JSON *)
  hr_upload : option string                      (* where multer stores the image *)
}.

Inductive response : Type :=
| Respond (status : Z) (body : json)
| SendFile (path : string)
| NoResponse.

(** ** The error handler (app.js, 34-46) *)

(** [x | 0], ToInt32: the 32-bit two's complement wrap that Node's
    [writeHead] applies to [res.statusCode] ([statusCode |= 0]). *)
Definition to_int32 (z : Z) : Z :=
  let m := z mod 2 ^ 32 in if m <? 2 ^ 31 then m else m - 2 ^ 32.

(** ToNumber of a string of decimal digits; any other string is [NaN]
    here ([None]), which [| 0] turns into 0. *)
Fixpoint dec_digits (s : string) (acc : Z) : option Z :=
  match s with
  | EmptyString => Some acc
  | String c s' =>
      let n := Z.of_nat (nat_of_ascii c) in
      if (48 <=? n) && (n <=? 57) then dec_digits s' (acc * 10 + (n - 48)) else None
  end.

Definition dec_value (s : string) : option Z :=
  match s with EmptyString => None | _ => dec_digits s 0 end.

(** [writeHead]: the status after [| 0], or [None] when it is outside
    100-999 and Node throws [ERR_HTTP_INVALID_STATUS_CODE]. *)
Definition node_status (z : Z) : option Z :=
  let c := to_int32 z in if (100 <=? c) && (c <=? 999) then Some c else None.

(** [res.status(err.code || 500)] as Node sends it: a falsy code (none,
    [0], [""]) gives 500; a number or a numeric string is wrapped and
    checked by [writeHead]; [None] means [writeHead] throws and express's
    final handler answers 500 with its own page. *)
Definition error_status (e : js_error) : option Z :=
  match err_code e with
  | None => Some 500
  | Some (CodeNum z) => if Z.eqb z 0 then Some 500 else node_status z
  | Some (CodeStr s) =>
      if String.eqb s "" then Some 500 else node_status (default 0 (dec_value s))
  end.

(** [err.message || "An unknown error occurred"] *)
Definition error_message (e : js_error) : string :=
  if String.eqb (err_message e) "" then "An unknown error occurred" else err_message e.

Definition error_handler (file : option string) (e : js_error) : M response :=
  (match file with Some p => fs_unlink p | None => mret tt end);;
  match error_status e with
  | Some s => mret (Respond s (JObj [("message", JStr (error_message e))]))
  | None => mret (Respond 500 (JStr "Internal Server Error"))
  end.

(** app.js, 29-32 *)
Definition not_found : M response :=
  error_handler None (HttpErr "Could not find this route." 404).

(** ** The middleware not under src/ *)

(** [req.headers.authorization.split(' ')[1]] *)
Fixpoint after_space (s : string) : string :=
  match s with
  | EmptyString => EmptyString
  | String " "%char rest => rest
  | String _ rest => after_space rest
  end.

Fixpoint until_space (s : string) : string :=
  match s with
  | EmptyString => EmptyString
  | String " "%char _ => EmptyString
  | String c rest => String c (until_space rest)
  end.

Definition bearer_token (h : string) : string := until_space (after_space h).

Section Pipeline.
Context `{GeocodingApi} `{CredentialService} `{EmailRules}.

(** middleware/check-auth.js: the user id of a valid token, or the 403. *)
Definition check_auth (authorization : option string) : M (js_error + string) :=
  match authorization with
  | None => mret (inl (HttpErr "Authentication failed!" 403))
  | Some h =>
      let token := bearer_token h in
      if String.eqb token "" then mret (inl (HttpErr "Authentication failed!" 403))
      else
        now ← gets w_now;
        match jwt_verify now token with
        | Some pl => mret (inr (tk_userId pl))
        | None => mret (inl (HttpErr "Authentication failed!" 403))
        end
  end.

(** middleware/file-upload.js: store the upload, [req.file]. *)
Definition upload (rt : route) (f : option string) : M (option string) :=
  if rt_upload rt then
    match f with
    | Some p => modify (fun w => set_files ({[p]} ∪ w_files w) w);; mret (Some p)
    | None => mret None
    end
  else mret None.

Definition run_endpoint (e : endpoint) : Request -> M reply :=
  match e with
  | EGetPlace => getPlaceById
  | EPlacesByUser => getPlacesByUserId
  | ECreatePlace => createPlace
  | EUpdatePlace => updatePlace
  | EDeletePlace => deletePlace
  | EGetUsers => getUsers
  | EGetUser => getUserById
  | ESignup => signupUser
  | ELogin => loginUser
  end.

(** A matched route: upload, checks, handler, then the response or the
    error handler. *)
Definition run_route (rt : route) (hr : HttpRequest) (userId : option string) : M response :=
  file ← upload rt (hr_upload hr);
  let '(errors, body) := rt_validate rt (default [] (hr_body hr)) in
  r ← attempt (run_endpoint (rt_endpoint rt) (mkRequest (rt_params rt) body file userId errors));
  match r with
  | inl _ => mret NoResponse
  | inr (Reply s b) => mret (Respond s b)
  | inr (Next e) => error_handler file e
  end.

(** Where express sends a request: the static files, a route of the
    users router, a route of the places router before its auth gate, the
    rest of the places router (behind the gate), or nowhere. *)
Inductive target : Type :=
| TStatic (f : string)
| TUsers (rt : route)
| TPlacesPublic (rt : route)
| TPlacesGated (m : method) (rest : list string)
| TNotFound.

(** app.js, 17 and 26-27, with the routers' public routes. *)
Definition resolve (m : method) (path : list string) : target :=
  match m, path with
  | (GET | HEAD), ["uploads"; "images"; f] => TStatic f
  | m, "api" :: "users" :: rest =>
      match users_route m rest with
      | Some rt => TUsers rt
      | None => TNotFound
      end
  | m, "api" :: "places" :: rest =>
      match places_public_route m rest with
      | Some rt => TPlacesPublic rt
      | None => TPlacesGated m rest
      end
  | _, _ => TNotFound
  end.

(** The pipeline of app.js, 15-46. *)
Definition app (hr : HttpRequest) : M response :=
  match hr_body hr with
  | None => error_handler None (LibErr "Unexpected token in JSON" None)
  | Some _ =>
      match resolve (hr_method hr) (hr_path hr) with
      | TStatic f =>
          files ← gets w_files;
          let p := ("uploads/images/" ++ f)%string in
          if bool_decide (p ∈ files) then mret (SendFile p) else not_found
      | TUsers rt => run_route rt hr None
      | TPlacesPublic rt => run_route rt hr None
      | TPlacesGated m rest =>
          a ← check_auth (hr_authorization hr);
          match a with
          | inl e => error_handler None e
          | inr uid =>
              match places_auth_route m rest with
              | Some rt => run_route rt hr (Some uid)
              | None => not_found
              end
          end
      | TNotFound => not_found
      end
  end.

(** One whole request: its response and the world after it, where a
    transaction left open has been aborted. *)
Definition serve (hr : HttpRequest) (w : World) : response * World :=
  match app hr w with
  | (Ok r, w') => (r, end_request w')
  | (Throw _, w') => (NoResponse, end_request w')
  end.

(** ** The server as a state machine *)

Definition set_faults (fs : list bool) (w : World) : World :=
  mkWorld (w_db w) (w_next w) fs (w_txn w) (w_files w) (w_now w).

Definition set_now (t : Z) (w : World) : World :=
  mkWorld (w_db w) (w_next w) (w_faults w) (w_txn w) (w_files w) t.

Inductive step : World -> World -> Prop :=
| step_serve w fs hr r w' :
    serve hr (set_faults fs w) = (r, w') -> step w w'
| step_clock w dt :
    (0 <= dt)%Z -> step w (set_now (w_now w + dt) w).

Definition initial_world (t : Z) : World := mkWorld (mkDb ∅ ∅) 0 [] None ∅ t.

Inductive reachable : World -> Prop :=
| reachable_init t : reachable (initial_world t)
| reachable_step w w' : reachable w -> step w w' -> reachable w'.
End Pipeline.

(** ** The invariant holds in every reachable world *)

(** Only the signup and create routes take an upload, and only the
    places router behind its gate reaches [createPlace]. *)
Lemma resolve_upload `{EmailRules} m path :
  match resolve m path with
  | TUsers rt => (rt_upload rt = true -> rt_endpoint rt = ESignup) /\ rt_endpoint rt <> ECreatePlace
  | TPlacesPublic rt => rt_upload rt = false /\ rt_endpoint rt <> ECreatePlace
  | _ => True
  end.
Proof.
  unfold resolve. repeat case_match; simplify_eq; try done;
    eauto using users_route_upload, places_public_route_no_upload.
Qed.


(** ** Every request settles after a bounded number of library calls *)

Lemma error_handler_costs file e : costs pending 0 (error_handler file e).
Proof. unfold error_handler. costs_run. Qed.

Lemma not_found_costs : costs pending 0 not_found.
Proof. apply error_handler_costs. Qed.

Lemma check_auth_costs `{CredentialService} a : costs pending 0 (check_auth a).
Proof. unfold check_auth. costs_run. Qed.

Lemma upload_costs rt f : costs pending 0 (upload rt f).
Proof. unfold upload. costs_run. Qed.

#[export] Hint Resolve error_handler_costs not_found_costs check_auth_costs upload_costs : costs.

(** The dearest handler is [deletePlace]: six library calls. *)
Lemma run_endpoint_costs `{GeocodingApi} `{CredentialService} e req :
  costs pending 6 (run_endpoint e req).
Proof. destruct e; simpl; (eapply costs_weaken; [solve [eauto with costs] | lia]). Qed.
#[export] Hint Resolve run_endpoint_costs : costs.

Lemma run_route_costs `{GeocodingApi} `{CredentialService} rt hr uid :
  costs pending 6 (run_route rt hr uid).
Proof. unfold run_route. costs_run. Qed.
#[export] Hint Resolve run_route_costs : costs.

Lemma app_costs `{GeocodingApi} `{CredentialService} `{EmailRules} hr :
  costs pending 6 (app hr).
Proof. unfold app. costs_run. Qed.

(** C12 (serve_awaits_bounded): every request settles: whatever the
    request, the data and the failures, the server has answered (or given
    up) after at most six calls to the database, bcrypt and jsonwebtoken
    that may fail (the awaited ones and [jwt.sign]).  No handler loops
    or retries; a successful
    [deletePlace] makes six. *)
Theorem serve_awaits_bounded `{GeocodingApi} `{CredentialService} `{EmailRules} hr w :
  (pending w <= pending (snd (serve hr w)) + 6)%nat.
Proof.
  pose proof (app_costs hr w) as Hc. unfold serve, final in *.
  destruct (app hr w) as [[] w']; exact Hc.
Qed.

Section Invariant.
Context `{GeocodingApi} `{CredentialService} `{EmailRules}.

(** [world_wf] after a request does not depend on the files or on the
    fault oracle. *)
Lemma world_wf_end_request_files w f :
  world_wf (end_request (set_files f w)) <-> world_wf (end_request w).
Proof. reflexivity. Qed.

Lemma world_wf_end_request w : world_wf w -> world_wf (end_request w).
Proof. by intros (? & ? & ?). Qed.

Lemma endpoint_preserves_wf e req w :
  world_wf w -> world_wf (end_request (final (run_endpoint e req) w)).
Proof.
  destruct e; simpl.
  - apply getPlaceById_preserves_wf.
  - apply getPlacesByUserId_preserves_wf.
  - apply createPlace_preserves_wf.
  - apply updatePlace_preserves_wf.
  - apply deletePlace_preserves_wf.
  - apply getUsers_preserves_wf.
  - apply getUserById_preserves_wf.
  - apply signupUser_preserves_wf.
  - apply loginUser_preserves_wf.
Qed.

Lemma error_handler_wf file e w :
  world_wf (end_request w) -> world_wf (end_request (final (error_handler file e) w)).
Proof. unfold error_handler, fs_unlink. intros Hw. js_red. js_cases. Qed.

Lemma upload_wf rt f w :
  world_wf w -> exists file w1, upload rt f w = (Ok file, w1) /\ world_wf w1.
Proof.
  intros Hw. unfold upload. destruct (rt_upload rt), f; eexists _, _; split; done.
Qed.

Lemma run_route_wf rt hr uid w :
  world_wf w -> world_wf (end_request (final (run_route rt hr uid) w)).
Proof.
  intros Hw. destruct (upload_wf rt (hr_upload hr) w Hw) as (file & w1 & Hu & Hw1).
  unfold final, run_route. rewrite run_bind, Hu.
  destruct (rt_validate rt _) as [errors body].
  pose proof (endpoint_preserves_wf (rt_endpoint rt)
                (mkRequest (rt_params rt) body file uid errors) w1 Hw1) as He.
  unfold final in He. js_red.
  destruct (run_endpoint _ _ w1) as [[[s b|e]|e] w2]; simpl in *;
    [done|by apply error_handler_wf|done].
Qed.

Lemma app_preserves_wf hr w :
  world_wf w -> world_wf (end_request (final (app hr) w)).
Proof.
  intros Hw. pose proof (world_wf_end_request w Hw) as Hw'.
  unfold app, not_found. destruct (hr_body hr); [|by apply error_handler_wf].
  destruct (resolve _ _) as [f|rt|rt|m rest|]; try by apply run_route_wf.
  - js_red. case_bool_decide; [done|by apply error_handler_wf].
  - unfold check_auth. js_red.
    repeat (case_match; simplify_eq/=);
      first [assumption | by apply error_handler_wf | by apply run_route_wf].
  - by apply error_handler_wf.
Qed.

(** ** No orphan files: the pipeline *)

Lemma error_handler_no_orphans file e w :
  no_orphans file w -> no_orphans None (final (error_handler file e) w).
Proof.
  unfold error_handler, fs_unlink, no_orphans. intros Hno f Hf.
  destruct file as [p|]; js_red; js_cases;
    rewrite ?elem_of_difference, ?elem_of_singleton in Hf; destruct_and?;
    (destruct (Hno f) as [?|?]; [done|congruence|by right]).
Qed.

Lemma endpoint_no_orphans e req w :
  world_wf w -> no_orphans None w -> req_file req = None ->
  (e = ECreatePlace -> req_userId req <> None) ->
  no_orphans None (final (run_endpoint e req) w).
Proof.
  intros Hwf Hno Hf Hu. destruct e; simpl.
  - by apply getPlaceById_no_orphans.
  - by apply getPlacesByUserId_no_orphans.
  - pose proof (createPlace_no_orphans req w Hwf) as Hc. rewrite Hf in Hc.
    specialize (Hc Hno (Hu eq_refl)). unfold final.
    destruct (createPlace req w) as [[[]|] w']; done.
  - by apply updatePlace_no_orphans.
  - by apply deletePlace_no_orphans.
  - by apply getUsers_no_orphans.
  - by apply getUserById_no_orphans.
  - pose proof (signupUser_no_orphans req w Hwf) as Hc. rewrite Hf in Hc.
    specialize (Hc Hno). unfold final. destruct (signupUser req w) as [[[]|] w']; done.
  - by apply loginUser_no_orphans.
Qed.
Lemma run_route_no_orphans rt hr uid w :
  world_wf w -> no_orphans None w ->
  (rt_upload rt = true -> rt_endpoint rt = ECreatePlace \/ rt_endpoint rt = ESignup) ->
  (rt_endpoint rt = ECreatePlace -> uid <> None) ->
  no_orphans None (final (run_route rt hr uid) w).
Proof.
  intros Hwf Hno Hup Huid. unfold final, run_route, upload.
  destruct (rt_validate rt _) as [errors body].
  destruct (rt_upload rt) eqn:Hu; [destruct (hr_upload hr) as [path|]|]; js_red.
  2-3: pose proof (endpoint_no_orphans (rt_endpoint rt)
                   (mkRequest (rt_params rt) body None uid errors) w Hwf Hno eq_refl Huid) as Hc;
    unfold final in Hc; destruct (run_endpoint _ _ w) as [[[s b|e]|e] w2]; js_red;
    [done|by apply error_handler_no_orphans|done].
  assert (no_orphans (Some path) (set_files ({[path]} ∪ w_files w) w)) as Hno1.
  { intros f Hf. apply elem_of_union in Hf as [Hf|Hf]; [left; set_solver|].
    destruct (Hno f Hf) as [?|?]; [done|by right]. }
  destruct (Hup eq_refl) as [He|He]; rewrite He; simpl.
  - pose proof (createPlace_no_orphans (mkRequest (rt_params rt) body (Some path) uid errors)
                  (set_files ({[path]} ∪ w_files w) w) Hwf Hno1 (Huid He)) as Hc.
    destruct (createPlace _ _) as [[[s b|e]|e] w2]; js_red;
      [done|by apply error_handler_no_orphans|done].
  - pose proof (signupUser_no_orphans (mkRequest (rt_params rt) body (Some path) uid errors)
                  (set_files ({[path]} ∪ w_files w) w) Hwf Hno1) as Hc.
    destruct (signupUser _ _) as [[[s b|e]|e] w2]; js_red;
      [done|by apply error_handler_no_orphans|done].
Qed.
Lemma app_no_orphans hr w :
  world_wf w -> no_orphans None w -> no_orphans None (end_request (final (app hr) w)).
Proof.
  intros Hw Hno. change (no_orphans None (final (app hr) w)).
  unfold app, not_found. destruct (hr_body hr); [|by apply error_handler_no_orphans].
  pose proof (resolve_upload (hr_method hr) (hr_path hr)) as Hr.
  destruct (resolve _ _) as [f|rt|rt|m rest|].
  - js_red. case_bool_decide; [done|by apply error_handler_no_orphans].
  - destruct Hr as [Hup Hc]. apply run_route_no_orphans; [done|done|naive_solver|done].
  - destruct Hr as [Hup Hc]. apply run_route_no_orphans; [done|done|congruence|done].
  - unfold check_auth. js_red.
    repeat (case_match; simplify_eq/=); try done.
    match goal with Hrt : places_auth_route _ _ = Some ?rt |- _ =>
      apply (run_route_no_orphans rt); [done|done| |done];
      intros Hup; left; by eapply places_auth_route_upload end.
  - by apply error_handler_no_orphans.
Qed.

(** C1 (reachable_world_wf): in every world reachable from an empty database,
    through any requests, any faults and any passage of time, the two
    collections are consistent (every place is listed by its existing
    creator and every listed place exists with that creator), emails are
    unique, every id is below the generator, and no transaction is
    open. *)
Theorem reachable_world_wf w : reachable w -> world_wf w.
Proof.
  induction 1 as [t|w w' Hr IH Hs].
  - unfold world_wf, initial_world. simpl. split_and!; done.
  - destruct Hs as [w fs hr r w' Hserve|w dt Hdt]; [|exact IH].
    pose proof (app_preserves_wf hr (set_faults fs w) IH) as Ha.
    unfold serve, final in *. destruct (app hr _) as [[] w'']; by simplify_eq.
Qed.
(** C2 (reachable_no_orphan_files): in every world reachable from an
    empty database, every file in the upload directory is the image of a
    stored place or user: a request that fails after its upload deletes
    the file again, and deleting a place deletes its image. *)
Theorem reachable_no_orphan_files w : reachable w -> no_orphans None w.
Proof.
  intros Hr. cut (world_wf w /\ no_orphans None w); [tauto|].
  induction Hr as [t|w w' Hr IH Hs].
  - split; [unfold world_wf, initial_world; simpl; split_and!; done|].
    intros f Hf. simpl in Hf. set_solver.
  - destruct IH as [Hwf Hno]. destruct Hs as [w fs hr r w' Hserve|w dt Hdt]; [|done].
    pose proof (app_preserves_wf hr (set_faults fs w) Hwf) as Ha.
    pose proof (app_no_orphans hr (set_faults fs w) Hwf Hno) as Hb.
    unfold serve, final in *. destruct (app hr _) as [[] w'']; by simplify_eq.
Qed.
End Invariant.

(** ** Whole requests *)

(** Select the route and its middleware. *)
Ltac route_red :=
  cbn [places_auth_route places_public_route users_route rt_upload rt_validate
       rt_endpoint rt_params checks_only no_checks run_endpoint default from_option id
       req_errors] in *.

Section Requests.
Context `{GeocodingApi} `{CredentialService} `{EmailRules}.

(** The body of an error response. *)
Definition message_json (m : string) : json := JObj [("message", JStr m)].

Lemma resolve_places m rest :
  resolve m ("api" :: "places" :: rest) =
  match places_public_route m rest with
  | Some rt => TPlacesPublic rt
  | None => TPlacesGated m rest
  end.
Proof. destruct m; reflexivity. Qed.

(** C13 (places_mutations_require_token): every [POST], [PATCH] or
    [DELETE] to [/api/places/...] (creating, updating or deleting a
    place), without a token that verifies at the current time, is
    answered 403 and changes nothing.  (A [HEAD] is routed as a [GET]
    and passes before the gate.) *)
Theorem places_mutations_require_token hr w body rest :
  hr_body hr = Some body ->
  hr_method hr = POST \/ hr_method hr = PATCH \/ hr_method hr = DELETE ->
  hr_path hr = "api" :: "places" :: rest ->
  (forall h, hr_authorization hr = Some h -> jwt_verify (w_now w) (bearer_token h) = None) ->
  serve hr w = (Respond 403 (message_json "Authentication failed!"), end_request w).
Proof.
  intros Hb Hm Hp Ha. unfold serve, app, check_auth. rewrite Hb, Hp, resolve_places.
  replace (places_public_route (hr_method hr) rest) with (@None route)
    by (destruct Hm as [->|[->| ->]]; by destruct rest as [|? [|? ?]]).
  destruct (hr_authorization hr) as [h|]; [|reflexivity].
  js_red. destruct (bearer_token h =? "")%string; [reflexivity|].
  js_red. by rewrite (Ha h eq_refl).
Qed.

(** C24 (create_place_invalid_422): an authenticated [POST /api/places] whose
    body fails the route's checks (e.g. an empty title) is answered 422,
    writes nothing, and its uploaded image is deleted again. *)
Theorem create_place_invalid_422 hr w body h pl path :
  hr_method hr = POST -> hr_path hr = ["api"; "places"] -> hr_body hr = Some body ->
  hr_authorization hr = Some h -> bearer_token h <> "" ->
  jwt_verify (w_now w) (bearer_token h) = Some pl ->
  hr_upload hr = Some path -> create_place_checks body <> [] ->
  let (r, w') := serve hr w in
  r = Respond 422 (message_json "Invalid inputs, please check your data") /\
  w_db w' = w_db w /\ path ∉ w_files w'.
Proof.
  intros Hm Hp Hb Hh Hne Hv Hu Hc. apply String.eqb_neq in Hne.
  unfold serve, app, check_auth, run_route, upload, createPlace, error_handler, fs_unlink.
  rewrite Hb, Hm, Hp.
  replace (resolve POST ["api"; "places"]) with (TPlacesGated POST []) by reflexivity.
  js_rewrite. route_red. unfold createPlace. rewrite bool_decide_true by done. js_red.
  split_and!; [done|done|set_solver].
Qed.

(** C30 (create_place_without_image_no_response): an authenticated
    [POST /api/places] with a valid body whose address resolves, but
    without an image, gets no response: [createPlace] reads
    [req.file.path] after geocoding, the TypeError escapes the async
    handler, and nothing is written. *)
Theorem create_place_without_image_no_response hr w body h pl g c l :
  hr_method hr = POST -> hr_path hr = ["api"; "places"] -> hr_body hr = Some body ->
  hr_authorization hr = Some h -> bearer_token h <> "" ->
  jwt_verify (w_now w) (bearer_token h) = Some pl ->
  hr_upload hr = None -> create_place_checks body = [] ->
  geocode_request (default "" (lookup_field "address" body)) = GeoOk (Some g) ->
  geo_status g <> "ZERO_RESULTS" -> geo_results g = c :: l ->
  serve hr w = (NoResponse, end_request w).
Proof.
  intros Hm Hp Hb Hh Hne Hv Hu Hc Hg Hs Hr. apply String.eqb_neq in Hne, Hs.
  unfold serve, app, check_auth, run_route, upload. rewrite Hb, Hm, Hp.
  replace (resolve POST ["api"; "places"]) with (TPlacesGated POST []) by reflexivity.
  js_rewrite. route_red. unfold createPlace, getCoordsForAddress, body_str, body_field.
  rewrite bool_decide_false by tauto. js_red. cbn [Http.req_body]. by rewrite Hg, Hs, Hr.
Qed.

(** A well-formed request that no route matches is
    answered 404 ["Could not find this route."] and changes nothing. *)
Theorem unmatched_route_404 hr w body :
  hr_body hr = Some body -> resolve (hr_method hr) (hr_path hr) = TNotFound ->
  serve hr w = (Respond 404 (message_json "Could not find this route."), end_request w).
Proof. intros Hb Hr. unfold serve, app. rewrite Hb, Hr. reflexivity. Qed.

(** C32 (update_place_invalid_no_response): an authenticated
    [PATCH /api/places/:pid] whose body fails the route's checks gets no
    response at all: the handler's [HttpError] call without [new] throws
    and the rejection escapes express. *)
Theorem update_place_invalid_no_response hr w body h pl pid :
  hr_method hr = PATCH -> hr_path hr = ["api"; "places"; pid] -> hr_body hr = Some body ->
  hr_authorization hr = Some h -> bearer_token h <> "" ->
  jwt_verify (w_now w) (bearer_token h) = Some pl ->
  update_place_checks body <> [] ->
  serve hr w = (NoResponse, end_request w).
Proof.
  intros Hm Hp Hb Hh Hne Hv Hc. apply String.eqb_neq in Hne.
  unfold serve, app, check_auth, run_route, upload, updatePlace.
  rewrite Hb, Hm, Hp.
  replace (resolve PATCH ["api"; "places"; pid]) with (TPlacesGated PATCH [pid]) by reflexivity.
  js_rewrite. route_red. unfold updatePlace. rewrite bool_decide_true by done. reflexivity.
Qed.
End Requests.

(** ** Witnesses *)

(** A stand-in for validator.js: an address has an [@]; normalizing
    lower-cases it. *)
Definition demo_email_rules : EmailRules :=
  {| is_email s := bool_decide ("@"%char ∈ list_ascii_of_string s);
     normalize_email := to_lower |}.

Section Witnesses.
#[local] Existing Instance demo_geocoder.
#[local] Existing Instance demo_credentials.
#[local] Existing Instance demo_email_rules.

(** Ann's token, signed at time 0. *)
Definition ann_token : string :=
  jwt_sign (mkPayload (oid_to_string 0) "ann@example.com" 3600).

Definition ann_request (m : method) (path : list string)
  (body : list (string * string)) (upload : option string) : HttpRequest :=
  mkHttpRequest m path (Some ("Bearer " ++ ann_token)%string) (Some body) upload.

Lemma reachable_world_wf_witness : world_wf (initial_world 0).
Proof. apply reachable_world_wf. constructor. Defined.

Lemma places_mutations_require_token_witness :
  let hr := mkHttpRequest DELETE ["api"; "places"; oid_to_string 1] None (Some []) None in
  serve hr demo_world =
  (Respond 403 (message_json "Authentication failed!"), end_request demo_world).
Proof.
  intros hr. apply (places_mutations_require_token hr demo_world [] [oid_to_string 1]);
    [reflexivity|right; right; reflexivity|reflexivity|discriminate].
Defined.

Lemma create_place_invalid_422_witness :
  let hr := ann_request POST ["api"; "places"]
              [("title", ""); ("description", "hi"); ("address", "1 Main St")]
              (Some "uploads/images/new.png") in
  let (r, w') := serve hr demo_world in
  r = Respond 422 (message_json "Invalid inputs, please check your data") /\
  w_db w' = w_db demo_world /\ "uploads/images/new.png" ∉ w_files w'.
Proof.
  intros hr.
  apply (create_place_invalid_422 hr demo_world
           [("title", ""); ("description", "hi"); ("address", "1 Main St")]
           ("Bearer " ++ ann_token)%string (mkPayload (oid_to_string 0) "ann@example.com" 3600)
           "uploads/images/new.png"); try reflexivity; vm_compute; discriminate.
Defined.

Lemma unmatched_route_404_witness :
  serve (mkHttpRequest GET ["api"] None (Some []) None) demo_world =
  (Respond 404 (message_json "Could not find this route."), end_request demo_world).
Proof. apply (unmatched_route_404 _ _ []); reflexivity. Defined.

Lemma update_place_invalid_no_response_witness :
  let hr := ann_request PATCH ["api"; "places"; oid_to_string 1]
              [("title", "Tower"); ("description", "tall")] None in
  serve hr demo_world = (NoResponse, end_request demo_world).
Proof.
  intros hr.
  apply (update_place_invalid_no_response hr demo_world
           [("title", "Tower"); ("description", "tall")] ("Bearer " ++ ann_token)%string
           (mkPayload (oid_to_string 0) "ann@example.com" 3600) (oid_to_string 1));
    try reflexivity; vm_compute; discriminate.
Defined.
Lemma reachable_no_orphan_files_witness :
  no_orphans None
    (snd (serve (mkHttpRequest POST ["api"; "users"; "signup"] None
                  (Some [("name", "Ann"); ("email", "ann@example.com"); ("password", "secret1")])
                  (Some "uploads/images/a.png"))
                (initial_world 0))).
Proof.
  apply reachable_no_orphan_files. apply (reachable_step (initial_world 0)); [constructor|].
  apply (step_serve _ [] (mkHttpRequest POST ["api"; "users"; "signup"] None
                  (Some [("name", "Ann"); ("email", "ann@example.com"); ("password", "secret1")])
                  (Some "uploads/images/a.png"))
           (fst (serve (mkHttpRequest POST ["api"; "users"; "signup"] None
                  (Some [("name", "Ann"); ("email", "ann@example.com"); ("password", "secret1")])
                  (Some "uploads/images/a.png"))
                       (initial_world 0)))).
  vm_compute. reflexivity.
Defined.

Lemma create_place_without_image_no_response_witness :
  let hr := ann_request POST ["api"; "places"]
              [("title", "Park"); ("description", "A green park"); ("address", "1 Main St")]
              None in
  serve hr demo_world = (NoResponse, end_request demo_world).
Proof.
  intros hr.
  apply (create_place_without_image_no_response hr demo_world
           [("title", "Park"); ("description", "A green park"); ("address", "1 Main St")]
           ("Bearer " ++ ann_token)%string (mkPayload (oid_to_string 0) "ann@example.com" 3600)
           (mkGeoData "OK" [mkCoords 40 (-74)]) (mkCoords 40 (-74)) []);
    try reflexivity; vm_compute; discriminate.
Defined.


(** Node's coercion of [err.code]: a numeric string is a status, a
    MongoDB error code or a non-numeric string is refused by [writeHead]. *)
Lemma error_status_examples :
  error_status (LibErr "m" (Some (CodeStr "404"))) = Some 404 /\
  error_status (LibErr "E11000 duplicate key" (Some (CodeNum 11000))) = None /\
  error_status (LibErr "m" (Some (CodeStr "ENOENT"))) = None.
Proof. split_and!; reflexivity. Qed.

(** A [HEAD] for a place is answered by [getPlaceById] without a token. *)
Lemma head_place_without_token :
  fst (serve (mkHttpRequest HEAD ["api"; "places"; oid_to_string 1] None (Some []) None)
         demo_world) = Respond 200 (JObj [("place", place_json true demo_place)]).
Proof. vm_compute. reflexivity. Qed.
End Witnesses.
