(* ===== verification/Sessions.v ===== *)
(** * Sessions: several requests through the whole pipeline

    A client's session is a sequence of requests whose later steps use
    what the earlier ones returned (a token) or stored (an account).  This
    file runs such sequences through [serve] (App.v): a login followed by
    a deletion with the returned token; a signup followed by a login with
    the same credentials; a signup whose token signing fails.  It also
    shows that no place is ever stuck: a consistent world can always take
    a step that deletes a given place. *)

From stdpp Require Import base gmap strings list.
From Stdlib Require Import ZArith NArith String Ascii.
From S2P Require Import Prelude ObjectId Http Store Geocode Places Credentials Users Routes App.

Local Open Scope Z_scope.

(** ** The requests of the sessions *)

(** [POST /api/users/login] with an email and a password. *)
Definition login_request (em pw : string) : HttpRequest :=
  mkHttpRequest POST ["api"; "users"; "login"] None
    (Some [("email", em); ("password", pw)]) None.

(** [POST /api/users/signup] with a name, an email, a password and an
    image. *)
Definition signup_request (nm em pw img : string) : HttpRequest :=
  mkHttpRequest POST ["api"; "users"; "signup"] None
    (Some [("name", nm); ("email", em); ("password", pw)]) (Some img).

(** [DELETE /api/places/:pid] with [Authorization: Bearer <token>]. *)
Definition delete_request (pid token : string) : HttpRequest :=
  mkHttpRequest DELETE ["api"; "places"; pid] (Some ("Bearer " ++ token)%string) (Some []) None.

(** Evaluate the request fields a handler reads. *)
Ltac fields_red :=
  repeat match goal with
  | |- context [body_field ?r ?k] =>
      let v := eval cbv -[normalize_email] in (body_field r k) in
      change (body_field r k) with v
  | |- context [param ?r ?k] =>
      let v := eval cbv in (param r k) in change (param r k) with v
  end; cbn [req_userId req_file req_errors default from_option id] in *.

Lemma until_space_no_space t : has_space t = false -> until_space t = t.
Proof.
  induction t as [|c t IH]; [done|]. simpl. intros [Hc Ht]%orb_false_iff.
  apply Ascii.eqb_neq in Hc. destruct c as [[] [] [] [] [] [] [] []];
    try (by rewrite IH); by destruct Hc.
Qed.

Section Session.
Context `{GeocodingApi} `{CredentialService} `{EmailRules}.

Lemma bearer_token_sign pl : bearer_token ("Bearer " ++ jwt_sign pl) = jwt_sign pl.
Proof. apply until_space_no_space, jwt_sign_shape. Qed.

(** A token signed by the service passes the gate before its expiry. *)
Lemma check_auth_sign pl w :
  w_now w < tk_exp pl ->
  check_auth (Some ("Bearer " ++ jwt_sign pl)%string) w = (Ok (inr (tk_userId pl)), w).
Proof.
  intros Ht. unfold check_auth. rewrite bearer_token_sign.
  destruct (jwt_sign_shape pl) as [Hne _]. rewrite (proj2 (String.eqb_neq _ _) Hne).
  js_red. rewrite jwt_verify_sign, (proj2 (Z.ltb_lt _ _) Ht). reflexivity.
Qed.

Lemma serve_login em pw w u rounds :
  w_faults w = [] -> w_txn w = None ->
  find_email (to_lower em) (w_db w) = Some u -> password u = bcrypt_hash pw rounds ->
  serve (login_request em pw) w =
  (Respond 200 (auth_json (oid_to_string (user_id u)) (email u)
     (jwt_sign (mkPayload (oid_to_string (user_id u)) (email u) (w_now w + token_lifetime)))
     (user_image u)), w).
Proof.
  intros Hf Ht Hu Hh. destruct w as [d n fs tx files now]; simpl in *; subst.
  unfold serve, app, login_request, run_route, upload.
  cbn [hr_body hr_method hr_path hr_upload hr_authorization].
  replace (resolve POST ["api"; "users"; "login"]) with
    (TUsers (mkRoute ELogin [] false no_checks)) by reflexivity.
  route_red. unfold loginUser, User_findOne_email, compare_password, sign_token.
  js_red. fields_red. js_rewrite.
  assert (bcrypt_compare pw (bcrypt_hash pw rounds) = true) as -> by
    (by apply bcrypt_compare_hash).
  reflexivity.
Qed.

Lemma serve_login_unknown em pw w :
  w_faults w = [] -> find_email (to_lower em) (w_db w) = None ->
  fst (serve (login_request em pw) w) = Respond 403 (message_json "Could not identify user").
Proof.
  intros Hf Hu. unfold serve, app, login_request, run_route, upload.
  cbn [hr_body hr_method hr_path hr_upload hr_authorization].
  replace (resolve POST ["api"; "users"; "login"]) with
    (TUsers (mkRoute ELogin [] false no_checks)) by reflexivity.
  route_red. unfold loginUser, User_findOne_email.
  js_red. fields_red. js_rewrite. reflexivity.
Qed.

(** C14 (login_token_deletes_own_place): in a consistent world, logging in
    with an account's password answers 200 with a token and changes
    nothing; presented as a bearer token at any time before it expires,
    that token lets the user delete a place they created: the request is
    answered 200, the place and the reference to it in the user's list
    are removed together, and its image is deleted. *)
Theorem login_token_deletes_own_place em pw w u rounds k p t :
  world_wf w -> w_faults w = [] ->
  find_email (to_lower em) (w_db w) = Some u -> password u = bcrypt_hash pw rounds ->
  db_places (w_db w) !! k = Some p -> creator p = user_id u ->
  t < w_now w + token_lifetime ->
  exists token,
    serve (login_request em pw) w =
      (Respond 200 (auth_json (oid_to_string (user_id u)) (email u) token (user_image u)), w) /\
    forall pid, oid_of_string pid = Some k ->
    let (r, w') := serve (delete_request pid token) (set_now t w) in
    r = Respond 200 (message_json "Deleted!") /\
    w_db w' = apply_writes (w_db w) [WRemovePlace k; WSaveUser (pull_place u p)] /\
    place_image p ∉ w_files w'.
Proof.
  intros Hwf Hf Hu Hh Hp Hc Ht. pose proof Hwf as ((Hpl & Hus & _) & _ & Htx).
  destruct (find_email_Some _ _ _ Hu) as (k' & Hk' & _).
  destruct (Hus _ _ Hk') as [Hid _]. subst k'. destruct (Hpl _ _ Hp) as [Hpid _].
  eexists. split; [by eapply serve_login|]. intros pid Hk.
  unfold serve, app, delete_request, set_now. cbn [hr_body hr_method hr_path hr_upload hr_authorization].
  replace (resolve DELETE ["api"; "places"; pid]) with (TPlacesGated DELETE [pid])
    by reflexivity.
  js_red. rewrite check_auth_sign by done. js_red.
  unfold run_route, upload. route_red.
  unfold deletePlace, Place_findById_populate, Place_findById, userData_userId, delete_txn,
    start_transaction, remove_place, save_user, commit_transaction, fs_unlink.
  js_red. fields_red. rewrite <-Hc in Hk'. js_rewrite.
  rewrite bool_decide_false by tauto. js_red.
  split_and!; [done|done|set_solver].
Qed.

(** C21 (signup_then_login_unknown): the signup route stores the email as
    [normalizeEmail] leaves it, while login looks up
    [email.toLowerCase()].  For an address that [normalizeEmail] changes
    beyond lower-casing (validator.js strips a gmail [+tag], for
    instance), a successful signup is followed by a login with the same
    email and password that is refused with 403 "Could not identify
    user". *)
Theorem signup_then_login_unknown nm em pw img w :
  w_faults w = [] ->
  signup_checks [("name", nm); ("email", em); ("password", pw)] = [] ->
  find_email (normalize_email em) (w_db w) = None ->
  find_email (to_lower em) (w_db w) = None ->
  normalize_email em <> to_lower em ->
  let (r1, w1) := serve (signup_request nm em pw img) w in
  (exists token,
     r1 = Respond 201 (auth_json (oid_to_string (w_next w)) (normalize_email em) token img)) /\
  fst (serve (login_request em pw) w1) = Respond 403 (message_json "Could not identify user").
Proof.
  intros Hf Hc Hn Hl Hne.
  unfold serve at 1, app, signup_request, run_route, upload.
  cbn [hr_body hr_method hr_path hr_upload hr_authorization].
  replace (resolve POST ["api"; "users"; "signup"]) with
    (TUsers (mkRoute ESignup [] true (fun body => (signup_checks body, signup_sanitize body))))
    by reflexivity.
  route_red. rewrite Hc.
  unfold signupUser, User_findOne_email, hash_password, save_user, sign_token.
  js_red. unfold body_str. fields_red. rewrite bool_decide_false by tauto.
  js_rewrite. split; [by eexists|].
  apply serve_login_unknown; [done|]. by apply find_email_save_other.
Qed.
(** C22 (signup_token_failure_dangling_image): when [jwt.sign] rejects after
    the new user has been saved, signup answers 500 and the error handler
    deletes the uploaded image, but the user stays stored with that image
    as its [image]: the account exists (a retry is refused as a
    duplicate) and its image file is gone. *)
Theorem signup_token_failure_dangling_image nm em pw img w :
  w_faults w = [false; false; false; true] ->
  signup_checks [("name", nm); ("email", em); ("password", pw)] = [] ->
  find_email (normalize_email em) (w_db w) = None ->
  let (r, w') := serve (signup_request nm em pw img) w in
  r = Respond 500 (message_json "Something went wrong signing up user") /\
  (exists u, db_users (w_db w') !! w_next w = Some u /\
             email u = normalize_email em /\ user_image u = img) /\
  img ∉ w_files w'.
Proof.
  intros Hf Hc Hn.
  unfold serve, app, signup_request, run_route, upload.
  cbn [hr_body hr_method hr_path hr_upload hr_authorization].
  replace (resolve POST ["api"; "users"; "signup"]) with
    (TUsers (mkRoute ESignup [] true (fun body => (signup_checks body, signup_sanitize body))))
    by reflexivity.
  route_red. rewrite Hc.
  unfold signupUser, User_findOne_email, hash_password, save_user, sign_token,
    error_handler, fs_unlink.
  js_red. unfold body_str. fields_red. rewrite bool_decide_false by tauto.
  js_rewrite. split_and!; [done| |set_solver].
  eexists. simpl. rewrite lookup_insert_eq. done.
Qed.
(** A request carrying a token of a place's owner deletes it. *)
Lemma serve_delete_owner pid k p u pl w :
  world_wf w -> w_faults w = [] -> oid_of_string pid = Some k ->
  db_places (w_db w) !! k = Some p -> db_users (w_db w) !! creator p = Some u ->
  tk_userId pl = oid_to_string (user_id u) -> w_now w < tk_exp pl ->
  let (r, w') := serve (delete_request pid (jwt_sign pl)) w in
  r = Respond 200 (message_json "Deleted!") /\
  w_db w' = apply_writes (w_db w) [WRemovePlace (place_id p); WSaveUser (pull_place u p)] /\
  place_image p ∉ w_files w'.
Proof.
  intros (_ & _ & Ht) Hf Hk Hp Hu Htk Hnow.
  unfold serve, app, delete_request. cbn [hr_body hr_method hr_path hr_upload hr_authorization].
  replace (resolve DELETE ["api"; "places"; pid]) with (TPlacesGated DELETE [pid])
    by reflexivity.
  js_red. rewrite check_auth_sign by done. js_red.
  unfold run_route, upload. route_red.
  unfold deletePlace, Place_findById_populate, Place_findById, userData_userId, delete_txn,
    start_transaction, remove_place, save_user, commit_transaction, fs_unlink.
  js_red. fields_red. js_rewrite. rewrite bool_decide_false by tauto. js_red.
  split_and!; [done|done|set_solver].
Qed.

(** C7 (place_deletable): no place is ever stuck.  In a consistent world,
    for every place (with an id below [2^96]) the server can take one
    step, a [DELETE /api/places/:pid] with a token issued to the place's
    owner: it answers 200, the place is gone,
    its owner's list no longer names it, and its image is deleted. *)
Theorem place_deletable w k p :
  world_wf w -> (k < oid_bound)%N -> db_places (w_db w) !! k = Some p ->
  exists token w',
    serve (delete_request (oid_to_string k) token) (set_faults [] w) =
      (Respond 200 (message_json "Deleted!"), w') /\
    step w w' /\ db_places (w_db w') !! k = None /\
    (forall u, db_users (w_db w') !! creator p = Some u -> k ∉ places u) /\
    place_image p ∉ w_files w'.
Proof.
  intros Hwf Hk Hp. pose proof Hwf as ((Hps & Hus & _) & _).
  destruct (Hps _ _ Hp) as [Hpid Hown].
  destruct (db_users (w_db w) !! creator p) as [u|] eqn:Hu; [|done].
  destruct (Hus _ _ Hu) as [Huid _].
  set (pl := mkPayload (oid_to_string (creator p)) "" (w_now w + 1)).
  set (hr := delete_request (oid_to_string k) (jwt_sign pl)).
  destruct (serve hr (set_faults [] w)) as [r w'] eqn:Hs.
  exists (jwt_sign pl), w'.
  pose proof (serve_delete_owner (oid_to_string k) k p u pl (set_faults [] w) Hwf eq_refl)
    as Hd.
  rewrite oid_parse_print, N.mod_small in Hd by done.
  specialize (Hd eq_refl Hp Hu). rewrite Huid in Hd. specialize (Hd eq_refl).
  fold hr in Hd. rewrite Hs in Hd. destruct Hd as (-> & Hdb & Hf); [simpl; lia|].
  split; [done|]. split; [by eapply step_serve|]. rewrite Hdb. unfold apply_writes. simpl. rewrite Hpid, Huid, lookup_delete_eq, lookup_insert_eq.
  split_and!; [done| |done]. intros ? [= <-]. simpl.
  rewrite elem_of_list_pull. naive_solver.
Qed.
End Session.

(** ** Witnesses *)

Section Witnesses.
#[local] Existing Instance demo_geocoder.
#[local] Existing Instance demo_credentials.
#[local] Existing Instance demo_email_rules.

Lemma login_token_deletes_own_place_witness :
  exists token,
    serve (login_request "Ann@Example.com" "secret1") demo_world =
      (Respond 200 (auth_json (oid_to_string 0) "ann@example.com" token
                      (user_image demo_user)), demo_world) /\
    forall pid, oid_of_string pid = Some 1%N ->
    let (r, w') := serve (delete_request pid token) (set_now 100 demo_world) in
    r = Respond 200 (message_json "Deleted!") /\
    w_db w' = apply_writes (w_db demo_world)
                [WRemovePlace 1; WSaveUser (pull_place demo_user demo_place)] /\
    place_image demo_place ∉ w_files w'.
Proof.
  apply (login_token_deletes_own_place "Ann@Example.com" "secret1" demo_world demo_user 12
           1 demo_place 100);
    first [apply (bool_decide_unpack _); vm_compute; reflexivity | reflexivity].
Defined.

Lemma signup_token_failure_dangling_image_witness :
  let w := set_faults [false; false; false; true] (initial_world 0) in
  let (r, w') := serve (signup_request "Bob" "bob@example.com" "secret2" "uploads/images/b.png") w in
  r = Respond 500 (message_json "Something went wrong signing up user") /\
  (exists u, db_users (w_db w') !! w_next w = Some u /\
             email u = normalize_email "bob@example.com" /\ user_image u = "uploads/images/b.png") /\
  "uploads/images/b.png" ∉ w_files w'.
Proof.
  intros w.
  apply (signup_token_failure_dangling_image "Bob" "bob@example.com" "secret2"
           "uploads/images/b.png" w); reflexivity.
Defined.
Lemma place_deletable_witness :
  exists token w',
    serve (delete_request (oid_to_string 1) token) (set_faults [] demo_world) =
      (Respond 200 (message_json "Deleted!"), w') /\
    step demo_world w' /\ db_places (w_db w') !! 1%N = None /\
    (forall u, db_users (w_db w') !! creator demo_place = Some u -> 1%N ∉ places u) /\
    place_image demo_place ∉ w_files w'.
Proof.
  apply (place_deletable demo_world 1 demo_place);
    [apply (bool_decide_unpack _); vm_compute; reflexivity|unfold oid_bound; lia|reflexivity].
Defined.
(** The bound is reached: Ann's deletion of her place makes six awaited
    calls. *)
Lemma serve_awaits_six :
  let w := set_faults [false; false; false; false; false; false] demo_world in
  (pending (snd (serve (delete_request (oid_to_string 1) ann_token) w)) + 6 = pending w)%nat.
Proof. vm_compute. reflexivity. Qed.
End Witnesses.

(** validator.js's [normalizeEmail] on a gmail address also removes a
    [+tag] from the local part. *)
Fixpoint strip_subaddress (skip : bool) (s : string) : string :=
  match s with
  | EmptyString => EmptyString
  | String c s' =>
      if Ascii.eqb c "@" then s
      else if skip || Ascii.eqb c "+" then strip_subaddress true s'
      else String c (strip_subaddress false s')
  end.

Definition gmail_email_rules : EmailRules :=
  {| is_email s := bool_decide ("@"%char ∈ list_ascii_of_string s);
     normalize_email s := to_lower (strip_subaddress false s) |}.

Section GmailWitness.
#[local] Existing Instance demo_geocoder.
#[local] Existing Instance demo_credentials.
#[local] Existing Instance gmail_email_rules.

Lemma signup_then_login_unknown_witness :
  let (r1, w1) := serve (signup_request "Ann" "ann+trips@gmail.com" "secret1" "uploads/images/a.png")
                    (initial_world 0) in
  (exists token,
     r1 = Respond 201 (auth_json (oid_to_string (w_next (initial_world 0)))
                        (normalize_email "ann+trips@gmail.com") token "uploads/images/a.png")) /\
  fst (serve (login_request "ann+trips@gmail.com" "secret1") w1) =
    Respond 403 (message_json "Could not identify user").
Proof.
  apply (signup_then_login_unknown "Ann" "ann+trips@gmail.com" "secret1" "uploads/images/a.png"
           (initial_world 0)); try reflexivity. vm_compute. discriminate.
Defined.
End GmailWitness.
