(* ===== verification/Responses.v ===== *)
(** * Responses: what the server can send

    The spec (sections 4 and 6) describes two shapes of response: a
    success echoes an entity or a list as a JSON object with 200 or 201,
    and a failure carries [{ message }] with the status of its class.
    app.js's error handler sends [res.status(err.code || 500)] and
    [res.json({ message })]; Node refuses a status outside 100-999, and
    express then answers 500 with its own plain-text page.

    [response_ok] is the type of what the server sends, by those rules;
    [reply_ok] is what a handler may pass to [res.json] itself.  The
    theorems: every handler replies only 200 or 201 with an object, and
    every response of the whole pipeline has type [response_ok]. *)

From stdpp Require Import base gmap strings list.
From Stdlib Require Import ZArith NArith String.
From S2P Require Import Prelude ObjectId Http Store Geocode Places Credentials Users Routes App.

Local Open Scope Z_scope.

(** What a handler sends with [res.status(s).json(b)]. *)
Definition reply_ok (r : reply) : Prop :=
  match r with
  | Reply s b => (s = 200 \/ s = 201) /\ exists fs, b = JObj fs
  | Next _ => True
  end.

Inductive response_ok : response -> Prop :=
| ok_success s fs : s = 200 \/ s = 201 -> response_ok (Respond s (JObj fs))
| ok_error s m : 100 <= s <= 999 -> response_ok (Respond s (JObj [("message", JStr m)]))
| ok_fallback : response_ok (Respond 500 (JStr "Internal Server Error"))
| ok_file p : response_ok (SendFile p)
| ok_none : response_ok NoResponse.

#[export] Hint Constructors response_ok : js.

(** ** Handlers *)

Section Handlers.
Context `{GeocodingApi} `{CredentialService}.

(** The outcome of a handler run satisfies [reply_ok]. *)
Definition replies_ok (m : M reply) : Prop :=
  forall w, match m w with (Ok r, _) => reply_ok r | (Throw _, _) => True end.

Ltac replies_ok_run :=
  intros w; js_red; js_cases; use_txn_runs; js_red; js_cases; eauto.

Lemma endpoint_replies_ok e req : replies_ok (run_endpoint e req).
Proof.
  destruct e; simpl.
  - unfold getPlaceById, Place_findById. replies_ok_run.
  - unfold getPlacesByUserId. unfold_reads. replies_ok_run.
  - unfold createPlace, getCoordsForAddress, new_place, User_findById, userData_userId.
    replies_ok_run.
  - unfold updatePlace, Place_findById, userData_userId, save_place. replies_ok_run.
  - unfold deletePlace, Place_findById_populate, Place_findById, userData_userId,
      fs_unlink. replies_ok_run.
  - unfold getUsers, User_find_all. replies_ok_run.
  - unfold getUserById, User_findById. replies_ok_run.
  - unfold signupUser, User_findOne_email, hash_password, save_user, sign_token.
    replies_ok_run.
  - unfold loginUser, User_findOne_email, compare_password, sign_token. replies_ok_run.
Qed.
End Handlers.

(** ** The pipeline *)

Lemma node_status_range z s : node_status z = Some s -> 100 <= s <= 999.
Proof.
  unfold node_status. destruct (_ && _) eqn:Hc; [|done]. intros [= <-].
  apply andb_true_iff in Hc as [H1 H2]. apply Z.leb_le in H1, H2. lia.
Qed.

Lemma error_status_range e s : error_status e = Some s -> 100 <= s <= 999.
Proof.
  unfold error_status. intros Hs.
  repeat case_match; simplify_eq/=; try lia; by eapply node_status_range.
Qed.

Section Pipeline.
Context `{GeocodingApi} `{CredentialService} `{EmailRules}.

(** The outcome of a pipeline run satisfies [response_ok]. *)
Definition responds_ok (m : M response) : Prop :=
  forall w, match m w with (Ok r, _) => response_ok r | (Throw _, _) => True end.

Lemma responds_ok_run m w r w' : responds_ok m -> m w = (Ok r, w') -> response_ok r.
Proof. intros Hm Hr. specialize (Hm w). by rewrite Hr in Hm. Qed.

Lemma error_handler_ok file e : responds_ok (error_handler file e).
Proof.
  intros w. unfold error_handler, fs_unlink. js_red.
  destruct (error_status e) eqn:Hs; js_cases; eauto with js.
  all: constructor; by eapply error_status_range.
Qed.

Lemma run_route_ok rt hr uid : responds_ok (run_route rt hr uid).
Proof.
  intros w. unfold run_route, upload. destruct (rt_validate rt _) as [errors body].
  destruct (rt_upload rt), (hr_upload hr); js_red;
    match goal with |- context [run_endpoint ?e ?req ?w1] =>
      pose proof (endpoint_replies_ok e req w1) as He;
      destruct (run_endpoint e req w1) as [[[st b|e']|e'] w2]; js_red; try done
    end;
    first [destruct He as [? [fs ->]]; by constructor | apply error_handler_ok].
Qed.

Lemma app_ok hr : responds_ok (app hr).
Proof.
  intros w. unfold app, not_found. destruct (hr_body hr); [|apply error_handler_ok].
  destruct (resolve _ _) as [f|rt|rt|m rest|]; try apply run_route_ok.
  - js_red. case_bool_decide; [constructor|apply error_handler_ok].
  - unfold check_auth. js_red.
    repeat (case_match; simplify_eq/=); try done;
      (eapply responds_ok_run; [|eassumption]);
      first [apply error_handler_ok | apply run_route_ok].
  - apply error_handler_ok.
Qed.


End Pipeline.
