(* ===== verification/Abstract.v ===== *)
(** * Abstract: the place store as the spec describes it, and the
    refinement of the server by it

    The spec (sections 3 and 4) describes the write path as operations on
    users and places: a place is created by an existing user and belongs
    to them, only its owner edits or deletes it, a user signs up with an
    unused email.  The users' lists of place ids are an index of the
    places by owner, which the store keeps in step with the places.

    [AbsState] is that view of the store: the users without their lists,
    and the places.  [abs_apply] performs one operation with its guards,
    on behalf of the user id the operation carries.  [abs_db] maps a
    database to its view.  The theorems show that every request the
    server serves changes the view by at most one operation, performed by
    the request's authenticated user, that the view of every
    reachable world is produced by a run of operations from the empty
    store, and that the reads of the places router answer from the view
    alone ([place_reads_abstract]). *)

From stdpp Require Import base gmap strings list.
From Stdlib Require Import ZArith NArith String.
From S2P Require Import Prelude ObjectId Http Store Geocode Places Credentials Users Routes App Sessions.

(** A user as the spec sees it: the list of places is derived. *)
Record AbsUser := mkAbsUser {
  au_name : string;
  au_email : string;
  au_image : string;
  au_password : string
}.

Record AbsState := mkAbs {
  as_users : gmap N AbsUser;
  as_places : gmap N Place
}.

Definition abs_user (u : User) : AbsUser :=
  mkAbsUser (name u) (email u) (user_image u) (password u).

Definition abs_db (d : Db) : AbsState := mkAbs (abs_user <$> db_users d) (db_places d).

(** The operations of the write path; the string is the acting user's id
    as the token carries it. *)
Inductive abs_op : Type :=
| AbsCreate (actor : string) (p : Place)
| AbsEdit (actor : string) (k : N) (t ds : string)
| AbsDelete (actor : string) (k : N)
| AbsSignup (k : N) (u : AbsUser).

Definition op_actor (op : abs_op) : option string :=
  match op with
  | AbsCreate a _ | AbsEdit a _ _ _ | AbsDelete a _ => Some a
  | AbsSignup _ _ => None
  end.

(** One operation with its guards: a new place has an unused id and is
    created by the acting user, who exists; only the owner edits or
    deletes a place; a new user has an unused id and an unused email. *)
Definition abs_apply (s : AbsState) (op : abs_op) : option AbsState :=
  match op with
  | AbsCreate a p =>
      if decide (as_places s !! place_id p = None /\ oid_of_string a = Some (creator p) /\
                 is_Some (as_users s !! creator p))
      then Some (mkAbs (as_users s) (<[place_id p := p]> (as_places s))) else None
  | AbsEdit a k t ds =>
      match as_places s !! k with
      | Some p =>
          if decide (oid_to_string (creator p) = a)
          then Some (mkAbs (as_users s) (<[k := set_title_description p t ds]> (as_places s)))
          else None
      | None => None
      end
  | AbsDelete a k =>
      match as_places s !! k with
      | Some p =>
          if decide (oid_to_string (creator p) = a)
          then Some (mkAbs (as_users s) (delete k (as_places s))) else None
      | None => None
      end
  | AbsSignup k u =>
      if decide (as_users s !! k = None /\
                 map_Forall (fun _ v => au_email v <> au_email u) (as_users s))
      then Some (mkAbs (<[k := u]> (as_users s)) (as_places s)) else None
  end.

(** A run of operations. *)
Fixpoint abs_run (s : AbsState) (ops : list abs_op) : option AbsState :=
  match ops with
  | [] => Some s
  | op :: ops' => s' ← abs_apply s op; abs_run s' ops'
  end.

Definition abs_empty : AbsState := mkAbs ∅ ∅.

(** ** The writes, seen abstractly *)

Lemma abs_user_push u p : abs_user (push_place u p) = abs_user u.
Proof. reflexivity. Qed.

Lemma abs_user_pull u p : abs_user (pull_place u p) = abs_user u.
Proof. reflexivity. Qed.

(** Saving a user whose abstract view is unchanged does not change the
    users' view. *)
Lemma abs_users_resave (us : gmap N User) u u' :
  us !! user_id u = Some u' -> abs_user u = abs_user u' ->
  abs_user <$> <[user_id u := u]> us = abs_user <$> us.
Proof.
  intros Hu Habs. rewrite fmap_insert, Habs.
  apply insert_id. by rewrite lookup_fmap, Hu.
Qed.

Lemma abs_db_create d p u :
  db_wf d -> db_users d !! creator p = Some u ->
  abs_db (apply_writes d [WSavePlace p; WSaveUser (push_place u p)]) =
  mkAbs (as_users (abs_db d)) (<[place_id p := p]> (db_places d)).
Proof.
  intros (_ & Hus & _) Hc. destruct (Hus _ _ Hc) as [Hid _].
  unfold abs_db, apply_writes. simpl. f_equal.
  apply (abs_users_resave _ (push_place u p) u); [simpl; by rewrite Hid|done].
Qed.

Lemma abs_db_delete d k p u :
  db_wf d -> db_places d !! k = Some p -> db_users d !! creator p = Some u ->
  abs_db (apply_writes d [WRemovePlace (place_id p); WSaveUser (pull_place u p)]) =
  mkAbs (as_users (abs_db d)) (delete k (db_places d)).
Proof.
  intros (Hps & Hus & _) Hk Hc. destruct (Hus _ _ Hc) as [Hid _].
  destruct (Hps _ _ Hk) as [Hpid _].
  unfold abs_db, apply_writes. simpl. rewrite Hpid. f_equal.
  apply (abs_users_resave _ (pull_place u p) u); [simpl; by rewrite Hid|done].
Qed.

Lemma abs_db_update d k p t ds :
  db_wf d -> db_places d !! k = Some p ->
  abs_db (apply_write d (WSavePlace (set_title_description p t ds))) =
  mkAbs (as_users (abs_db d)) (<[k := set_title_description p t ds]> (db_places d)).
Proof.
  intros (Hps & _ & _) Hk. destruct (Hps _ _ Hk) as [Hpid _].
  unfold abs_db. simpl. by rewrite Hpid.
Qed.

Lemma abs_db_new_user d u :
  abs_db (apply_write d (WSaveUser u)) =
  mkAbs (<[user_id u := abs_user u]> (as_users (abs_db d))) (db_places d).
Proof. unfold abs_db. simpl. by rewrite fmap_insert. Qed.

(** ** Each handler performs at most one operation *)

(** [d'] is [d], or [d] after one operation whose actor is [actor]. *)
Definition refines_by (actor : option string) (d d' : Db) : Prop :=
  abs_db d' = abs_db d \/
  exists op, abs_apply (abs_db d) op = Some (abs_db d') /\
             forall a, op_actor op = Some a -> actor = Some a.

Ltac refine_unchanged :=
  left; repeat match goal with H : w_db _ = _ |- _ => rewrite H; clear H end; reflexivity.

Section Handlers.
Context `{GeocodingApi} `{CredentialService}.

Lemma deletePlace_refines req w :
  world_wf w -> refines_by (req_userId req) (w_db w) (w_db (final (deletePlace req) w)).
Proof.
  intros Hwf. pose proof Hwf as (Hdb & Hids & Ht).
  unfold deletePlace, Place_findById_populate, Place_findById, userData_userId, fs_unlink.
  run_handler; try refine_unchanged.
  right. exists (AbsDelete s a0). split; [|by intros ? [= <-]].
  rewrite H12, (abs_db_delete _ a0 p u) by done. unfold abs_apply. cbn [as_places abs_db]. rewrite H1.
  apply bool_decide_eq_false, dec_stable in H6.
  destruct Hdb as (_ & Hus & _). destruct (Hus _ _ H3) as [Hid _].
  rewrite decide_True by congruence. reflexivity.
Qed.

Lemma updatePlace_refines req w :
  world_wf w -> refines_by (req_userId req) (w_db w) (w_db (final (updatePlace req) w)).
Proof.
  intros Hwf. pose proof Hwf as (Hdb & Hids & Ht).
  unfold updatePlace, Place_findById, userData_userId, save_place.
  run_handler; try refine_unchanged.
  destruct Hdb as (Hps & _ & _). destruct (Hps _ _ H2) as [Hpid _].
  apply bool_decide_eq_false, dec_stable in H5.
  right. eexists (AbsEdit s a1 _ _). split; [|by intros ? [= <-]].
  unfold abs_apply, abs_db. cbn [as_places as_users db_places db_users].
  rewrite H2, decide_True by done. by rewrite Hpid.
Qed.

Lemma createPlace_refines req w :
  world_wf w -> refines_by (req_userId req) (w_db w) (w_db (final (createPlace req) w)).
Proof.
  intros Hwf. pose proof Hwf as (Hdb & Hids & Ht).
  unfold createPlace, getCoordsForAddress, new_place, User_findById, userData_userId.
  run_handler; try refine_unchanged.
  right. eexists (AbsCreate s0 _). split; [|by intros ? [= <-]].
  rewrite H15, abs_db_create by done. unfold abs_apply. cbn [as_places as_users abs_db].
  rewrite decide_True; [done|]. cbn [place_id creator].
  split_and!; [by apply ids_below_fresh_place|done|]. rewrite lookup_fmap, H6. by eexists.
Qed.

Lemma signupUser_refines req w :
  world_wf w -> refines_by (req_userId req) (w_db w) (w_db (final (signupUser req) w)).
Proof.
  intros Hwf. pose proof Hwf as (Hdb & Hids & Ht).
  unfold signupUser, User_findOne_email, hash_password, save_user, sign_token.
  js_red. js_cases; try refine_unchanged; right;
    (eexists (AbsSignup (w_next w) _); split; [|by intros ? [=]]);
    unfold abs_apply, abs_db; cbn [as_places as_users db_places db_users];
    (rewrite decide_True; [by rewrite fmap_insert|]); split.
  all: try (rewrite lookup_fmap, ids_below_fresh_user by done; done).
  all: intros k v (u & <- & Hk)%lookup_fmap_Some; by apply (find_email_None _ _ H2 k).
Qed.

Lemma refines_by_weaken a d d' : refines_by None d d' -> refines_by a d d'.
Proof. intros [?|(op & ? & Ha)]; [by left|right]. exists op. naive_solver. Qed.

Lemma endpoint_refines e req w :
  world_wf w -> refines_by (req_userId req) (w_db w) (w_db (final (run_endpoint e req) w)).
Proof.
  intros Hwf. destruct e; simpl.
  - unfold getPlaceById, Place_findById. left. js_red. by js_cases.
  - unfold getPlacesByUserId. unfold_reads. left. js_red. by js_cases.
  - by apply createPlace_refines.
  - by apply updatePlace_refines.
  - by apply deletePlace_refines.
  - unfold getUsers, User_find_all. left. js_red. by js_cases.
  - unfold getUserById, User_findById. left. js_red. by js_cases.
  - by apply signupUser_refines.
  - unfold loginUser, User_findOne_email, compare_password, sign_token. left. js_red.
    by js_cases.
Qed.
End Handlers.

(** ** The pipeline performs at most one operation *)

Section Pipeline.
Context `{GeocodingApi} `{CredentialService} `{EmailRules}.

(** The user id the auth gate accepts for a request, if any. *)
Definition authenticated (hr : HttpRequest) (w : World) : option string :=
  match outcome (check_auth (hr_authorization hr)) w with
  | Ok (inr uid) => Some uid
  | _ => None
  end.

Lemma error_handler_db file e w : w_db (error_handler file e w).2 = w_db w.
Proof. unfold error_handler, fs_unlink. js_red. by js_cases. Qed.

Lemma run_route_refines rt hr uid w :
  world_wf w -> refines_by uid (w_db w) (w_db (final (run_route rt hr uid) w)).
Proof.
  intros Hwf. unfold final, run_route, upload.
  destruct (rt_validate rt _) as [errors body].
  destruct (rt_upload rt), (hr_upload hr) as [path|]; js_red;
    match goal with |- context [run_endpoint ?e ?req ?w1] =>
      pose proof (endpoint_refines e req w1 Hwf) as He; unfold final in He;
      destruct (run_endpoint e req w1) as [[[s b|e']|e'] w2]; js_red; try done
    end;
    match goal with |- context [error_handler ?f ?err ?w'] =>
      pose proof (error_handler_db f err w');
      destruct (error_handler f err w'); simpl in *; congruence
    end.
Qed.

Lemma app_refines hr w :
  world_wf w -> refines_by (authenticated hr w) (w_db w) (w_db (final (app hr) w)).
Proof.
  intros Hwf. unfold app, not_found.
  destruct (hr_body hr); [|left; exact (f_equal abs_db (error_handler_db _ _ _))].
  destruct (resolve _ _) as [f|rt|rt|m rest|].
  - left. js_red. case_bool_decide; [done|exact (f_equal abs_db (error_handler_db _ _ _))].
  - by apply refines_by_weaken, run_route_refines.
  - by apply refines_by_weaken, run_route_refines.
  - unfold authenticated, check_auth, outcome. js_red.
    repeat (case_match; simplify_eq/=);
      first [by left | left; exact (f_equal abs_db (error_handler_db _ _ _))
            | by apply run_route_refines].
  - left. exact (f_equal abs_db (error_handler_db _ _ _)).
Qed.

(** ** Refinement *)

(** C4 (serve_refines): from a consistent world, a request changes the
    abstract store by at most one operation of the spec, with its guards,
    and an operation on a place is performed by the user the auth gate
    accepted for the request: the owner for an edit or a deletion, the
    creator for a creation. *)
Theorem serve_refines hr w :
  world_wf w ->
  refines_by (authenticated hr w) (w_db w) (w_db (snd (serve hr w))).
Proof.
  intros Hwf. pose proof (app_refines hr w Hwf) as Ha.
  unfold serve, final in *. by destruct (app hr w) as [[] w''].
Qed.

Lemma abs_run_snoc s ops op :
  abs_run s (ops ++ [op]) = abs_run s ops ≫= fun s' => abs_apply s' op.
Proof.
  revert s. induction ops as [|op' ops IH]; intros s; simpl.
  - by destruct (abs_apply s op).
  - destruct (abs_apply s op'); [apply IH|done].
Qed.

(** C5 (reachable_refines): the abstract store of every reachable world is
    the result of a run of operations of the spec, each with its guards,
    from the empty store. *)
Theorem reachable_refines w :
  reachable w -> exists ops, abs_run abs_empty ops = Some (abs_db (w_db w)).
Proof.
  intros Hr. cut (world_wf w /\ exists ops, abs_run abs_empty ops = Some (abs_db (w_db w)));
    [tauto|].
  induction Hr as [t|w w' Hr IH Hs].
  - split; [unfold world_wf, initial_world; simpl; split_and!; done|].
    exists []. unfold abs_db. simpl. by rewrite fmap_empty.
  - destruct IH as [Hwf [ops Hops]]. destruct Hs as [w fs hr r w' Hserve|w dt Hdt];
      [|by split; [|exists ops]].
    pose proof (app_preserves_wf hr (set_faults fs w) Hwf) as Hw'.
    pose proof (app_refines hr (set_faults fs w) Hwf) as Href.
    unfold serve, final in *. destruct (app hr _) as [[] w'']; simplify_eq/=;
      (split; [done|]); (destruct Href as [Heq|(op & Hop & _)];
      [exists ops; by rewrite Heq | exists (ops ++ [op]); by rewrite abs_run_snoc, Hops]).
Qed.
(** C6 (place_reads_abstract): every [GET /api/places/...] answers from
    the abstract store: two databases with the same places and the same
    users up to their lists of place ids get the same response.  The
    lists are an index the reads never show: [getPlacesByUserId] asks
    [Place.find({ creator })], not the user's list. *)
Theorem place_reads_abstract hr w d1 d2 rest :
  hr_method hr = GET -> hr_path hr = "api" :: "places" :: rest ->
  abs_db d1 = abs_db d2 ->
  fst (serve hr (set_db d1 w)) = fst (serve hr (set_db d2 w)).
Proof.
  intros Hm Hp [= _ Hpl]. destruct d1 as [u1 p1], d2 as [u2 p2]; simpl in Hpl; subst p2.
  unfold serve, app. rewrite Hm, Hp, resolve_places.
  destruct (hr_body hr); [|reflexivity].
  destruct (places_public_route GET rest) as [rt|] eqn:Hr.
  - destruct (places_public_route_get _ _ Hr) as [Hup [He|He]];
      unfold run_route, upload; rewrite Hup, He; destruct (rt_validate _ _); simpl.
    + unfold getPlaceById, Place_findById, cast_oid, io. js_red.
      destruct (hd false _); [done|]. simpl.
      destruct (oid_of_string _); simpl; [destruct (p1 !! _)|]; done.
    + unfold getPlacesByUserId, Place_find_creator, cast_oid, io. js_red.
      destruct (hd false _); [done|]. simpl. destruct (oid_of_string _); done.
  - unfold check_auth, not_found, error_handler. rewrite places_auth_route_get.
    destruct (hr_authorization hr); js_red; [|done].
    destruct (String.eqb _ _); js_red; [done|]. destruct (jwt_verify _ _); js_red; done.
Qed.
End Pipeline.

(** ** Witnesses *)

Section Witnesses.
#[local] Existing Instance demo_geocoder.
#[local] Existing Instance demo_credentials.
#[local] Existing Instance demo_email_rules.

(** Ann deletes her place with her token. *)
Lemma serve_refines_witness :
  refines_by (authenticated (delete_request (oid_to_string 1) ann_token) demo_world)
    (w_db demo_world) (w_db (snd (serve (delete_request (oid_to_string 1) ann_token) demo_world))).
Proof. apply serve_refines. apply (bool_decide_unpack _). vm_compute. reflexivity. Defined.

Lemma reachable_refines_witness :
  exists ops, abs_run abs_empty ops =
    Some (abs_db (w_db (snd (serve (signup_request "Ann" "ann@example.com" "secret1"
                                      "uploads/images/a.png") (initial_world 0))))).
Proof.
  apply reachable_refines. apply (reachable_step (initial_world 0)); [constructor|].
  apply (step_serve _ [] (signup_request "Ann" "ann@example.com" "secret1" "uploads/images/a.png")
           (fst (serve (signup_request "Ann" "ann@example.com" "secret1" "uploads/images/a.png")
                       (initial_world 0)))).
  vm_compute. reflexivity.
Defined.

(** Ann's list of places emptied: the same abstract store. *)
Definition demo_db_unlisted : Db :=
  mkDb {[0%N := set_places demo_user []]} {[1%N := demo_place]}.

Lemma place_reads_abstract_witness :
  let hr := mkHttpRequest GET ["api"; "places"; "user"; oid_to_string 0] None (Some []) None in
  fst (serve hr (set_db (w_db demo_world) demo_world)) =
  fst (serve hr (set_db demo_db_unlisted demo_world)).
Proof.
  intros hr. apply (place_reads_abstract hr demo_world _ _ ["user"; oid_to_string 0]);
    reflexivity.
Defined.

End Witnesses.
