(* ===== verification/Images.v ===== *)
(** * Images: every stored place's image is on disk

    The converse of [Store.no_orphans].  A place is created with the
    path of the file its request uploaded, and deleting it deletes that
    file; the error handler only deletes the upload of the request that
    failed.  For the image of a stored place to survive, two places must
    never share a file, which holds because multer names every upload
    [uuid() + '.' + ext] (middleware/file-upload.js, not under src/):
    [fresh_step] is [App.step] restricted to uploads whose name is not
    yet on disk.  [images_ok] is the invariant; the lemmas below show
    that each write of the handlers, the upload and the error handler's
    unlink keep it, then that every handler and the pipeline do.

    Users do not enjoy the same property: after
    [Sessions.signup_token_failure_dangling_image] a stored user names a
    deleted file. *)

From stdpp Require Import base gmap strings list.
From Stdlib Require Import ZArith NArith String.
From S2P Require Import Prelude ObjectId Http Store Geocode Places Credentials Users Routes App Sessions.

Local Open Scope Z_scope.

(** [file] is the upload of the request under way, if any: no place
    names it yet. *)
Definition images_ok (file : option string) (d : Db) (files : gset string) : Prop :=
  map_Forall (fun _ p => place_image p ∈ files /\ file <> Some (place_image p)) (db_places d) /\
  (forall k1 p1 k2 p2, db_places d !! k1 = Some p1 -> db_places d !! k2 = Some p2 ->
     place_image p1 = place_image p2 -> k1 = k2).

Definition place_images (file : option string) (w : World) : Prop :=
  images_ok file (w_db w) (w_files w).

(** An upload whose name is not on disk: multer's [uuid()] names. *)
Definition upload_fresh (hr : HttpRequest) (w : World) : Prop :=
  match hr_upload hr with Some p => p ∉ w_files w | None => True end.

Section Steps.
Context `{GeocodingApi} `{CredentialService} `{EmailRules}.

(** [App.step] with multer's fresh upload names. *)
Inductive fresh_step : World -> World -> Prop :=
| fresh_serve w fs hr r w' :
    upload_fresh hr w -> serve hr (set_faults fs w) = (r, w') -> fresh_step w w'
| fresh_clock w dt :
    (0 <= dt)%Z -> fresh_step w (set_now (w_now w + dt) w).

Inductive fresh_reachable : World -> Prop :=
| fresh_init t : fresh_reachable (initial_world t)
| fresh_reach w w' : fresh_reachable w -> fresh_step w w' -> fresh_reachable w'.
End Steps.

(** ** The writes keep the invariant *)

Section Writes.
Implicit Types (d : Db) (files : gset string) (e : option string).

Lemma images_ok_weaken e d files : images_ok e d files -> images_ok None d files.
Proof. intros [Hf Hu]. split; [|done]. eapply map_Forall_impl; [done|]. naive_solver. Qed.

Lemma images_ok_same_places e d d' files :
  db_places d' = db_places d -> images_ok e d files -> images_ok e d' files.
Proof. unfold images_ok. by intros ->. Qed.

Lemma images_ok_save_user e d u files :
  images_ok e d files -> images_ok e (apply_write d (WSaveUser u)) files.
Proof. by apply images_ok_same_places. Qed.

(** The upload of a fresh file. *)
Lemma images_ok_upload d files f :
  f ∉ files -> images_ok None d files -> images_ok (Some f) d ({[f]} ∪ files).
Proof.
  intros Hf [Hp Hu]. split; [|done]. intros k p Hk. destruct (Hp k p Hk) as [Hin _].
  split; [set_solver|]. intros [= ->]. done.
Qed.

(** The error handler's unlink of the upload. *)
Lemma images_ok_unlink d files f :
  images_ok (Some f) d files -> images_ok None d (files ∖ {[f]}).
Proof.
  intros [Hp Hu]. split; [|done]. intros k p Hk. destruct (Hp k p Hk) as [Hin Hne].
  split; [|done]. apply elem_of_difference. split; [done|].
  intros Hs%elem_of_singleton. by subst.
Qed.

(** The create transaction: a new place named after the upload. *)
Lemma images_ok_create d files p u :
  db_places d !! place_id p = None -> place_image p ∈ files ->
  images_ok (Some (place_image p)) d files ->
  images_ok None (apply_writes d [WSavePlace p; WSaveUser u]) files.
Proof.
  intros Hfresh Hin [Hp Hu]. unfold apply_writes. cbn [foldl].
  apply images_ok_save_user. split; simpl.
  - apply map_Forall_insert_2; [done|]. eapply map_Forall_impl; [done|]. naive_solver.
  - intros k1 p1 k2 p2 H1 H2 Himg.
    destruct (decide (k1 = place_id p)) as [->|Hne1], (decide (k2 = place_id p)) as [->|Hne2];
      simplify_map_eq; try done.
    + destruct (Hp _ _ H2) as [_ Hn]. congruence.
    + destruct (Hp _ _ H1) as [_ Hn]. congruence.
    + eauto.
Qed.

(** The delete transaction, then the unlink of the place's image. *)
Lemma images_ok_delete e d files k p u :
  db_wf d -> db_places d !! k = Some p -> images_ok e d files ->
  images_ok e (apply_writes d [WRemovePlace (place_id p); WSaveUser u])
    (files ∖ {[place_image p]}).
Proof.
  intros (Hok & _ & _) Hk [Hp Hu]. destruct (Hok _ _ Hk) as [<- _].
  unfold apply_writes. cbn [foldl].
  apply images_ok_save_user. split; simpl.
  - intros j q Hj. apply lookup_delete_Some in Hj as [Hne Hj].
    destruct (Hp _ _ Hj) as [Hin He]. split; [|done].
    apply elem_of_difference. split; [done|]. intros Himg%elem_of_singleton.
    apply Hne. symmetry. eauto.
  - intros k1 p1 k2 p2 H1 H2. apply lookup_delete_Some in H1 as [_ H1].
    apply lookup_delete_Some in H2 as [_ H2]. eauto.
Qed.

(** [updatePlace] saves the place with the same image under the same id. *)
Lemma images_ok_update e d files k p t ds :
  db_wf d -> db_places d !! k = Some p -> images_ok e d files ->
  images_ok e (apply_write d (WSavePlace (set_title_description p t ds))) files.
Proof.
  intros (Hok & _ & _) Hk [Hp Hu]. destruct (Hok _ _ Hk) as [<- _]. split; simpl.
  - apply map_Forall_insert_2; [|done]. exact (Hp _ _ Hk).
  - intros k1 p1 k2 p2 H1 H2 Himg.
    destruct (decide (k1 = place_id p)) as [->|Hne1], (decide (k2 = place_id p)) as [->|Hne2];
      simplify_map_eq; simpl in *; eauto.
Qed.
End Writes.

(** Close a goal [place_images e w'] once a handler has been run. *)
Ltac images_close :=
  unfold place_images in *; cbn [w_files w_db] in *;
  repeat match goal with H : w_files _ = _ |- _ => rewrite H end;
  repeat match goal with H : w_db _ = _ |- _ => rewrite H end;
  first
  [ assumption
  | by eapply images_ok_weaken
  | eapply images_ok_create; [by apply ids_below_fresh_place | by auto | done]
  | eapply images_ok_delete; eassumption
  | eapply images_ok_update; eassumption
  | by apply images_ok_save_user ].

(** ** The handlers keep the invariant *)

Section Handlers.
Context `{GeocodingApi} `{CredentialService}.

Lemma createPlace_images req w :
  world_wf w -> place_images (req_file req) w ->
  (forall f, req_file req = Some f -> f ∈ w_files w) ->
  match createPlace req w with
  | (Ok (Next _), w') => place_images (req_file req) w'
  | (_, w') => place_images None w'
  end.
Proof.
  intros Hwf Hi Hin. pose proof Hwf as (Hdb & Hids & Ht).
  unfold createPlace, getCoordsForAddress, new_place, User_findById, userData_userId.
  run_handler; images_close.
Qed.

Lemma deletePlace_images req w e :
  world_wf w -> place_images e w -> place_images e (final (deletePlace req) w).
Proof.
  intros Hwf Hi. pose proof Hwf as (Hdb & Hids & Ht).
  unfold deletePlace, Place_findById_populate, Place_findById, userData_userId, fs_unlink.
  run_handler; images_close.
Qed.

Lemma updatePlace_images req w e :
  world_wf w -> place_images e w -> place_images e (final (updatePlace req) w).
Proof.
  intros Hwf Hi. pose proof Hwf as (Hdb & Hids & Ht).
  unfold updatePlace, Place_findById, userData_userId, save_place.
  run_handler; images_close.
Qed.

Lemma signupUser_images req w e :
  place_images e w -> place_images e (final (signupUser req) w).
Proof.
  intros Hi. unfold signupUser, User_findOne_email, hash_password, save_user, sign_token.
  run_handler; images_close.
Qed.
End Handlers.

(** ** The pipeline keeps the invariant *)

Section Pipeline.
Context `{GeocodingApi} `{CredentialService} `{EmailRules}.

Lemma error_handler_images file e w :
  place_images file w -> place_images None (final (error_handler file e) w).
Proof.
  unfold error_handler, fs_unlink. intros Hi.
  destruct file as [p|]; js_red; js_cases; unfold place_images in *; cbn [w_files w_db].
  all: first [by apply images_ok_unlink | done].
Qed.

Lemma endpoint_images e req w :
  world_wf w -> place_images None w -> req_file req = None ->
  place_images None (final (run_endpoint e req) w).
Proof.
  intros Hwf Hi Hf. pose proof Hwf as (Hdb & Hids & Ht). destruct e; simpl.
  - unfold getPlaceById, Place_findById. run_handler; images_close.
  - unfold getPlacesByUserId. unfold_reads. run_handler; images_close.
  - pose proof (createPlace_images req w Hwf) as Hc. rewrite Hf in Hc.
    specialize (Hc Hi ltac:(done)). unfold final.
    destruct (createPlace req w) as [[[]|] w']; done.
  - by apply updatePlace_images.
  - by apply deletePlace_images.
  - unfold getUsers, User_find_all. run_handler; images_close.
  - unfold getUserById, User_findById. run_handler; images_close.
  - by apply signupUser_images.
  - unfold loginUser, User_findOne_email, compare_password, sign_token.
    run_handler; images_close.
Qed.

Lemma run_route_images rt hr uid w :
  world_wf w -> place_images None w -> upload_fresh hr w ->
  (rt_upload rt = true -> rt_endpoint rt = ECreatePlace \/ rt_endpoint rt = ESignup) ->
  place_images None (final (run_route rt hr uid) w).
Proof.
  intros Hwf Hi Hfresh Hup. unfold final, run_route, upload, upload_fresh in *.
  destruct (rt_validate rt _) as [errors body].
  destruct (rt_upload rt) eqn:Hu; [destruct (hr_upload hr) as [path|]|]; js_red.
  2-3: pose proof (endpoint_images (rt_endpoint rt)
                   (mkRequest (rt_params rt) body None uid errors) w Hwf Hi eq_refl) as Hc;
    unfold final in Hc; destruct (run_endpoint _ _ w) as [[[s b|e]|e] w2]; js_red;
    [done|by apply error_handler_images|done].
  pose proof (images_ok_upload _ _ _ Hfresh Hi) as Hi1.
  destruct (Hup eq_refl) as [He|He]; rewrite He; simpl.
  - pose proof (createPlace_images (mkRequest (rt_params rt) body (Some path) uid errors)
                  (set_files ({[path]} ∪ w_files w) w) Hwf Hi1) as Hc.
    specialize (Hc ltac:(intros f [= <-]; simpl; set_solver)).
    destruct (createPlace _ _) as [[[s b|e]|e] w2]; js_red;
      [done|by apply error_handler_images|done].
  - pose proof (signupUser_images (mkRequest (rt_params rt) body (Some path) uid errors)
                  (set_files ({[path]} ∪ w_files w) w) _ Hi1) as Hc.
    unfold final in Hc.
    destruct (signupUser _ _) as [[[s b|e]|e] w2]; js_red;
      [by eapply images_ok_weaken|by apply error_handler_images|by eapply images_ok_weaken].
Qed.

Lemma app_images hr w :
  world_wf w -> place_images None w -> upload_fresh hr w ->
  place_images None (end_request (final (app hr) w)).
Proof.
  intros Hw Hi Hfresh. change (place_images None (final (app hr) w)).
  unfold app, not_found. destruct (hr_body hr); [|by apply error_handler_images].
  pose proof (resolve_upload (hr_method hr) (hr_path hr)) as Hr.
  destruct (resolve _ _) as [f|rt|rt|m rest|].
  - js_red. case_bool_decide; [done|by apply error_handler_images].
  - destruct Hr as [Hup Hc]. apply run_route_images; [done|done|done|naive_solver].
  - destruct Hr as [Hup Hc]. apply run_route_images; [done|done|done|congruence].
  - unfold check_auth. js_red.
    repeat (case_match; simplify_eq/=); try done.
    match goal with Hrt : places_auth_route _ _ = Some ?rt |- _ =>
      apply (run_route_images rt); [done|done|done|];
      intros Hup; left; by eapply places_auth_route_upload end.
  - by apply error_handler_images.
Qed.
End Pipeline.

(** ** Every stored place's image is on disk *)

Section Invariant.
Context `{GeocodingApi} `{CredentialService} `{EmailRules}.

Lemma fresh_step_step w w' : fresh_step w w' -> step w w'.
Proof. intros [w0 fs hr r w1 _ Hs|w0 dt Hdt]; [by eapply step_serve|by apply step_clock]. Qed.

(** The worlds of [fresh_reachable] are [reachable]: the invariants of
    [App] hold in them. *)
Lemma fresh_reachable_reachable w : fresh_reachable w -> reachable w.
Proof.
  induction 1 as [t|w w' _ IH Hs]; [constructor|].
  eapply reachable_step; [done|by apply fresh_step_step].
Qed.

(** C3 (place_images_present): in every world reachable from an empty
    database when uploads get fresh names, the image of every stored
    place is a file on disk, and no other place names that file: a
    place's file is only deleted when the place is, and a failed
    request deletes only its own fresh upload. *)
Theorem place_images_present w :
  fresh_reachable w ->
  forall k p, db_places (w_db w) !! k = Some p ->
    place_image p ∈ w_files w /\
    (forall k' p', db_places (w_db w) !! k' = Some p' -> place_image p' = place_image p -> k' = k).
Proof.
  intros Hr. cut (world_wf w /\ place_images None w).
  { intros [_ [Hp Hu]] k p Hk. split; [by destruct (Hp _ _ Hk)|]. intros k' p' Hk' Hi. eauto. }
  induction Hr as [t|w w' Hr IH Hs].
  - split; [unfold world_wf, initial_world; simpl; split_and!; done|].
    split; simpl; [apply map_Forall_empty|]. intros ?????. by rewrite lookup_empty.
  - destruct IH as [Hwf Hi]. destruct Hs as [w fs hr r w' Hfresh Hserve|w dt Hdt]; [|done].
    pose proof (app_preserves_wf hr (set_faults fs w) Hwf) as Ha.
    pose proof (app_images hr (set_faults fs w) Hwf Hi Hfresh) as Hb.
    unfold serve, final in *. destruct (app hr _) as [[] w'']; by simplify_eq.
Qed.
End Invariant.

(** ** Witness *)

Section Witnesses.
#[local] Existing Instance demo_geocoder.
#[local] Existing Instance demo_credentials.
#[local] Existing Instance demo_email_rules.

(** Ann signs up with [uploads/images/a.png], then creates the tower
    with [uploads/images/tower.png]. *)
Definition ann_signed_up : World :=
  snd (serve (signup_request "Ann" "ann@example.com" "secret1" "uploads/images/a.png")
         (initial_world 0)).

Definition tower_request : HttpRequest :=
  ann_request POST ["api"; "places"]
    [("title", "Tower"); ("description", "A tall tower"); ("address", "1 Main St")]
    (Some "uploads/images/tower.png").

Lemma place_images_present_witness :
  place_image demo_place ∈ w_files (snd (serve tower_request ann_signed_up)).
Proof.
  assert (fresh_reachable (snd (serve tower_request ann_signed_up))) as Hr.
  { apply (fresh_reach ann_signed_up).
    - apply (fresh_reach (initial_world 0)); [constructor|].
      apply (fresh_serve _ [] (signup_request "Ann" "ann@example.com" "secret1"
                                 "uploads/images/a.png")
               (fst (serve (signup_request "Ann" "ann@example.com" "secret1"
                              "uploads/images/a.png") (initial_world 0)))).
      + unfold upload_fresh. simpl. set_solver.
      + vm_compute. reflexivity.
    - apply (fresh_serve _ [] tower_request (fst (serve tower_request ann_signed_up))).
      + change ("uploads/images/tower.png" ∉ w_files ann_signed_up).
        apply (bool_decide_unpack _). vm_compute. exact I.
      + vm_compute. reflexivity. }
  exact (proj1 (place_images_present _ Hr 1 demo_place ltac:(vm_compute; reflexivity))).
Defined.
End Witnesses.
